(** * MBMRL: model-based meta-reinforcement learning (mbmrl.py)

    A shallow embedding of the adaptation / collection / meta-update core of
    [mbmrl.py].  Python values are modelled as follows.

    - Python [int]s are [Z]; Python [float]s are idealised as rationals [Q]
      (no rounding); a 2-d torch tensor built by [_aggregate_rollout] is the
      list of its rows, a row being a [list Q].
    - Exceptions are the left summand of [result].
    - The dynamics network ([net.py]), [loss_func] and [zero_grad]
      ([tools/utils.py]), torch's autograd and optimisers are collaborators
      whose code is not part of the verified file: they are the fields of the
      class [Torch].
    - Tasks (gym environments), the MPC controller, numpy's global random
      generator, the timer and the process pool are the fields of the class
      [World]; every call into them is recorded in a history of [event]s. *)

From Stdlib Require Import String Bool Arith ZArith QArith Lia List Permutation.
Import ListNotations.
Local Open Scope Z_scope.

(** ** Python preliminaries *)

Inductive exn : Type :=
| IndexError
| ValueError
| ZeroDivisionError
| RuntimeError
| WorkerCrash   (* a child process died: the parent blocks on [queue.get()] *)
| OutOfFuel.    (* the model's bound on a [while not done] loop was reached *)

Definition result (A : Type) : Type := (exn + A)%type.

Definition ok {A} (a : A) : result A := inr a.
Definition throw {A} (e : exn) : result A := inl e.

Definition rbind {A B} (r : result A) (k : A -> result B) : result B :=
  match r with
  | inl e => inl e
  | inr a => k a
  end.

Declare Scope py_scope.
Delimit Scope py_scope with py.
Notation "x <- e ;; k" := (rbind e (fun x => k))
  (at level 61, e at next level, right associativity) : py_scope.
Notation "' p <- e ;; k" := (rbind e (fun x => match x with p => k end))
  (at level 61, p pattern, e at next level, right associativity) : py_scope.
Local Open Scope py_scope.

(** [l[i]] for [0 <= i]; the code never indexes with a negative number. *)
Definition py_index {A} (l : list A) (i : Z) : result A :=
  if i <? 0 then throw IndexError
  else match nth_error l (Z.to_nat i) with
       | Some a => ok a
       | None => throw IndexError
       end.

(** A slice bound as [slice.indices] normalises it (step 1). *)
Definition clamp_index (len i : Z) : Z :=
  if i <? 0 then Z.max 0 (i + len) else Z.min i len.

(** [l[lo:hi]], either bound possibly omitted. *)
Definition py_slice {A} (lo hi : option Z) (l : list A) : list A :=
  let len := Z.of_nat (length l) in
  let a := match lo with None => 0 | Some i => clamp_index len i end in
  let b := match hi with None => len | Some j => clamp_index len j end in
  firstn (Z.to_nat (b - a)) (skipn (Z.to_nat a) l).

(** [range(n)] as the iteration count of a [for] loop. *)
Definition range_len (n : Z) : nat := Z.to_nat n.

(** A numpy value returned by the controller: 0-dimensional or a vector. *)
Inductive ndarray : Type :=
| Scalar (x : Q)
| Array1 (v : list Q).

(** [if action.shape == (): action = [action]] followed by
    [torch.tensor(action, dtype=torch.float)] flattened to one row. *)
Definition action_row (a : ndarray) : list Q :=
  match a with
  | Scalar x => [x]
  | Array1 v => v
  end.

Definition Qsum (l : list Q) : Q := fold_left Qplus l 0%Q.

(** [np.mean] of a non-empty list (numpy yields nan on an empty one, where
    this yields 0). *)
Definition np_mean (l : list Q) : Q :=
  (Qsum l / inject_Z (Z.of_nat (length l)))%Q.

(** ** collections.deque with [maxlen] *)

Record deque (A : Type) : Type := mkDeque { maxlen : nat; items : list A }.
Arguments mkDeque {A} _ _.
Arguments maxlen {A} _.
Arguments items {A} _.

(** [deque(maxlen=n)]: a negative bound is a [ValueError]. *)
Definition deque_new {A} (n : Z) : result (deque A) :=
  if n <? 0 then throw ValueError else ok (mkDeque (Z.to_nat n) []).

(** [d.append(x)]: push on the right, then drop from the left when the bound
    is exceeded. *)
Definition deque_append {A} (d : deque A) (x : A) : deque A :=
  let l := items d ++ [x] in
  mkDeque (maxlen d) (if (maxlen d <? length l)%nat then tl l else l).

(** [d.extend(xs)] appends the elements one by one. *)
Definition deque_extend {A} (d : deque A) (xs : list A) : deque A :=
  fold_left deque_append xs d.

Definition deque_len {A} (d : deque A) : Z := Z.of_nat (length (items d)).

(** The last [n] elements of a list. *)
Definition lastn {A} (n : nat) (l : list A) : list A :=
  skipn (length l - n) l.

(** ** Rollouts *)

(** A 2-d tensor, by rows. *)
Definition tensor : Type := list (list Q).

(** A rollout is the Python list [[]] or [[states, actions, next_states]]. *)
Definition rollout_t : Type := list tensor.

(** [_aggregate_rollout(rollout, state, action, next_state)]. *)
Definition _aggregate_rollout (rollout : rollout_t)
    (state action next_state : list Q) : result rollout_t :=
  match rollout with
  | [] => ok [[state]; [action]; [next_state]]
  | _ =>
      r0 <- py_index rollout 0 ;;
      r1 <- py_index rollout 1 ;;
      r2 <- py_index rollout 2 ;;
      ok [r0 ++ [state]; r1 ++ [action]; r2 ++ [next_state]]
  end.

(** [[r[-M:] for r in rollout]]. *)
Definition trailing_window (M : Z) (rollout : rollout_t) : rollout_t :=
  map (py_slice (Some (- M)) None) rollout.

(** [[t[:M] for t in traj]]. *)
Definition adaptation_window (M : Z) (traj : rollout_t) : rollout_t :=
  map (py_slice None (Some M)) traj.

(** [st, ac, next_st = traj]: unpacking a list of exactly three tensors. *)
Definition unpack3 (traj : rollout_t) : result (tensor * tensor * tensor) :=
  match traj with
  | [st; ac; next_st] => ok (st, ac, next_st)
  | _ => throw ValueError
  end.

(** [x / n] for a Python number [x] and [n = len(...)]. *)
Definition py_div (x : Q) (n : Z) : result Q :=
  if n =? 0 then throw ZeroDivisionError else ok (x / inject_Z n)%Q.

(** [len(t)] of a tensor: its number of rows. *)
Definition len {A} (l : list A) : Z := Z.of_nat (length l).

(** ** Collaborators *)

(** Parameter overlays ([state_dict()]-shaped dictionaries), in insertion
    order. *)
Fixpoint dict_set {V} (key : string) (v : V) (d : list (string * V))
    : list (string * V) :=
  match d with
  | [] => [(key, v)]
  | (k, w) :: d' =>
      if String.eqb k key then (k, v) :: d' else (k, w) :: dict_set key v d'
  end.

(** torch and the repository's [net.py] / [tools/utils.py]. *)
Class Torch : Type := {
  (** [Net]: the dynamics network. *)
  net : Type;
  (** A parameter tensor (with its graph when it has one). *)
  ptensor : Type;
  (** A predicted next-state batch, with its graph. *)
  pred : Type;
  (** A 0-dimensional loss tensor, with its graph. *)
  scalar : Type;
  (** [torch.optim.Adam] state. *)
  optimizer : Type;
  named_parameters : net -> list (string * ptensor);
  state_dict : net -> list (string * ptensor);
  (** [state + theta(torch.cat((state, action), 1), new_params=new_theta)]. *)
  predict_next :
    net -> option (list (string * ptensor)) -> tensor -> tensor -> result pred;
  (** [loss_func(loss_type, pred_next_state, next_state, std=pred_std)]. *)
  loss_func : string -> pred -> tensor -> Q -> result scalar;
  (** [c * loss] for a Python number [c]. *)
  scale : Q -> scalar -> scalar;
  (** [autograd.grad(loss, wrt, create_graph=b)]. *)
  autograd_grad : bool -> scalar -> list ptensor -> list ptensor;
  (** [val - phi * d]. *)
  descend : ptensor -> ptensor -> ptensor -> ptensor;
  (** [torch.mean(torch.stack(losses))]. *)
  mean_stack : list scalar -> scalar;
  (** [torch.tensor(x, requires_grad=True)]. *)
  tensor_of_float : Q -> ptensor;
  (** [torch.optim.Adam(params, lr=lr)]. *)
  adam : list ptensor -> Q -> result optimizer;
  (** [.grad] of the network's parameters and of [phi] after both optimisers'
      [zero_grad()] and [meta_loss.backward(retain_graph=True)]. *)
  backward : scalar -> net -> ptensor -> list ptensor * ptensor;
  (** [optimizer.step()]: new optimiser state and new parameter values. *)
  adam_step : optimizer -> list ptensor -> list ptensor
              -> optimizer * list ptensor;
  (** The network after its parameters were overwritten in place. *)
  with_parameters : net -> list ptensor -> net
}.

Section Model.

Context {T : Torch}.

Definition dict : Type := list (string * ptensor).

(** [theta.parameters()]. *)
Definition parameters (theta : net) : list ptensor :=
  map snd (named_parameters theta).

(** [{key: val.clone() for key, val in theta.state_dict().items()}]. *)
Definition clone_state_dict (theta : net) : dict := state_dict theta.

(** One pass of
    [for (key, val), d in zip(theta.named_parameters(), d_theta):
         new_theta_params[key] = val - phi * d
         new_theta_dict[key] = new_theta_params[key]].
    Note that [val] is the base parameter on every pass. *)
Definition descend_all (theta : net) (phi : ptensor) (d_theta : list ptensor)
    (acc : dict * dict) : dict * dict :=
  fold_left
    (fun (acc : dict * dict) (kd : (string * ptensor) * ptensor) =>
       let '((key, val), d) := kd in
       let '(new_theta_params, new_theta_dict) := acc in
       let new_val := descend val phi d in
       (dict_set key new_val new_theta_params,
        dict_set key new_val new_theta_dict))
    (combine (named_parameters theta) d_theta) acc.

(** *** The worker's inlined adaptation (lines 49-75 of
    [_collect_traj_per_thread]) *)

(** [loss_scale * loss_func(loss_type, st + theta(...), next_st, std)]. *)
Definition worker_loss (theta : net) (past_traj : rollout_t)
    (new_theta_dict : option dict) (loss_type : string) (loss_scale : Q)
    (pred_std : Q) : result scalar :=
  '(st, ac, next_st) <- unpack3 past_traj ;;
  pred_next_st <- predict_next theta new_theta_dict st ac ;;
  l <- loss_func loss_type pred_next_st next_st pred_std ;;
  ok (scale loss_scale l).

(** [for _ in range(adaptation_update_num): ...] of the worker; [steps]
    counts [_n_model_steps_total]. *)
Fixpoint worker_inner_loop (n : nat) (theta : net) (past_traj : rollout_t)
    (phi : ptensor) (loss_type : string) (loss_scale pred_std : Q)
    (new_theta_params new_theta_dict : dict) (steps : Z)
    : result (dict * dict * Z) :=
  match n with
  | O => ok (new_theta_params, new_theta_dict, steps)
  | S n' =>
      new_loss <- worker_loss theta past_traj (Some new_theta_dict)
                    loss_type loss_scale pred_std ;;
      let steps := steps + 1 in
      let d_theta := autograd_grad true new_loss (map snd new_theta_params) in
      let '(new_theta_params, new_theta_dict) :=
        descend_all theta phi d_theta (new_theta_params, new_theta_dict) in
      worker_inner_loop n' theta past_traj phi loss_type loss_scale pred_std
        new_theta_params new_theta_dict steps
  end.

(** [new_theta_dict = None; if past_traj: ...]: returns [new_theta_dict] and
    the updated [_n_model_steps_total]. *)
Definition worker_adaptation (theta : net) (past_traj : rollout_t)
    (phi : ptensor) (adaptation_update_num : Z) (loss_type : string)
    (loss_scale pred_std : Q) (steps : Z) : result (option dict * Z) :=
  match past_traj with
  | [] => ok (None, steps)
  | _ =>
      loss <- worker_loss theta past_traj None loss_type loss_scale pred_std ;;
      let steps := steps + 1 in
      let d_theta := autograd_grad false loss (parameters theta) in
      let new_theta_dict := clone_state_dict theta in
      let '(new_theta_params, new_theta_dict) :=
        descend_all theta phi d_theta ([], new_theta_dict) in
      '(_, new_theta_dict, steps) <-
        worker_inner_loop (range_len adaptation_update_num) theta past_traj
          phi loss_type loss_scale pred_std new_theta_params new_theta_dict
          steps ;;
      ok (Some new_theta_dict, steps)
  end.

End Model.

(** Tasks, controller, numpy's random generator, the timer and process
    spawning.  All of them live in one external state [world]. *)
Class World {T : Torch} : Type := {
  world : Type;
  (** A task object (a gym environment). *)
  task : Type;
  (** [set_seed(seed)] of [tools/utils.py]. *)
  set_seed : Z -> world -> world;
  (** [task.reset()]. *)
  env_reset : task -> world -> world * list Q;
  (** [task.step(action)]: next state, reward and [done]. *)
  env_step : task -> ndarray -> world -> world * (list Q * Q * bool);
  (** [controller.set_task(task)]. *)
  ctrl_set_task : task -> world -> world;
  (** [controller.plan(theta, state, new_theta_dict)]; a call with two
      arguments leaves the third at its default [None]. *)
  ctrl_plan : net -> list Q -> option dict -> world -> world * ndarray;
  (** [np.random.choice(n)] for [n > 0]. *)
  rng_choice : Z -> world -> world * Z;
  (** [np.random.shuffle(d)]. *)
  rng_shuffle : forall A : Type, list A -> world -> world * list A;
  (** The copy of the world a freshly spawned process works on. *)
  spawn : nat -> world -> world;
  (** The order in which the workers' messages come out of the queue. *)
  queue_order : forall A : Type, world -> list A -> list A;
  (** [gt.get_times().total]. *)
  gt_total : world -> Q
}.

(** ** Monads *)

(** The interface [_sample_traj] is written against: exceptions and numpy's
    random choice. It is interpreted in [Run] (the program) and in [Dist]
    (the distribution of its outcomes). *)
Class MonadPy (M : Type -> Type) : Type := {
  mret : forall {A}, A -> M A;
  mbind : forall {A B}, M A -> (A -> M B) -> M B;
  mraise : forall {A}, exn -> M A;
  np_random_choice : Z -> M Z
}.

Notation "x <~ e ;; k" := (mbind e (fun x => k))
  (at level 61, e at next level, right associativity) : py_scope.
Notation "' p <~ e ;; k" := (mbind e (fun x => match x with p => k end))
  (at level 61, p pattern, e at next level, right associativity) : py_scope.

Definition mlift {M} `{MonadPy M} {A} (r : result A) : M A :=
  match r with
  | inl e => mraise e
  | inr a => mret a
  end.

(** A finite distribution: outcomes with their probabilities. *)
Definition Dist (A : Type) : Type := list (Q * result A).

Definition dist_bind {A B} (d : Dist A) (k : A -> Dist B) : Dist B :=
  flat_map
    (fun pa : Q * result A =>
       match snd pa with
       | inl e => [(fst pa, inl e)]
       | inr a =>
           map (fun qb : Q * result B => (fst pa * fst qb, snd qb)%Q) (k a)
       end) d.

(** numpy: [choice(n)] is uniform over [arange(n)], and a [ValueError] when
    [n <= 0]. *)
Definition dist_choice (n : Z) : Dist Z :=
  if n <=? 0 then [(1%Q, inl ValueError)]
  else map (fun i : nat => (1 # Z.to_pos n, inr (Z.of_nat i)))
           (seq 0 (Z.to_nat n)).

#[export] Instance MonadPy_Dist : MonadPy Dist := {
  mret := fun A a => [(1%Q, inr a)];
  mbind := @dist_bind;
  mraise := fun A e => [(1%Q, inl e)];
  np_random_choice := dist_choice
}.


Section Agent.

Context {T : Torch} {W : World}.

(** Calls into the collaborators, in the order they happened; a step is
    recorded with the reward and the [done] flag it returned. *)
Inductive event : Type :=
| EvSetTask (t : task)
| EvReset (t : task)
| EvPlan (theta : net) (state : list Q) (new_theta : option dict)
| EvStep (t : task) (action : ndarray) (reward : Q) (done : bool)
| EvProcessStart (pid : nat).

(** The program's monad: external state, call history, exceptions. *)
Definition Run (A : Type) : Type :=
  world * list event -> result (A * (world * list event)).

Definition run_ret {A} (a : A) : Run A := fun s => ok (a, s).

Definition run_bind {A B} (m : Run A) (k : A -> Run B) : Run B :=
  fun s => match m s with
           | inl e => inl e
           | inr (a, s') => k a s'
           end.

Definition run_raise {A} (e : exn) : Run A := fun _ => throw e.

Definition run_choice (n : Z) : Run Z :=
  fun s =>
    if n <=? 0 then throw ValueError
    else let '(w, i) := rng_choice n (fst s) in ok (i, (w, snd s)).

#[export] Instance MonadPy_Run : MonadPy Run := {
  mret := @run_ret;
  mbind := @run_bind;
  mraise := @run_raise;
  np_random_choice := run_choice
}.

Definition call_set_task (t : task) : Run unit :=
  fun s => ok (tt, (ctrl_set_task t (fst s), snd s ++ [EvSetTask t])).

Definition call_reset (t : task) : Run (list Q) :=
  fun s => let '(w, st) := env_reset t (fst s) in
           ok (st, (w, snd s ++ [EvReset t])).

Definition call_plan (theta : net) (state : list Q) (new_theta : option dict)
    : Run ndarray :=
  fun s => let '(w, a) := ctrl_plan theta state new_theta (fst s) in
           ok (a, (w, snd s ++ [EvPlan theta state new_theta])).

Definition call_step (t : task) (action : ndarray) : Run (list Q * Q * bool) :=
  fun s => let '(w, r) := env_step t action (fst s) in
           ok (r, (w, snd s ++ [EvStep t action (snd (fst r)) (snd r)])).

Definition call_shuffle {A} (l : list A) : Run (list A) :=
  fun s => let '(w, l') := rng_shuffle A l (fst s) in ok (l', (w, snd s)).

Definition call_set_seed (seed : Z) : Run unit :=
  fun s => ok (tt, (set_seed seed (fst s), snd s)).

(** ** The [MBMRL] object *)

(** The constructor's keyword arguments (all but [tasks], [model],
    [controller] and [logger]); integers are given as integers. *)
Record Config : Type := mkConfig {
  seed : Z;
  iteration_num : Z;
  task_sample_num : Z;
  task_sample_frequency : Z;
  eval_frequency : Z;
  eval_sample_num : Z;
  rollout_len : Z;
  rollout_num : Z;
  adaptation_update_num : Z;
  M : Z;
  K : Z;
  beta : Q;
  eta : Q;
  phi_init : Q;
  dataset_size : Z;
  pred_std : Q;
  loss_type : string;
  loss_scale : Q;
  num_threads : Z
}.

Record Stats : Type := mkStats {
  _n_task_steps_total : Z;
  _n_model_steps_total : Z;
  _n_rollouts_total : Z;
  _time_total : Q;
  _time_total_prev : Q
}.

Record MBMRL : Type := mkMBMRL {
  cfg : Config;
  tasks : list task;
  dataset : deque rollout_t;
  theta : net;
  meta_optimizer : optimizer;
  phi : ptensor;
  lr_optimizer : optimizer;
  theta_loss : option scalar;
  eval_rewards : list Q;
  stats : Stats
}.

Definition set_stats (f : Stats -> Stats) (self : MBMRL) : MBMRL :=
  mkMBMRL self.(cfg) self.(tasks) self.(dataset) self.(theta)
    self.(meta_optimizer) self.(phi) self.(lr_optimizer) self.(theta_loss)
    self.(eval_rewards) (f self.(stats)).

Definition set_dataset (d : deque rollout_t) (self : MBMRL) : MBMRL :=
  mkMBMRL self.(cfg) self.(tasks) d self.(theta)
    self.(meta_optimizer) self.(phi) self.(lr_optimizer) self.(theta_loss)
    self.(eval_rewards) self.(stats).

Definition set_theta_loss (l : scalar) (self : MBMRL) : MBMRL :=
  mkMBMRL self.(cfg) self.(tasks) self.(dataset) self.(theta)
    self.(meta_optimizer) self.(phi) self.(lr_optimizer) (Some l)
    self.(eval_rewards) self.(stats).

Definition set_eval_rewards (r : list Q) (self : MBMRL) : MBMRL :=
  mkMBMRL self.(cfg) self.(tasks) self.(dataset) self.(theta)
    self.(meta_optimizer) self.(phi) self.(lr_optimizer) self.(theta_loss)
    r self.(stats).

Definition set_learner (th : net) (mo : optimizer) (ph : ptensor)
    (lo : optimizer) (self : MBMRL) : MBMRL :=
  mkMBMRL self.(cfg) self.(tasks) self.(dataset) th mo ph lo
    self.(theta_loss) self.(eval_rewards) self.(stats).

Definition add_task_steps (n : Z) (s : Stats) : Stats :=
  mkStats (s.(_n_task_steps_total) + n) s.(_n_model_steps_total)
    s.(_n_rollouts_total) s.(_time_total) s.(_time_total_prev).

Definition add_model_steps (n : Z) (s : Stats) : Stats :=
  mkStats s.(_n_task_steps_total) (s.(_n_model_steps_total) + n)
    s.(_n_rollouts_total) s.(_time_total) s.(_time_total_prev).

Definition add_rollouts (n : Z) (s : Stats) : Stats :=
  mkStats s.(_n_task_steps_total) s.(_n_model_steps_total)
    (s.(_n_rollouts_total) + n) s.(_time_total) s.(_time_total_prev).

Definition set_time_total (t : Q) (s : Stats) : Stats :=
  mkStats s.(_n_task_steps_total) s.(_n_model_steps_total)
    s.(_n_rollouts_total) t s.(_time_total_prev).

(** [MBMRL.__init__]. The loss kind is stored as it comes. *)
Definition __init__ (tasks : list task) (model : net) (c : Config)
    : Run MBMRL :=
  _ <~ call_set_seed c.(seed) ;;
  dataset <~ mlift (deque_new c.(dataset_size)) ;;
  meta_optimizer <~ mlift (adam (parameters model) c.(beta)) ;;
  let phi := tensor_of_float c.(phi_init) in
  lr_optimizer <~ mlift (adam [phi] c.(eta)) ;;
  mret (mkMBMRL c tasks dataset model meta_optimizer phi lr_optimizer
          None [] (mkStats 0 0 0 0%Q 0%Q)).

(** ** The adaptation engine *)

(** [MBMRL._compute_adaptation_loss(theta, traj, new_theta)]. *)
Definition _compute_adaptation_loss (self : MBMRL) (theta : net)
    (traj : rollout_t) (new_theta : option dict) : result (scalar * MBMRL) :=
  '(state, action, next_state) <- unpack3 traj ;;
  pred_next_state <- predict_next theta new_theta state action ;;
  c <- py_div self.(cfg).(loss_scale) (len state) ;;
  l <- loss_func self.(cfg).(loss_type) pred_next_state next_state
         self.(cfg).(pred_std) ;;
  ok (scale c l, set_stats (add_model_steps 1) self).

(** [for _ in range(self.adaptation_update_num): ...] of
    [_adaptation_update]. *)
Fixpoint adaptation_inner_loop (n : nat) (self : MBMRL) (theta : net)
    (traj : rollout_t) (new_theta_params new_theta_dict : dict)
    : result (dict * dict * MBMRL) :=
  match n with
  | O => ok (new_theta_params, new_theta_dict, self)
  | S n' =>
      '(new_loss, self) <-
        _compute_adaptation_loss self theta traj (Some new_theta_dict) ;;
      let d_theta := autograd_grad true new_loss (map snd new_theta_params) in
      let '(new_theta_params, new_theta_dict) :=
        descend_all theta self.(phi) d_theta
          (new_theta_params, new_theta_dict) in
      adaptation_inner_loop n' self theta traj new_theta_params new_theta_dict
  end.

(** [MBMRL._adaptation_update(theta, traj)]. *)
Definition _adaptation_update (self : MBMRL) (theta : net) (traj : rollout_t)
    : result (option dict * MBMRL) :=
  match traj with
  | [] => ok (None, self)
  | _ =>
      '(loss, self) <- _compute_adaptation_loss self theta traj None ;;
      let d_theta := autograd_grad false loss (parameters theta) in
      let new_theta_dict := clone_state_dict theta in
      let '(new_theta_params, new_theta_dict) :=
        descend_all theta self.(phi) d_theta ([], new_theta_dict) in
      '(_, new_theta_dict, self) <-
        adaptation_inner_loop (range_len self.(cfg).(adaptation_update_num))
          self theta traj new_theta_params new_theta_dict ;;
      ok (Some new_theta_dict, self)
  end.

(** [MBMRL._meta_update(meta_loss)]. *)
Definition _meta_update (self : MBMRL) (meta_loss : scalar) : MBMRL :=
  let '(g_theta, g_phi) := backward meta_loss self.(theta) self.(phi) in
  let '(mo, new_params) :=
    adam_step self.(meta_optimizer) (parameters self.(theta)) g_theta in
  let '(lo, new_phi) := adam_step self.(lr_optimizer) [self.(phi)] [g_phi] in
  set_learner (with_parameters self.(theta) new_params) mo
    (hd self.(phi) new_phi) lo self.

(** ** Trajectory collection *)

(** The locals of the serial [while t < self.rollout_len] loop:
    [self], [rollout], [state], [t]. *)
Definition locals : Type := (MBMRL * rollout_t * list Q * Z)%type.

(** One pass through the body of the serial [while] loop. *)
Definition collect_step (tk : task) (st : locals) : Run locals :=
  let '(self, rollout, state, t) := st in
  let past_traj := trailing_window self.(cfg).(M) rollout in
  ' (new_theta_dict, self) <~
    mlift (_adaptation_update self self.(theta) past_traj) ;;
  action <~ call_plan self.(theta) state new_theta_dict ;;
  ' (next_state, _, done) <~ call_step tk action ;;
  rollout <~
    mlift (_aggregate_rollout rollout state (action_row action) next_state) ;;
  let state := next_state in
  let t := t + 1 in
  let self := set_stats (add_task_steps 1) self in
  if (done : bool)
  then (state <~ call_reset tk ;; mret (self, rollout, state, t))
  else mret (self, rollout, state, t).

(** [while t < self.rollout_len: ...]. *)
Fixpoint collect_while (fuel : nat) (tk : task) (st : locals) : Run locals :=
  let '(self, _, _, t) := st in
  if t <? self.(cfg).(rollout_len) then
    match fuel with
    | O => mraise OutOfFuel
    | S fuel' => st' <~ collect_step tk st ;; collect_while fuel' tk st'
    end
  else mret st.

(** [for _ in range(self.rollout_num): ...; rollouts.append(rollout)]. *)
Fixpoint collect_rollouts (n : nat) (tk : task) (self : MBMRL)
    (state : list Q) (rollouts : list rollout_t)
    : Run (MBMRL * list Q * list rollout_t) :=
  match n with
  | O => mret (self, state, rollouts)
  | S n' =>
      ' (self, rollout, state, _) <~
        collect_while (range_len self.(cfg).(rollout_len)) tk
          (self, [], state, 0) ;;
      collect_rollouts n' tk self state (rollouts ++ [rollout])
  end.

(** [MBMRL._collect_traj_serial(task)]. *)
Definition _collect_traj_serial (self : MBMRL) (tk : task)
    : Run (list rollout_t * MBMRL) :=
  _ <~ call_set_task tk ;;
  state <~ call_reset tk ;;
  ' (self, _, rollouts) <~
    collect_rollouts (range_len self.(cfg).(rollout_num)) tk self state [] ;;
  mret (rollouts, self).

(** The arguments of [_collect_traj_per_thread] that stay fixed. *)
Record worker_args : Type := mkWorkerArgs {
  wa_task : task;
  wa_theta : net;
  wa_rollout_len : Z;
  wa_M : Z;
  wa_phi : ptensor;
  wa_adaptation_update_num : Z;
  wa_loss_type : string;
  wa_loss_scale : Q;
  wa_pred_std : Q
}.

(** The locals of the worker's [while] loop: [rollout], [state], [t],
    [_n_model_steps_total], [_n_task_steps_total]. *)
Definition worker_locals : Type := (rollout_t * list Q * Z * Z * Z)%type.

(** One pass through the body of the worker's [while] loop. *)
Definition worker_step (a : worker_args) (st : worker_locals)
    : Run worker_locals :=
  let '(rollout, state, t, n_model, n_task) := st in
  let past_traj := trailing_window a.(wa_M) rollout in
  ' (new_theta_dict, n_model) <~
    mlift (worker_adaptation a.(wa_theta) past_traj a.(wa_phi)
             a.(wa_adaptation_update_num) a.(wa_loss_type) a.(wa_loss_scale)
             a.(wa_pred_std) n_model) ;;
  action <~ call_plan a.(wa_theta) state new_theta_dict ;;
  ' (next_state, _, done) <~ call_step a.(wa_task) action ;;
  rollout <~
    mlift (_aggregate_rollout rollout state (action_row action) next_state) ;;
  let state := next_state in
  let t := t + 1 in
  let n_task := n_task + 1 in
  if (done : bool)
  then (state <~ call_reset a.(wa_task) ;;
        mret (rollout, state, t, n_model, n_task))
  else mret (rollout, state, t, n_model, n_task).

Fixpoint worker_while (fuel : nat) (a : worker_args) (st : worker_locals)
    : Run worker_locals :=
  let '(_, _, t, _, _) := st in
  if t <? a.(wa_rollout_len) then
    match fuel with
    | O => mraise OutOfFuel
    | S fuel' => st' <~ worker_step a st ;; worker_while fuel' a st'
    end
  else mret st.

Fixpoint worker_rollouts (n : nat) (a : worker_args) (state : list Q)
    (n_model n_task : Z) (rollouts : list rollout_t)
    : Run (list rollout_t * Z * Z) :=
  match n with
  | O => mret (rollouts, n_model, n_task)
  | S n' =>
      ' (rollout, state, _, n_model, n_task) <~
        worker_while (range_len a.(wa_rollout_len)) a
          ([], state, 0, n_model, n_task) ;;
      worker_rollouts n' a state n_model n_task (rollouts ++ [rollout])
  end.

(** [_collect_traj_per_thread(pid, queue, task, controller, theta,
    rollout_num, ...)]: the message it puts on the queue (or returns). *)
Definition _collect_traj_per_thread (pid : nat) (a : worker_args)
    (rollout_num : Z) : Run (list rollout_t * Z * Z) :=
  state <~ call_reset a.(wa_task) ;;
  _ <~ call_set_task a.(wa_task) ;;
  worker_rollouts (range_len rollout_num) a state 0 0 [].

(** *** Worker processes *)

(** [mp.Process(target=..., args=...).start()]: the child runs [target] on
    its own copy of the world and puts its message on the queue, unless it
    dies of an exception. *)
Definition start_process {A} (pid : nat) (target : Run A) : Run (result A) :=
  fun s =>
    ok (match target (spawn pid (fst s), []) with
        | inl e => inl e
        | inr (a, _) => inr a
        end,
        (fst s, snd s ++ [EvProcessStart pid])).

(** [for worker in workers: worker.start()]. *)
Fixpoint start_all {A} (workers : list (nat * Run A)) : Run (list (result A)) :=
  match workers with
  | [] => mret []
  | (pid, target) :: rest =>
      m <~ start_process pid target ;;
      ms <~ start_all rest ;;
      mret (m :: ms)
  end.

Fixpoint all_ok {A} (l : list (result A)) : option (list A) :=
  match l with
  | [] => Some []
  | inl _ :: _ => None
  | inr a :: l' => option_map (cons a) (all_ok l')
  end.

(** [for _ in workers: queue.get()]: one message per started worker, in the
    order of arrival; with a dead worker the parent waits for ever. *)
Definition queue_get_all {A} (msgs : list (result A)) : Run (list A) :=
  fun s =>
    match all_ok msgs with
    | None => throw WorkerCrash
    | Some l => ok (queue_order A (fst s) l, s)
    end.

(** [np.full(num_threads, rollout_num // num_threads)] with the first
    [rollout_num % num_threads] entries incremented. *)
Definition rollout_nums (rollout_num num_threads : Z) : list Z :=
  map (fun pid : nat =>
         rollout_num / num_threads
         + (if Z.of_nat pid <? rollout_num mod num_threads then 1 else 0))
      (seq 0 (range_len num_threads)).

Definition worker_args_of (self : MBMRL) (tk : task) : worker_args :=
  mkWorkerArgs tk self.(theta) self.(cfg).(rollout_len) self.(cfg).(M)
    self.(phi) self.(cfg).(adaptation_update_num) self.(cfg).(loss_type)
    self.(cfg).(loss_scale) self.(cfg).(pred_std).

(** [MBMRL._collect_traj_parallel(task)]. *)
Definition _collect_traj_parallel (self : MBMRL) (tk : task)
    : Run (list rollout_t * MBMRL) :=
  let nt := self.(cfg).(num_threads) in
  if nt =? 0 then mraise ZeroDivisionError
  else if nt <? 0 then mraise ValueError
  else
    let nums := rollout_nums self.(cfg).(rollout_num) nt in
    let workers :=
      filter (fun pn : nat * Z => 0 <? snd pn)
             (combine (seq 0 (length nums)) nums) in
    msgs <~ start_all
              (map (fun pn : nat * Z =>
                      (fst pn,
                       _collect_traj_per_thread (fst pn)
                         (worker_args_of self tk) (snd pn)))
                   workers) ;;
    msgs <~ queue_get_all msgs ;;
    let '(rollouts, self) :=
      fold_left
        (fun (acc : list rollout_t * MBMRL) (m : list rollout_t * Z * Z) =>
           let '(rollouts_per_thread, n_model, n_task) := m in
           (fst acc ++ rollouts_per_thread,
            set_stats (add_task_steps n_task)
              (set_stats (add_model_steps n_model) (snd acc))))
        msgs ([], self) in
    mret (rollouts, self).

(** [MBMRL._collect_traj(task)]. *)
Definition _collect_traj (self : MBMRL) (tk : task)
    : Run (list rollout_t * MBMRL) :=
  if self.(cfg).(num_threads) >? 1
  then _collect_traj_parallel self tk
  else _collect_traj_serial self tk.

(** ** Sampling *)

Section Sampling.

Context {Mo : Type -> Type} {MP : MonadPy Mo}.

(** [np.random.choice(len(rollout[0]) + 1 - self.M - self.K)]. *)
Definition draw_start_idx (self : MBMRL) (rollout : rollout_t) : Mo Z :=
  r0 <~ mlift (py_index rollout 0) ;;
  np_random_choice (len r0 + 1 - self.(cfg).(M) - self.(cfg).(K)).

(** The body of [for _ in range(num)] up to the slicing of [traj]. *)
Definition sample_window (self : MBMRL) : Mo rollout_t :=
  i <~ np_random_choice (deque_len self.(dataset)) ;;
  rollout <~ mlift (py_index (items self.(dataset)) i) ;;
  start_idx <~ draw_start_idx self rollout ;;
  let end_idx := start_idx + self.(cfg).(M) + self.(cfg).(K) in
  mret (map (py_slice (Some start_idx) (Some end_idx)) rollout).

(** [trajs = traj] or the three concatenations. *)
Definition cat_trajs (trajs traj : rollout_t) : result rollout_t :=
  match trajs with
  | [] => ok traj
  | _ =>
      a0 <- py_index trajs 0 ;; b0 <- py_index traj 0 ;;
      a1 <- py_index trajs 1 ;; b1 <- py_index traj 1 ;;
      a2 <- py_index trajs 2 ;; b2 <- py_index traj 2 ;;
      ok [a0 ++ b0; a1 ++ b1; a2 ++ b2]
  end.

Fixpoint sample_loop (n : nat) (self : MBMRL) (trajs : rollout_t)
    : Mo rollout_t :=
  match n with
  | O => mret trajs
  | S n' =>
      traj <~ sample_window self ;;
      trajs <~ mlift (cat_trajs trajs traj) ;;
      sample_loop n' self trajs
  end.

(** [MBMRL._sample_traj(num=1)]. *)
Definition _sample_traj (self : MBMRL) (num : Z) : Mo rollout_t :=
  sample_loop (range_len num) self [].

(** [MBMRL._sample_task()]. *)
Definition _sample_task (self : MBMRL) : Mo task :=
  i <~ np_random_choice (len self.(tasks)) ;;
  mlift (py_index self.(tasks) i).

End Sampling.

(** ** Evaluation *)

(** [while not done: action = plan(theta, state); state, reward, done, _ =
    task.step(action); reward_sum += reward], entered with [done = False].
    [fuel] bounds the number of passes. *)
Fixpoint episode_loop (fuel : nat) (tk : task) (theta : net)
    (state : list Q) (reward_sum : Q) : Run Q :=
  match fuel with
  | O => mraise OutOfFuel
  | S fuel' =>
      action <~ call_plan theta state None ;;
      ' (state, reward, done) <~ call_step tk action ;;
      let reward_sum := (reward_sum + reward)%Q in
      if (done : bool) then mret reward_sum
      else episode_loop fuel' tk theta state reward_sum
  end.

(** [for task in tasks: ...] of [_evaluate_per_thread]. *)
Fixpoint eval_tasks_per_thread (fuel : nat) (tks : list task) (theta : net)
    (rewards : list Q) : Run (list Q) :=
  match tks with
  | [] => mret rewards
  | tk :: rest =>
      _ <~ call_set_task tk ;;
      state <~ call_reset tk ;;
      reward_sum <~ episode_loop fuel tk theta state 0%Q ;;
      eval_tasks_per_thread fuel rest theta (rewards ++ [reward_sum])
  end.

(** [_evaluate_per_thread(queue, tasks, controller, theta)]. *)
Definition _evaluate_per_thread (fuel : nat) (tks : list task) (theta : net)
    : Run (list Q) :=
  eval_tasks_per_thread fuel tks theta [].

(** [MBMRL._evaluate_parallel()]. *)
Definition _evaluate_parallel (fuel : nat) (self : MBMRL) : Run (list Q) :=
  msgs <~ start_all
            (map (fun k : nat =>
                    (k, _evaluate_per_thread fuel self.(tasks) self.(theta)))
                 (seq 0 (range_len self.(cfg).(eval_sample_num)))) ;;
  mean_rewards <~ queue_get_all msgs ;;
  mret (map np_mean mean_rewards).

(** [for _ in range(5): ...] of [_evaluate_serial]. *)
Fixpoint eval_episodes (n : nat) (fuel : nat) (tk : task) (theta : net)
    (rewards : list Q) : Run (list Q) :=
  match n with
  | O => mret rewards
  | S n' =>
      state <~ call_reset tk ;;
      reward_sum <~ episode_loop fuel tk theta state 0%Q ;;
      eval_episodes n' fuel tk theta (rewards ++ [reward_sum])
  end.

(** [for task in self.tasks: ...] of [_evaluate_serial]; the second
    component collects each task's [rewards] list. *)
Fixpoint eval_tasks_serial (fuel : nat) (tks : list task) (theta : net)
    (mean_rewards : list Q) (all_rewards : list (list Q))
    : Run (list Q * list (list Q)) :=
  match tks with
  | [] => mret (mean_rewards, all_rewards)
  | tk :: rest =>
      _ <~ call_set_task tk ;;
      rewards <~ eval_episodes (range_len 5) fuel tk theta [] ;;
      eval_tasks_serial fuel rest theta (mean_rewards ++ [np_mean rewards])
        (all_rewards ++ [rewards])
  end.

(** [MBMRL._evaluate_serial()]. *)
Definition _evaluate_serial (fuel : nat) (self : MBMRL) : Run (list Q) :=
  ' (mean_rewards, _) <~
    eval_tasks_serial fuel self.(tasks) self.(theta) [] [] ;;
  mret mean_rewards.

(** [MBMRL.evaluate()]. *)
Definition evaluate (fuel : nat) (self : MBMRL) : Run (list Q * MBMRL) :=
  mean_rewards <~
    (if (self.(cfg).(num_threads) >? 1) && (self.(cfg).(eval_sample_num) >? 1)
     then _evaluate_parallel fuel self
     else _evaluate_serial fuel self) ;;
  mret (mean_rewards, set_eval_rewards mean_rewards self).

(** ** The training loops *)

(** [a % b] on Python integers. *)
Definition py_mod (a b : Z) : result Z :=
  if b =? 0 then throw ZeroDivisionError else ok (a mod b).

(** One sample of the meta-update, from the drawn [traj] on:
    [new_theta_dict = self._adaptation_update(self.theta,
                                              [t[:self.M] for t in traj])
     new_loss = self._compute_adaptation_loss(self.theta,
                        [t[:self.M] for t in traj], new_theta_dict)]. *)
Definition post_adaptation_loss (self : MBMRL) (traj : rollout_t)
    : result (scalar * MBMRL) :=
  ' (new_theta_dict, self) <-
    _adaptation_update self self.(theta)
      (adaptation_window self.(cfg).(M) traj) ;;
  _compute_adaptation_loss self self.(theta)
    (adaptation_window self.(cfg).(M) traj) new_theta_dict.

(** [for _ in range(self.task_sample_num): ...; new_losses.append(new_loss)]:
    the same statements in [debug] (lines 409-413) and [train]
    (lines 441-448). *)
Fixpoint meta_losses (n : nat) (self : MBMRL) (new_losses : list scalar)
    : Run (list scalar * MBMRL) :=
  match n with
  | O => mret (new_losses, self)
  | S n' =>
      traj <~ _sample_traj self 1 ;;
      ' (new_loss, self) <~ mlift (post_adaptation_loss self traj) ;;
      meta_losses n' self (new_losses ++ [new_loss])
  end.

(** [torch.mean(torch.stack(new_losses))]; stacking nothing is an error. *)
Definition theta_loss_of (new_losses : list scalar) : result scalar :=
  match new_losses with
  | [] => throw RuntimeError
  | _ => ok (mean_stack new_losses)
  end.

(** [self.dataset.extend(rollouts); np.random.shuffle(self.dataset)]. *)
Definition extend_and_shuffle (self : MBMRL) (rollouts : list rollout_t)
    : Run MBMRL :=
  let d := deque_extend self.(dataset) rollouts in
  l <~ call_shuffle (items d) ;;
  mret (set_dataset (mkDeque (maxlen d) l) self).

(** The body of the [for] loop of [MBMRL.debug()] (printing left out). *)
Definition debug_iter (fuel : nat) (i : Z) (self : MBMRL) : Run MBMRL :=
  r <~ mlift (py_mod i self.(cfg).(task_sample_frequency)) ;;
  self <~
    (if r =? 0 then
       tk <~ _sample_task self ;;
       ' (rollouts, self) <~ _collect_traj self tk ;;
       extend_and_shuffle self rollouts
     else mret self) ;;
  ' (new_losses, self) <~
    meta_losses (range_len self.(cfg).(task_sample_num)) self [] ;;
  l <~ mlift (theta_loss_of new_losses) ;;
  let self := set_theta_loss l self in
  let self := _meta_update self l in
  r <~ mlift (py_mod i self.(cfg).(eval_frequency)) ;;
  if r =? 0 then (' (_, self) <~ evaluate fuel self ;; mret self)
  else mret self.

(** [self._record_stats()] as far as it changes the object. *)
Definition _record_stats (self : MBMRL) : Run MBMRL :=
  fun s =>
    ok (set_stats
          (fun st =>
             set_time_total (gt_total (fst s) + st.(_time_total_prev))%Q st)
          self, s).

(** The body of the [for] loop of [MBMRL.train()]; the logger and the
    timer stamps only write to the log and the checkpoint store. *)
Definition train_iter (fuel : nat) (i : Z) (self : MBMRL) : Run MBMRL :=
  r <~ mlift (py_mod i self.(cfg).(task_sample_frequency)) ;;
  self <~
    (if r =? 0 then
       tk <~ _sample_task self ;;
       ' (rollouts, self) <~ _collect_traj self tk ;;
       let self := set_stats (add_rollouts 1) self in
       extend_and_shuffle self rollouts
     else mret self) ;;
  ' (new_losses, self) <~
    meta_losses (range_len self.(cfg).(task_sample_num)) self [] ;;
  l <~ mlift (theta_loss_of new_losses) ;;
  let self := set_theta_loss l self in
  let self := _meta_update self l in
  r <~ mlift (py_mod i self.(cfg).(eval_frequency)) ;;
  self <~
    (if r =? 0 then (' (_, self) <~ evaluate fuel self ;; mret self)
     else mret self) ;;
  _record_stats self.

(** [for i in range(start, start + n)]. *)
Fixpoint iterate (body : Z -> MBMRL -> Run MBMRL) (n : nat) (i : Z)
    (self : MBMRL) : Run MBMRL :=
  match n with
  | O => mret self
  | S n' => self <~ body i self ;; iterate body n' (i + 1) self
  end.

(** [MBMRL.debug()]. *)
Definition debug (fuel : nat) (self : MBMRL) : Run MBMRL :=
  iterate (debug_iter fuel) (range_len self.(cfg).(iteration_num)) 0 self.

(** [MBMRL.train(resume=False)]. *)
Definition train (fuel : nat) (self : MBMRL) : Run MBMRL :=
  iterate (train_iter fuel) (range_len self.(cfg).(iteration_num)) 0 self.

End Agent.

Arguments event {T W}.
Arguments Run {T W} A.
Arguments MBMRL {T W}.

(** ** A small instance

    A one-weight linear model [s' = s + w * a] with the mean-squared-error
    loss, tensors carried with their derivative in [w]; a task whose true
    dynamics is [s' = s + 2 * a], whose reward is the action and whose
    episodes last three steps; a controller that plays the model's weight. *)

Module Toy.

Definition weight_of (th : Q) (new : option (list (string * Q))) : Q :=
  match new with
  | Some ((_, w) :: _) => w
  | _ => th
  end.

Definition toy_predict (th : Q) (new : option (list (string * Q)))
    (st ac : tensor) : result (list (Q * Q)) :=
  if (length st =? length ac)%nat then
    ok (map (fun sa : list Q * list Q =>
               let s := hd 0%Q (fst sa) in
               let a := hd 0%Q (snd sa) in
               (s + weight_of th new * a, a)%Q)
            (combine st ac))
  else throw RuntimeError.

(** The only loss kind this instance knows is ["mse"]. *)
Definition toy_loss (kind : string) (p : list (Q * Q)) (next_st : tensor)
    (std : Q) : result (Q * Q) :=
  if String.eqb kind "mse" then
    let rows := combine p next_st in
    let n := inject_Z (Z.of_nat (length rows)) in
    ok (Qred (Qsum (map (fun r : (Q * Q) * list Q =>
                     let e := (fst (fst r) - hd 0 (snd r))%Q in (e * e)%Q)
                  rows) / n),
        Qred (Qsum (map (fun r : (Q * Q) * list Q =>
                     let e := (fst (fst r) - hd 0 (snd r))%Q in
                     (2 * e * snd (fst r))%Q)
                  rows) / n))%Q
  else throw ValueError.

#[export] Instance toy_torch : Torch := {
  net := Q;
  ptensor := Q;
  pred := list (Q * Q);
  scalar := (Q * Q)%type;
  optimizer := Q;
  named_parameters := fun th => [("w"%string, th)];
  state_dict := fun th => [("w"%string, th)];
  predict_next := toy_predict;
  loss_func := toy_loss;
  scale := fun c l => (Qred (c * fst l), Qred (c * snd l));
  autograd_grad := fun _ l wrt => map (fun _ => snd l) wrt;
  descend := fun val phi d => Qred (val - phi * d);
  mean_stack := fun ls =>
    (Qred (np_mean (map fst ls)), Qred (np_mean (map snd ls)));
  tensor_of_float := fun x => x;
  adam := fun _ lr => ok lr;
  backward := fun l _ _ => ([snd l], 0%Q);
  adam_step := fun lr ps gs =>
    (lr, map (fun pg : Q * Q => Qred (fst pg - lr * snd pg)) (combine ps gs));
  with_parameters := fun th ps => hd th ps
}.

Definition action_value (a : ndarray) : Q :=
  match a with
  | Scalar x => x
  | Array1 v => hd 0%Q v
  end.

(** The world: the task's position and the number of steps of the running
    episode. *)
#[export] Instance toy_world : World := {
  world := (Q * nat)%type;
  task := unit;
  set_seed := fun _ w => w;
  env_reset := fun _ _ => ((0%Q, O), [0%Q]);
  env_step := fun _ a w =>
    let pos := Qred (fst w + 2 * action_value a) in
    ((pos, S (snd w)), ([pos], action_value a, (3 <=? S (snd w))%nat));
  ctrl_set_task := fun _ w => w;
  ctrl_plan := fun th _ new w => (w, Scalar (weight_of th new));
  rng_choice := fun _ w => (w, 0);
  rng_shuffle := fun _ l w => (w, l);
  spawn := fun _ w => w;
  queue_order := fun _ _ l => l;
  gt_total := fun w => inject_Z (Z.of_nat (snd w))
}.

Definition toy_config : Config := {|
  seed := 0; iteration_num := 2; task_sample_num := 1;
  task_sample_frequency := 1; eval_frequency := 1; eval_sample_num := 1;
  rollout_len := 5; rollout_num := 3; adaptation_update_num := 1;
  M := 2; K := 1; beta := 1 # 10; eta := 1 # 10; phi_init := 1 # 4;
  dataset_size := 2; pred_std := 1; loss_type := "mse"; loss_scale := 1;
  num_threads := 1
|}.

(** [MBMRL(...)] on the instance: one task, the weight starting at 1. *)
Definition toy_agent (c : Config) : MBMRL :=
  mkMBMRL c [tt] (mkDeque (Z.to_nat c.(dataset_size)) []) 1%Q c.(beta)
    c.(phi_init) c.(eta) None [] (mkStats 0 0 0 0%Q 0%Q).

Definition toy_start : world * list event := ((0%Q, O), []).

End Toy.

(** ** Vocabulary of the statements *)


(** A rollout holding [k] transitions. *)
Definition rollout_of_len (k : nat) (r : rollout_t) : Prop :=
  match k with
  | O => r = []
  | S _ => exists st ac nx,
      r = [st; ac; nx] /\ length st = k /\ length ac = k /\ length nx = k
  end.

(** Three tensors with the same, non-zero, number of rows. *)
Definition window_ok (traj : rollout_t) : Prop :=
  exists st ac nx,
    traj = [st; ac; nx] /\ length st = length ac /\
    length nx = length st /\ st <> [].

(** Three sequences of [L] rows each. *)
Definition full_rollout (L : Z) (r : rollout_t) : Prop :=
  exists states actions next_states,
    r = [states; actions; next_states] /\
    len states = L /\ len actions = L /\ len next_states = L.

(** One pass of the evaluation loop: the state planned from, the action,
    the reward and the [done] flag. *)
Definition eval_step : Type := (list Q * ndarray * Q * bool)%type.

Definition step_reward (x : eval_step) : Q := snd (fst x).
Definition step_done (x : eval_step) : bool := snd x.

Section Vocabulary.

Context {T : Torch} {W : World}.

(** The fields other than the counters are the same. *)
Definition same_but_stats (self self' : MBMRL) : Prop :=
  exists f, self' = set_stats f self.

(** The first [n] passes through the body of the serial [while] loop. *)
Fixpoint collect_steps (n : nat) (tk : task) (st : locals) : Run locals :=
  match n with
  | O => run_ret st
  | S n' => run_bind (collect_step tk st) (collect_steps n' tk)
  end.

(** The first [n] passes through the body of the worker's [while] loop. *)
Fixpoint worker_steps (n : nat) (a : worker_args) (st : worker_locals)
    : Run worker_locals :=
  match n with
  | O => run_ret st
  | S n' => run_bind (worker_step a st) (worker_steps n' a)
  end.

(** The calls an episode makes: plan with the base parameters (no overlay),
    then step. *)
Definition episode_events (tk : task) (th : net) (steps : list eval_step)
    : list event :=
  flat_map
    (fun x : eval_step =>
       let '(st, a, r, d) := x in [EvPlan th st None; EvStep tk a r d])
    steps.

Definition is_reset (e : event) : bool :=
  match e with EvReset _ => true | _ => false end.

Definition is_process_start (e : event) : bool :=
  match e with EvProcessStart _ => true | _ => false end.

(** The controller was given no specialised parameters. *)
Definition unadapted (e : event) : Prop :=
  match e with EvPlan _ _ (Some _) => False | _ => True end.

Definition count (f : event -> bool) (h : list event) : nat :=
  length (filter f h).

(** A stretch of history made of resets and unadapted episodes only. *)
Definition evaluation_history (resets : nat) (h : list event) : Prop :=
  count is_reset h = resets /\ count is_process_start h = O /\
  Forall unadapted h.

(** [f] applied to the value a run returns. *)
Definition run_map {A B} (f : A -> B)
    (r : result (A * (world * list event)))
    : result (B * (world * list event)) :=
  match r with
  | inl e => inl e
  | inr (a, s) => inr (f a, s)
  end.

(** The collection phase of [debug]. *)
Definition debug_collection (i : Z) (self : MBMRL) : Run MBMRL :=
  r <~ mlift (py_mod i (task_sample_frequency (cfg self))) ;;
  if r =? 0 then
    tk <~ _sample_task self ;;
    ' (rollouts, self) <~ _collect_traj self tk ;;
    extend_and_shuffle self rollouts
  else mret self.

(** What [debug] does after the collection phase. *)
Definition debug_tail (fuel : nat) (i : Z) (self : MBMRL) : Run MBMRL :=
  ' (new_losses, self) <~
    meta_losses (range_len (task_sample_num (cfg self))) self [] ;;
  l <~ mlift (theta_loss_of new_losses) ;;
  let self := set_theta_loss l self in
  let self := _meta_update self l in
  r <~ mlift (py_mod i (eval_frequency (cfg self))) ;;
  if r =? 0 then (' (_, self) <~ evaluate fuel self ;; mret self)
  else mret self.

(** The collection phase of [train]. *)
Definition train_collection (i : Z) (self : MBMRL) : Run MBMRL :=
  r <~ mlift (py_mod i (task_sample_frequency (cfg self))) ;;
  if r =? 0 then
    tk <~ _sample_task self ;;
    ' (rollouts, self) <~ _collect_traj self tk ;;
    let self := set_stats (add_rollouts 1) self in
    extend_and_shuffle self rollouts
  else mret self.

(** What [train] does after the collection phase. *)
Definition train_tail (fuel : nat) (i : Z) (self : MBMRL) : Run MBMRL :=
  ' (new_losses, self) <~
    meta_losses (range_len (task_sample_num (cfg self))) self [] ;;
  l <~ mlift (theta_loss_of new_losses) ;;
  let self := set_theta_loss l self in
  let self := _meta_update self l in
  r <~ mlift (py_mod i (eval_frequency (cfg self))) ;;
  self <~
    (if r =? 0 then (' (_, self) <~ evaluate fuel self ;; mret self)
     else mret self) ;;
  _record_stats self.

(** Any change to [_n_rollouts_total] alone. *)
Variable change : Z -> Z.

Definition on_rollouts (st : Stats) : Stats :=
  mkStats (_n_task_steps_total st) (_n_model_steps_total st)
    (change (_n_rollouts_total st)) (_time_total st) (_time_total_prev st).

Definition touch (self : MBMRL) : MBMRL := set_stats on_rollouts self.

(** [touch] applied to the object a pure method returns. *)
Definition after {A} (r : result (A * MBMRL)) : result (A * MBMRL) :=
  match r with
  | inl e => inl e
  | inr (a, self) => inr (a, touch self)
  end.

Definition touch_locals (l : locals) : locals :=
  let '(self, r, st, t) := l in (touch self, r, st, t).

Definition touch_snd {A} (x : A * MBMRL) : A * MBMRL :=
  (fst x, touch (snd x)).

Definition touch_rollouts (x : MBMRL * list Q * list rollout_t)
    : MBMRL * list Q * list rollout_t :=
  let '(self, st, rs) := x in (touch self, st, rs).

End Vocabulary.

(** ** Reference definitions following the specification's words *)

Section SpecWords.

Context {T : Torch} {W : World}.

(** [[t[M:] for t in traj]]: the query window, the last [K] steps of a
    window of [M + K] steps. *)
Definition query_window (M : Z) (traj : rollout_t) : rollout_t :=
  map (py_slice (Some M) None) traj.

(** Following the spec's words (section 3, sampled window): the adapting
    gradient is computed on the first [M] steps, the post-adaptation loss on
    the [K]-step query window. *)
Definition spec_post_adaptation_loss (self : MBMRL) (traj : rollout_t)
    : result (scalar * MBMRL) :=
  ' (new_theta_dict, self) <-
    _adaptation_update self self.(theta)
      (adaptation_window self.(cfg).(M) traj) ;;
  _compute_adaptation_loss self self.(theta)
    (query_window self.(cfg).(M) traj) new_theta_dict.


(** The constructor's arguments with another loss kind. *)
Definition with_loss_type (k : string) (c : Config) : Config :=
  mkConfig c.(seed) c.(iteration_num) c.(task_sample_num)
    c.(task_sample_frequency) c.(eval_frequency) c.(eval_sample_num)
    c.(rollout_len) c.(rollout_num) c.(adaptation_update_num) c.(M) c.(K)
    c.(beta) c.(eta) c.(phi_init) c.(dataset_size) c.(pred_std) k
    c.(loss_scale) c.(num_threads).

Definition set_cfg (c : Config) (self : MBMRL) : MBMRL :=
  mkMBMRL c self.(tasks) self.(dataset) self.(theta) self.(meta_optimizer)
    self.(phi) self.(lr_optimizer) self.(theta_loss) self.(eval_rewards)
    self.(stats).

End SpecWords.

(** What a call returned, when it returned. *)
Definition returned {A B} (r : result (A * B)) : option A :=
  match r with
  | inr (a, _) => Some a
  | inl _ => None
  end.

(** The calls a run made, when it returned. *)
Definition history {T : Torch} {W : World} {A}
    (r : result (A * (world * list event))) : option (list event) :=
  match r with
  | inr (_, s) => Some (snd s)
  | inl _ => None
  end.

(** The three counters of the object a run returned: task steps, model
    steps, rollouts. *)
Definition counters {T : Torch} {W : World}
    (r : result (MBMRL * (world * list event))) : option (Z * Z * Z) :=
  option_map
    (fun self : MBMRL =>
       (_n_task_steps_total (stats self), _n_model_steps_total (stats self),
        _n_rollouts_total (stats self)))
    (returned r).

(** The exception a call raised, when it raised one. *)
Definition raised {A} (r : result A) : option exn :=
  match r with
  | inl e => Some e
  | inr _ => None
  end.

Module ToyData.

Import Toy.

(** Two windows of [M + K = 3] steps that differ in the last step only. *)
Definition traj_a : rollout_t :=
  [ [[0%Q]; [2%Q]; [4%Q]]; [[1%Q]; [1%Q]; [1%Q]]; [[2%Q]; [4%Q]; [6%Q]] ].

Definition traj_b : rollout_t :=
  [ [[0%Q]; [2%Q]; [4%Q]]; [[1%Q]; [1%Q]; [1%Q]]; [[2%Q]; [4%Q]; [9%Q]] ].

(** A trailing window of two transitions. *)
Definition window_2 : rollout_t :=
  [ [[0%Q]; [2%Q]]; [[1%Q]; [1%Q]]; [[2%Q]; [4%Q]] ].

Definition agent : MBMRL := toy_agent toy_config.

(** The same with two threads and two evaluation samples. *)
Definition parallel_agent : MBMRL :=
  toy_agent
    (mkConfig 0 2 1 1 1 2 5 3 1 2 1 (1 # 10) (1 # 10) (1 # 4) 2 1 "mse" 1 2).

(** Steps left in the running episode. *)
Definition toy_remaining (tk : unit) (w : Q * nat) : nat := 3 - snd w.

End ToyData.

(** ** Vocabulary of the further statements *)

(** The sum of a list of integers. *)
Definition Zsum (l : list Z) : Z := fold_right Z.add 0 l.

Section Counting.

Context {T : Torch} {W : World}.

(** The object with [task_steps] more task steps and [model_steps] more
    loss computations on its counters. *)
Definition counted (task_steps model_steps : Z) (self : MBMRL) : MBMRL :=
  set_stats (add_task_steps task_steps)
    (set_stats (add_model_steps model_steps) self).

(** The loss computations of one adaptation on a non-empty window: one for
    the first gradient and one per further update. *)
Definition adaptation_cost (adaptation_update_num : Z) : Z :=
  1 + Z.of_nat (range_len adaptation_update_num).

(** The loss computations of one pass of a collection loop that has
    [r] of its rollout already. *)
Definition step_cost (u : Z) (r : rollout_t) : Z :=
  match r with
  | [] => 0
  | _ => adaptation_cost u
  end.

(** The loss computations of one rollout of [rollout_len] steps: every step
    but the first adapts. *)
Definition rollout_cost (rollout_len adaptation_update_num : Z) : Z :=
  Z.max 0 (rollout_len - 1) * adaptation_cost adaptation_update_num.

End Counting.

(** One transition: state, action (as a row) and next state. *)
Definition transition : Type := (list Q * list Q * list Q)%type.

Definition tr_state (t : transition) : list Q := fst (fst t).
Definition tr_action (t : transition) : list Q := snd (fst t).
Definition tr_next_state (t : transition) : list Q := snd t.

(** [rollout = _aggregate_rollout(rollout, state, action, next_state)] for
    each transition in turn. *)
Fixpoint aggregate_all (ts : list transition) (rollout : rollout_t)
    : result rollout_t :=
  match ts with
  | [] => ok rollout
  | t :: ts' =>
      rollout <- _aggregate_rollout rollout (tr_state t) (tr_action t)
                   (tr_next_state t) ;;
      aggregate_all ts' rollout
  end.

(** The outcomes of a finite distribution, whatever their weights. *)
Definition outcomes {A} (d : Dist A) : list (result A) := map snd d.

(** [[r[i : i + n] for r in rollout]] for [0 <= i] and [0 <= n]. *)
Definition window_at (i n : Z) (rollout : rollout_t) : rollout_t :=
  map (fun r : tensor => firstn (Z.to_nat n) (skipn (Z.to_nat i) r)) rollout.

Section Accounting.

Context {T : Torch} {W : World}.

(** The loss computations of one sample of the meta-update: an adaptation
    and the loss that follows it. *)
Definition meta_cost (adaptation_update_num : Z) : Z :=
  adaptation_cost adaptation_update_num + 1.

(** How many of the [n] iterations from [i] on collect, with the sampling
    frequency [f]. *)
Fixpoint collections (f : Z) (n : nat) (i : Z) : Z :=
  match n with
  | O => 0
  | S n' => (if i mod f =? 0 then 1 else 0) + collections f n' (i + 1)
  end.

(** [self'] is [self] with the same configuration, tasks and dataset bound,
    and the three counters moved on by the given amounts. *)
Definition advanced (task_steps model_steps rollouts : Z)
    (self self' : MBMRL) : Prop :=
  cfg self' = cfg self /\ tasks self' = tasks self /\
  maxlen (dataset self') = maxlen (dataset self) /\
  _n_task_steps_total (stats self')
  = _n_task_steps_total (stats self) + task_steps /\
  _n_model_steps_total (stats self')
  = _n_model_steps_total (stats self) + model_steps /\
  _n_rollouts_total (stats self')
  = _n_rollouts_total (stats self) + rollouts.

End Accounting.

(** ** Checkpoints and [test] *)

(** What [_set_params] and [test] use of torch beside [Torch]: the state of
    the optimisers, and loading into the network. *)
Class TorchState {T : Torch} : Type := {
  (** An optimiser's [state_dict()]. *)
  opt_state : Type;
  optimizer_state_dict : optimizer -> opt_state;
  (** [optimizer.load_state_dict(d)]; a [ValueError] when it does not fit. *)
  optimizer_load_state_dict : optimizer -> opt_state -> result optimizer;
  (** [theta.load_state_dict(d)]: the network after the copy; a
      [RuntimeError] on missing or unexpected keys. *)
  load_state_dict : net -> dict -> result net;
  (** [theta.train()]. *)
  train_mode : net -> net
}.

Section Checkpoint.

Context {T : Torch} {W : World} {TS : TorchState}.

(** The values the checkpoint dictionaries hold. *)
Inductive pyval : Type :=
| PyInt (n : Z)
| PyFloat (x : Q)
| PyStateDict (d : dict)
| PyOptState (o : opt_state)
| PyTensor (p : ptensor)
| PyLoss (l : option scalar)
| PyDataset (d : deque rollout_t).

(** A Python [dict] with string keys, in insertion order. *)
Definition pydict : Type := list (string * pyval).

(** What reading a checkpoint can raise: [KeyError], or what the loaders
    raise. A value of another kind than the one [_get_params] stores under
    a key is outside this model ([BadValue]). *)
Inductive load_error : Type :=
| KeyError (key : string)
| BadValue (key : string)
| LoadError (e : exn).

Definition loaded (A : Type) : Type := (load_error + A)%type.

Definition lbind {A B} (r : loaded A) (k : A -> loaded B) : loaded B :=
  match r with
  | inl e => inl e
  | inr a => k a
  end.

(** What a load returned, when it returned. *)
Definition loaded_value {A} (r : loaded A) : option A :=
  match r with
  | inl _ => None
  | inr a => Some a
  end.

Definition of_result {A} (r : result A) : loaded A :=
  match r with
  | inl e => inl (LoadError e)
  | inr a => inr a
  end.

(** [d[key]]. *)
Definition dict_get (d : pydict) (key : string) : loaded pyval :=
  match find (fun kv => String.eqb (fst kv) key) d with
  | Some kv => inr (snd kv)
  | None => inl (KeyError key)
  end.

(** [d.update(d2)]. *)
Definition dict_update (d d2 : pydict) : pydict :=
  fold_left (fun acc kv => dict_set (fst kv) (snd kv) acc) d2 d.

Definition get_int (d : pydict) (key : string) : loaded Z :=
  lbind (dict_get d key)
    (fun v => match v with PyInt n => inr n | _ => inl (BadValue key) end).

Definition get_float (d : pydict) (key : string) : loaded Q :=
  lbind (dict_get d key)
    (fun v => match v with
              | PyFloat x => inr x
              | _ => inl (BadValue key)
              end).

Definition get_state_dict (d : pydict) (key : string) : loaded dict :=
  lbind (dict_get d key)
    (fun v => match v with
              | PyStateDict x => inr x
              | _ => inl (BadValue key)
              end).

Definition get_opt_state (d : pydict) (key : string) : loaded opt_state :=
  lbind (dict_get d key)
    (fun v => match v with
              | PyOptState x => inr x
              | _ => inl (BadValue key)
              end).

Definition get_tensor (d : pydict) (key : string) : loaded ptensor :=
  lbind (dict_get d key)
    (fun v => match v with
              | PyTensor x => inr x
              | _ => inl (BadValue key)
              end).

Definition get_loss (d : pydict) (key : string) : loaded (option scalar) :=
  lbind (dict_get d key)
    (fun v => match v with PyLoss x => inr x | _ => inl (BadValue key) end).

Definition get_dataset (d : pydict) (key : string)
    : loaded (deque rollout_t) :=
  lbind (dict_get d key)
    (fun v => match v with
              | PyDataset x => inr x
              | _ => inl (BadValue key)
              end).

(** [MBMRL._get_params(iter)]. *)
Definition _get_params (self : MBMRL) (iter : Z) : pydict :=
  [("iteration"%string, PyInt iter);
   ("theta"%string, PyStateDict (state_dict self.(theta)));
   ("meta_optimizer"%string,
    PyOptState (optimizer_state_dict self.(meta_optimizer)));
   ("lr_optimizer"%string,
    PyOptState (optimizer_state_dict self.(lr_optimizer)));
   ("phi"%string, PyTensor self.(phi));
   ("loss"%string, PyLoss self.(theta_loss))].

(** [MBMRL._set_params(params)]: returns [params['iteration']]. *)
Definition _set_params (self : MBMRL) (params : pydict) : loaded (Z * MBMRL) :=
  lbind (get_state_dict params "theta") (fun d =>
  lbind (of_result (load_state_dict self.(theta) d)) (fun theta =>
  lbind (get_opt_state params "meta_optimizer") (fun o =>
  lbind (of_result (optimizer_load_state_dict self.(meta_optimizer) o))
    (fun meta_optimizer =>
  lbind (get_opt_state params "lr_optimizer") (fun o =>
  lbind (of_result (optimizer_load_state_dict self.(lr_optimizer) o))
    (fun lr_optimizer =>
  lbind (get_tensor params "phi") (fun phi =>
  lbind (get_loss params "loss") (fun loss =>
  lbind (get_int params "iteration") (fun iteration =>
  inr (iteration,
       mkMBMRL self.(cfg) self.(tasks) self.(dataset) theta meta_optimizer
         phi lr_optimizer loss self.(eval_rewards) self.(stats))))))))))).

(** [MBMRL._get_extra_data()]. *)
Definition _get_extra_data (self : MBMRL) : pydict :=
  [("dataset"%string, PyDataset self.(dataset))].

(** [MBMRL._set_extra_data(extra_data)]. *)
Definition _set_extra_data (self : MBMRL) (extra_data : pydict)
    : loaded MBMRL :=
  lbind (get_dataset extra_data "dataset") (fun d => inr (set_dataset d self)).

(** [MBMRL._get_stats()]. *)
Definition _get_stats (self : MBMRL) : pydict :=
  [("n_task_steps"%string, PyInt self.(stats).(_n_task_steps_total));
   ("n_model_steps"%string, PyInt self.(stats).(_n_model_steps_total));
   ("n_rollouts"%string, PyInt self.(stats).(_n_rollouts_total));
   ("time"%string, PyFloat self.(stats).(_time_total))].

(** [MBMRL._set_stats(stats)]: the saved total time becomes
    [_time_total_prev]. *)
Definition _set_stats (self : MBMRL) (st : pydict) : loaded MBMRL :=
  lbind (get_int st "n_task_steps") (fun n_task_steps =>
  lbind (get_int st "n_model_steps") (fun n_model_steps =>
  lbind (get_int st "n_rollouts") (fun n_rollouts =>
  lbind (get_float st "time") (fun time =>
  inr (set_stats
         (fun s => mkStats n_task_steps n_model_steps n_rollouts
                     s.(_time_total) time) self))))).

(** The two dictionaries [_end_iteration(iter)] hands to the logger's
    [save_params] and [save_extra_data], after [_record_stats]; [train]
    calls it with the loss of the iteration set. *)
Definition _end_iteration (iter : Z) (self : MBMRL)
    : Run (MBMRL * pydict * pydict) :=
  self <~ _record_stats self ;;
  let params_to_be_saved := _get_params self iter in
  let params_to_be_saved := dict_update params_to_be_saved (_get_stats self) in
  mret (self, params_to_be_saved, _get_extra_data self).

(** The network replaced. *)
Definition set_theta (th : net) (self : MBMRL) : MBMRL :=
  mkMBMRL self.(cfg) self.(tasks) self.(dataset) th self.(meta_optimizer)
    self.(phi) self.(lr_optimizer) self.(theta_loss) self.(eval_rewards)
    self.(stats).

(** [MBMRL._resume_train(load_iter)], given what the logger's
    [load_params(load_iter)] and [load_extra_data()] return. *)
Definition _resume_train (self : MBMRL) (params extra_data : pydict)
    : loaded (Z * MBMRL) :=
  lbind (_set_params self params) (fun '(start_iter, self) =>
  lbind (_set_stats self params) (fun self =>
  let self := set_theta (train_mode self.(theta)) self in
  lbind (_set_extra_data self extra_data) (fun self =>
  inr (start_iter, self)))).

(** [for i in range(start_iter, self.iteration_num)] of [MBMRL.train]. *)
Definition train_from (fuel : nat) (start_iter : Z) (self : MBMRL)
    : Run MBMRL :=
  iterate (train_iter fuel)
    (range_len (self.(cfg).(iteration_num) - start_iter)) start_iter self.

(** [MBMRL.train(resume=True, load_iter)], given what the logger loads. A
    failed load is returned as a value. *)
Definition train_resume (fuel : nat) (self : MBMRL)
    (params extra_data : pydict) : Run (loaded MBMRL) :=
  match _resume_train self params extra_data with
  | inl e => mret (inl e)
  | inr (start_iter, self) =>
      self <~ train_from fuel start_iter self ;; mret (inr self)
  end.

(** *** [MBMRL.test] *)

(** [past_traj = rollout[-self.M:]]: a slice of the rollout list itself. *)
Definition test_window (M : Z) (rollout : rollout_t) : rollout_t :=
  py_slice (Some (- M)) None rollout.

(** The locals of the [while not done] loop of [test]: [self], [rollout],
    [state], [t], [reward_sum]. *)
Definition test_locals : Type := (MBMRL * rollout_t * list Q * Z * Q)%type.

(** [while not done: ...] of [test], entered with [done = False]
    (rendering left out). [fuel] bounds the number of passes. *)
Fixpoint test_while (fuel : nat) (tk : task) (st : test_locals)
    : Run test_locals :=
  match fuel with
  | O => mraise OutOfFuel
  | S fuel' =>
      let '(self, rollout, state, t, reward_sum) := st in
      let past_traj := test_window self.(cfg).(M) rollout in
      ' (new_theta_dict, self) <~
        mlift (_adaptation_update self self.(theta) past_traj) ;;
      action <~ call_plan self.(theta) state new_theta_dict ;;
      ' (next_state, reward, done) <~ call_step tk action ;;
      let reward_sum := (reward_sum + reward)%Q in
      self <~
        mlift (match new_theta_dict with
               | Some d =>
                   th <- load_state_dict self.(theta) d ;;
                   ok (set_theta th self)
               | None => ok self
               end) ;;
      rollout <~
        mlift (_aggregate_rollout rollout state (action_row action)
                 next_state) ;;
      let state := next_state in
      let t := t + 1 in
      if (done : bool)
      then (state <~ call_reset tk ;;
            mret (self, [], state, t, reward_sum))
      else test_while fuel' tk (self, rollout, state, t, reward_sum)
  end.

(** [for i in range(start_iter, iteration_num): ...] of [test]; the second
    component collects what each iteration prints: [i], [reward_sum],
    [t]. *)
Fixpoint test_iterations (fuel : nat) (tk : task) (n : nat) (i : Z)
    (self : MBMRL) (rollout : rollout_t) (printed : list (Z * Q * Z))
    : Run (MBMRL * list (Z * Q * Z)) :=
  match n with
  | O => mret (self, printed)
  | S n' =>
      state <~ call_reset tk ;;
      ' (self, rollout, _, t, reward_sum) <~
        test_while fuel tk (self, rollout, state, 0, 0%Q) ;;
      test_iterations fuel tk n' (i + 1) self rollout
        (printed ++ [(i, reward_sum, t)])
  end.

(** What [test] does to the object before its loop: [_set_params],
    [theta.train()], [_set_extra_data]. *)
Definition test_load (self : MBMRL) (params extra_data : pydict)
    : loaded (Z * MBMRL) :=
  lbind (_set_params self params) (fun '(start_iter, self) =>
  let self := set_theta (train_mode self.(theta)) self in
  lbind (_set_extra_data self extra_data) (fun self =>
  inr (start_iter, self))).

(** [MBMRL.test(task, seed, iteration_num, render, load_iter)], given what
    the logger loads. A failed load is returned as a value. *)
Definition test (fuel : nat) (self : MBMRL) (tk : task) (seed : Z)
    (iteration_num : Z) (params extra_data : pydict)
    : Run (loaded (MBMRL * list (Z * Q * Z))) :=
  _ <~ call_set_seed seed ;;
  match test_load self params extra_data with
  | inl e => mret (inl e)
  | inr (start_iter, self) =>
      _ <~ call_reset tk ;;
      _ <~ call_set_task tk ;;
      r <~ test_iterations fuel tk (range_len (iteration_num - start_iter))
             start_iter self [] [] ;;
      mret (inr r)
  end.

End Checkpoint.

Arguments pyval {T TS}.
Arguments pydict {T TS}.

(** The instance's optimiser state is its learning rate; loading a state
    dictionary sets the weight. *)
Module ToyState.

Import Toy.

#[export] Instance toy_state : TorchState := {
  opt_state := Q;
  optimizer_state_dict := fun o => o;
  optimizer_load_state_dict := fun _ o => ok o;
  load_state_dict := fun th d => ok (weight_of th (Some d));
  train_mode := fun th => th
}.

(** The instance's agent with one rollout of 3 steps stored, with one of
    2 steps stored, and with a dataset of capacity 0. *)
Definition stocked_agent : MBMRL :=
  set_dataset (mkDeque 2 [ToyData.traj_a]) ToyData.agent.

Definition short_agent : MBMRL :=
  set_dataset (mkDeque 2 [ToyData.window_2]) ToyData.agent.

Definition empty_agent : MBMRL :=
  set_dataset (mkDeque 0 []) ToyData.agent.

(** The instance's agent after a first loss. *)
Definition trained_agent : MBMRL :=
  set_theta_loss (169 # 512, -13 # 16)%Q ToyData.agent.


End ToyState.

(** ** Vocabulary of the traces *)

Section Traces.

Context {T : Torch} {W : World}.

(** One pass of a collection loop: the state planned from, the overlay
    handed to the controller, the action it returned, and the next state,
    the reward and the [done] flag the task's step returned. *)
Record collect_record : Type := mkRecord {
  rec_state : list Q;
  rec_overlay : option dict;
  rec_action : ndarray;
  rec_next_state : list Q;
  rec_reward : Q;
  rec_done : bool
}.

(** The calls one pass makes: plan, step, and a reset when the step ended
    an episode. *)
Definition record_events (tk : task) (th : net) (x : collect_record)
    : list event :=
  [EvPlan th x.(rec_state) x.(rec_overlay);
   EvStep tk x.(rec_action) x.(rec_reward) x.(rec_done)]
  ++ (if x.(rec_done) then [EvReset tk] else []).

Definition collect_events (tk : task) (th : net) (xs : list collect_record)
    : list event :=
  flat_map (record_events tk th) xs.

(** The rollout that holds the transitions of [xs], in their order. *)
Definition rollout_of_records (xs : list collect_record) : rollout_t :=
  match xs with
  | [] => []
  | _ => [map rec_state xs;
          map (fun x => action_row x.(rec_action)) xs;
          map rec_next_state xs]
  end.

(** The controller planned with base parameters at the first pass of the
    rollout and with specialised ones afterwards. *)
Definition adapts_after_first (xs : list collect_record) : Prop :=
  forall (i : nat) (x : collect_record),
    nth_error xs i = Some x -> (x.(rec_overlay) = None <-> i = O).

(** An evaluation episode ends with its first [done]. *)
Definition episode_ends (steps : list eval_step) : Prop :=
  map step_done steps = repeat false (length steps - 1) ++ [true].

(** The return of an episode: the sum of its rewards. *)
Definition episode_return (steps : list eval_step) : Q :=
  Qsum (map step_reward steps).

(** The calls of a sequence of episodes on one task: each is a reset
    followed by the episode's plans and steps. *)
Definition episodes_events (tk : task) (th : net)
    (episodes : list (list eval_step)) : list event :=
  flat_map (fun steps => EvReset tk :: episode_events tk th steps) episodes.

(** The calls of the serial evaluator: for each task in turn, [set_task]
    and then its episodes. *)
Definition serial_events (th : net)
    (runs : list (task * list (list eval_step))) : list event :=
  flat_map (fun r => EvSetTask (fst r) :: episodes_events (fst r) th (snd r))
    runs.

(** [self.dataset.extend(rollouts); np.random.shuffle(self.dataset)] for
    each batch of rollouts in turn, as the collection phases of successive
    iterations do. *)
Fixpoint extend_all (batches : list (list rollout_t)) (self : MBMRL)
    : Run MBMRL :=
  match batches with
  | [] => mret self
  | rollouts :: rest =>
      self <~ extend_and_shuffle self rollouts ;; extend_all rest self
  end.

End Traces.

(** The instance with another generator: its shuffle leaves the sequence
    reversed, one of the orders [np.random.shuffle] can produce. *)
Module RevShuffle.

Import Toy.

Definition rev_world : @World toy_torch := {|
  world := @world toy_torch toy_world;
  task := @task toy_torch toy_world;
  set_seed := @set_seed toy_torch toy_world;
  env_reset := @env_reset toy_torch toy_world;
  env_step := @env_step toy_torch toy_world;
  ctrl_set_task := @ctrl_set_task toy_torch toy_world;
  ctrl_plan := @ctrl_plan toy_torch toy_world;
  rng_choice := @rng_choice toy_torch toy_world;
  rng_shuffle := fun _ l w => (w, rev l);
  spawn := @spawn toy_torch toy_world;
  queue_order := @queue_order toy_torch toy_world;
  gt_total := @gt_total toy_torch toy_world
|}.

(** [MBMRL(...)] on that instance, [dataset_size = 2]. *)
Definition rev_agent : @MBMRL toy_torch rev_world :=
  @mkMBMRL toy_torch rev_world toy_config [tt] (mkDeque 2 []) 1%Q
    (beta toy_config) (phi_init toy_config) (eta toy_config) None []
    (mkStats 0 0 0 0%Q 0%Q).

Definition rev_start
    : @world toy_torch rev_world * list (@event toy_torch rev_world) :=
  ((0%Q, O), []).

(** Three rollouts of one step each. *)
Definition rollout_1 : rollout_t := [[[1%Q]]; [[1%Q]]; [[1%Q]]].
Definition rollout_2 : rollout_t := [[[2%Q]]; [[2%Q]]; [[2%Q]]].
Definition rollout_3 : rollout_t := [[[3%Q]]; [[3%Q]]; [[3%Q]]].

End RevShuffle.

(** * Properties *)

(** ** Lists, slices and the bounded deque *)

Section ListFacts.

Context {A : Type}.

Lemma tl_skipn (k : nat) (l : list A) : tl (skipn k l) = skipn (S k) l.
Proof.
  revert l; induction k as [|k IH]; intros [|x l]; simpl; auto.
Qed.

Lemma lastn_length (n : nat) (l : list A) :
  length (lastn n l) = Nat.min n (length l).
Proof. unfold lastn. rewrite length_skipn. lia. Qed.

Lemma lastn_all (n : nat) (l : list A) :
  (length l <= n)%nat -> lastn n l = l.
Proof.
  intros H. unfold lastn.
  replace (length l - n)%nat with O by lia. reflexivity.
Qed.

Lemma lastn_suffix (n : nat) (l : list A) :
  exists dropped, l = dropped ++ lastn n l.
Proof.
  exists (firstn (length l - n) l). unfold lastn.
  symmetry; apply firstn_skipn.
Qed.

(** Appending to the retained suffix and trimming is the same as trimming
    the whole history. *)
Lemma lastn_snoc (n : nat) (l : list A) (x : A) :
  (let l' := lastn n l ++ [x] in
   if (n <? length l')%nat then tl l' else l') = lastn n (l ++ [x]).
Proof.
  cbv zeta. rewrite length_app, lastn_length. simpl length.
  unfold lastn. rewrite length_app. simpl length.
  destruct (Nat.ltb_spec n (Nat.min n (length l) + 1)) as [Hlt|Hge].
  - assert (Hn : (n <= length l)%nat) by lia.
    replace (length l + 1 - n)%nat with (S (length l - n)) by lia.
    rewrite <- tl_skipn.
    rewrite skipn_app.
    replace (length l - n - length l)%nat with O by lia.
    reflexivity.
  - assert (Hn : (length l < n)%nat) by lia.
    replace (length l - n)%nat with O by lia.
    replace (length l + 1 - n)%nat with O by lia.
    reflexivity.
Qed.

Lemma deque_append_history (d : deque A) (h : list A) (x : A) :
  items d = lastn (maxlen d) h ->
  maxlen (deque_append d x) = maxlen d /\
  items (deque_append d x) = lastn (maxlen d) (h ++ [x]).
Proof.
  intros Hd. unfold deque_append. simpl. split; [reflexivity|].
  rewrite Hd. apply lastn_snoc.
Qed.

Lemma deque_extend_history (xs : list A) :
  forall (d : deque A) (h : list A),
    items d = lastn (maxlen d) h ->
    maxlen (deque_extend d xs) = maxlen d /\
    items (deque_extend d xs) = lastn (maxlen d) (h ++ xs).
Proof.
  induction xs as [|x xs IH]; intros d h Hd.
  - simpl. rewrite app_nil_r. auto.
  - destruct (deque_append_history d h x Hd) as [Hm Hi].
    unfold deque_extend in *. simpl.
    rewrite <- Hm in Hi.
    destruct (IH _ _ Hi) as [Hm' Hi'].
    rewrite Hm'. rewrite Hi'. rewrite Hm. rewrite <- app_assoc. auto.
Qed.

(** A sequence of [extend] calls is one [extend] with all the batches. *)
Lemma deque_extend_batches (batches : list (list A)) :
  forall d : deque A,
    fold_left deque_extend batches d = deque_extend d (concat batches).
Proof.
  induction batches as [|b bs IH]; intros d; simpl.
  - reflexivity.
  - rewrite IH. unfold deque_extend. rewrite fold_left_app. reflexivity.
Qed.

End ListFacts.

(** In [train] and [debug] the dataset is extended and then shuffled in
    place: the bound and the content of the deque are those of the
    extension. *)
Section DatasetFacts.

Context {T : Torch} {W : World}.

Hypothesis shuffle_perm :
  forall (A : Type) (l : list A) (w : world),
    Permutation (snd (rng_shuffle A l w)) l.

Lemma deque_extend_maxlen {A} (xs : list A) :
  forall d : deque A, maxlen (deque_extend d xs) = maxlen d.
Proof.
  unfold deque_extend. induction xs as [|x xs IH]; intros d; simpl.
  - reflexivity.
  - rewrite IH. reflexivity.
Qed.

Lemma extend_and_shuffle_dataset (self : MBMRL) (rollouts : list rollout_t)
    (s : world * list event) :
  exists self' s',
    extend_and_shuffle self rollouts s = ok (self', s') /\
    maxlen (dataset self') = maxlen (dataset self) /\
    Permutation (items (dataset self'))
                (items (deque_extend (dataset self) rollouts)).
Proof.
  unfold extend_and_shuffle. cbn [mbind MonadPy_Run mret].
  unfold run_bind, call_shuffle.
  pose proof (shuffle_perm rollout_t
                (items (deque_extend (dataset self) rollouts)) (fst s)) as HP.
  destruct (rng_shuffle rollout_t _ (fst s)) as [w l]. cbn [ok snd] in *.
  unfold run_ret. do 2 eexists. split; [reflexivity|].
  simpl. split; [apply deque_extend_maxlen|exact HP].
Qed.

End DatasetFacts.

(** ** Sampling *)

Section SamplingFacts.

Context {T : Torch} {W : World}.


Lemma draw_start_idx_dist (self : MBMRL) (r0 : tensor) (rest : list tensor) :
  draw_start_idx (Mo := Dist) self (r0 :: rest)
  = map (fun qb : Q * result Z => (1 * fst qb, snd qb)%Q)
        (dist_choice (len r0 + 1 - self.(cfg).(M) - self.(cfg).(K))).
Proof.
  unfold draw_start_idx. simpl. rewrite app_nil_r. reflexivity.
Qed.


End SamplingFacts.


(** ** Rollouts and windows *)

Lemma py_slice_tail {A} (M : Z) (l : list A) :
  0 < M -> py_slice (Some (- M)) None l = lastn (Z.to_nat M) l.
Proof.
  intros HM. unfold py_slice, clamp_index, lastn.
  destruct (Z.ltb_spec (- M) 0) as [_|]; [|lia].
  replace (Z.to_nat (Z.max 0 (- M + Z.of_nat (length l))))
    with (length l - Z.to_nat M)%nat by lia.
  apply firstn_all2. rewrite length_skipn. lia.
Qed.

Lemma py_slice_tail_0 {A} (l : list A) : py_slice (Some (- 0)) None l = l.
Proof.
  unfold py_slice, clamp_index. simpl.
  rewrite Z.min_l by lia. simpl. rewrite Z.sub_0_r.
  apply firstn_all2. lia.
Qed.

Lemma py_slice_tail_length {A} (M : Z) (l : list A) :
  0 <= M -> l <> [] -> py_slice (Some (- M)) None l <> [].
Proof.
  intros HM Hl Hnil. apply (f_equal (@length A)) in Hnil.
  destruct (Z.eq_dec M 0) as [->|].
  - rewrite py_slice_tail_0 in Hnil. destruct l; [congruence|discriminate].
  - rewrite py_slice_tail in Hnil by lia. rewrite lastn_length in Hnil.
    destruct l; [congruence|]. simpl in Hnil. lia.
Qed.

Lemma py_slice_tail_same_length {A B} (M : Z) (l : list A) (l' : list B) :
  length l = length l' ->
  length (py_slice (Some (- M)) None l)
  = length (py_slice (Some (- M)) None l').
Proof.
  intros H. unfold py_slice. rewrite !length_firstn, !length_skipn, H.
  reflexivity.
Qed.

Lemma aggregate_rollout_len (k : nat) (r : rollout_t) (s a n : list Q) :
  rollout_of_len k r ->
  exists r', _aggregate_rollout r s a n = ok r' /\ rollout_of_len (S k) r'.
Proof.
  destruct k as [|k]; simpl.
  - intros ->. eexists; split; [reflexivity|].
    exists [s], [a], [n]. auto.
  - intros (st & ac & nx & -> & Hs & Ha & Hn).
    eexists; split; [reflexivity|].
    do 3 eexists; split; [reflexivity|].
    rewrite !length_app; simpl; lia.
Qed.

Lemma trailing_window_nil (M : Z) : trailing_window M [] = [].
Proof. reflexivity. Qed.

Lemma trailing_window_recent (M : Z) (k : nat) (r : rollout_t) :
  0 < M -> rollout_of_len k r ->
  trailing_window M r = map (lastn (Nat.min (Z.to_nat M) k)) r /\
  rollout_of_len (Nat.min (Z.to_nat M) k) (trailing_window M r).
Proof.
  intros HM. destruct k as [|k]; simpl rollout_of_len.
  - intros ->. rewrite Nat.min_0_r. split; reflexivity.
  - intros (st & ac & nx & -> & Hs & Ha & Hn).
    assert (Hl : forall l : tensor, length l = S k ->
              py_slice (Some (- M)) None l
              = lastn (Nat.min (Z.to_nat M) (S k)) l /\
              length (py_slice (Some (- M)) None l)
              = Nat.min (Z.to_nat M) (S k)).
    { intros l Hlen. rewrite py_slice_tail by lia. split.
      - unfold lastn. f_equal. lia.
      - rewrite lastn_length. lia. }
    destruct (Hl st Hs) as [E1 L1], (Hl ac Ha) as [E2 L2],
             (Hl nx Hn) as [E3 L3].
    unfold trailing_window. simpl map. rewrite <- E1, <- E2, <- E3.
    split; [reflexivity|].
    destruct (Nat.min (Z.to_nat M) (S k)) eqn:Hmin; [lia|].
    do 3 eexists; split; [reflexivity|]. auto.
Qed.

(** ** Adaptation never fails on a proper window *)

Section CollectorFacts.

Context {T : Torch} {W : World}.

Lemma same_but_stats_refl (self : MBMRL) : same_but_stats self self.
Proof. exists (fun s => s). destruct self; reflexivity. Qed.

Lemma same_but_stats_trans (a b c : MBMRL) :
  same_but_stats a b -> same_but_stats b c -> same_but_stats a c.
Proof.
  intros [f ->] [g ->]. exists (fun s => g (f s)). destruct a; reflexivity.
Qed.

Lemma same_but_stats_set (f : Stats -> Stats) (self : MBMRL) :
  same_but_stats self (set_stats f self).
Proof. exists f; reflexivity. Qed.

Lemma same_but_stats_cfg (a b : MBMRL) :
  same_but_stats a b -> b.(cfg) = a.(cfg) /\ b.(theta) = a.(theta) /\
                        b.(phi) = a.(phi) /\ b.(tasks) = a.(tasks) /\
                        b.(dataset) = a.(dataset).
Proof. intros [f ->]. destruct a; simpl; auto. Qed.

Lemma trailing_window_ok (M : Z) (k : nat) (r : rollout_t) :
  0 <= M -> rollout_of_len (S k) r -> window_ok (trailing_window M r).
Proof.
  intros HM (st & ac & nx & -> & Hs & Ha & Hn).
  exists (py_slice (Some (- M)) None st), (py_slice (Some (- M)) None ac),
         (py_slice (Some (- M)) None nx).
  split; [reflexivity|]. split; [|split].
  - apply py_slice_tail_same_length. congruence.
  - apply py_slice_tail_same_length. congruence.
  - apply py_slice_tail_length; [assumption|].
    destruct st; [discriminate|congruence].
Qed.

(** The collaborators' contract: the network accepts a batch of as many
    actions as states, and the loss of kind [kind] accepts its prediction
    together with as many targets. *)
Variable kind : string.

Hypothesis predict_total :
  forall th new st ac,
    length st = length ac -> exists p, predict_next th new st ac = ok p.

Hypothesis loss_total :
  forall th new st ac nx p std,
    predict_next th new st ac = ok p -> length nx = length st ->
    exists l, loss_func kind p nx std = ok l.

Lemma compute_adaptation_loss_ok (self : MBMRL) (th : net)
    (traj : rollout_t) (new : option dict) :
  window_ok traj -> self.(cfg).(loss_type) = kind ->
  exists l, _compute_adaptation_loss self th traj new
            = ok (l, set_stats (add_model_steps 1) self).
Proof.
  intros (st & ac & nx & -> & Hsa & Hns & Hne) Hk.
  unfold _compute_adaptation_loss. simpl.
  destruct (predict_total th new st ac Hsa) as [p Hp]. rewrite Hp. simpl.
  unfold py_div, len.
  destruct (Z.eqb_spec (Z.of_nat (length st)) 0) as [H0|_].
  { destruct st; [congruence|discriminate]. }
  simpl. rewrite Hk.
  destruct (loss_total th new st ac nx p self.(cfg).(pred_std) Hp Hns)
    as [l Hl].
  rewrite Hl. simpl. eexists; reflexivity.
Qed.

Lemma adaptation_inner_loop_ok (th : net) (traj : rollout_t) (n : nat) :
  window_ok traj ->
  forall (self : MBMRL) (ps d : dict),
    self.(cfg).(loss_type) = kind ->
    exists ps' d' self',
      adaptation_inner_loop n self th traj ps d = ok (ps', d', self') /\
      same_but_stats self self'.
Proof.
  intros Hw. induction n as [|n IH]; intros self ps d Hk; simpl.
  - do 3 eexists; split; [reflexivity|apply same_but_stats_refl].
  - destruct (compute_adaptation_loss_ok self th traj (Some d) Hw Hk)
      as [l Hl].
    rewrite Hl. simpl.
    destruct (descend_all th _ _ _) as [ps1 d1].
    destruct (IH (set_stats (add_model_steps 1) self) ps1 d1)
      as (ps' & d' & self' & Hrun & Hsame).
    { destruct self; exact Hk. }
    rewrite Hrun. do 3 eexists; split; [reflexivity|].
    eapply same_but_stats_trans; [apply same_but_stats_set|exact Hsame].
Qed.

Lemma adaptation_update_ok (self : MBMRL) (th : net) (traj : rollout_t) :
  window_ok traj -> self.(cfg).(loss_type) = kind ->
  exists d self',
    _adaptation_update self th traj = ok (Some d, self') /\
    same_but_stats self self'.
Proof.
  intros Hw Hk. unfold _adaptation_update.
  destruct (compute_adaptation_loss_ok self th traj None Hw Hk) as [l Hl].
  destruct Hw as (st & ac & nx & -> & Hw). rewrite Hl. simpl.
  destruct (descend_all th _ _ _) as [ps1 d1].
  destruct (adaptation_inner_loop_ok th [st; ac; nx]
              (range_len self.(cfg).(adaptation_update_num))
              (ex_intro _ st (ex_intro _ ac (ex_intro _ nx (conj eq_refl Hw))))
              (set_stats (add_model_steps 1) self) ps1 d1)
    as (ps' & d' & self' & Hrun & Hsame).
  { destruct self; exact Hk. }
  change (adaptation_update_num (cfg (set_stats (add_model_steps 1) self)))
    with (adaptation_update_num (cfg self)).
  rewrite Hrun. simpl. do 2 eexists; split; [reflexivity|].
  eapply same_but_stats_trans; [apply same_but_stats_set|exact Hsame].
Qed.

Lemma worker_loss_ok (th : net) (traj : rollout_t) (new : option dict)
    (scale_ std : Q) :
  window_ok traj ->
  exists l, worker_loss th traj new kind scale_ std = ok l.
Proof.
  intros (st & ac & nx & -> & Hsa & Hns & Hne).
  unfold worker_loss. simpl.
  destruct (predict_total th new st ac Hsa) as [p Hp]. rewrite Hp. simpl.
  destruct (loss_total th new st ac nx p std Hp Hns) as [l Hl].
  rewrite Hl. simpl. eexists; reflexivity.
Qed.

Lemma worker_inner_loop_ok (th : net) (traj : rollout_t) (ph : ptensor)
    (scale_ std : Q) (n : nat) :
  window_ok traj ->
  forall (ps d : dict) (steps : Z),
    exists ps' d' steps',
      worker_inner_loop n th traj ph kind scale_ std ps d steps
      = ok (ps', d', steps').
Proof.
  intros Hw. induction n as [|n IH]; intros ps d steps; simpl.
  - do 3 eexists; reflexivity.
  - destruct (worker_loss_ok th traj (Some d) scale_ std Hw) as [l Hl].
    rewrite Hl. simpl.
    destruct (descend_all th _ _ _) as [ps1 d1]. apply IH.
Qed.

Lemma worker_adaptation_ok (th : net) (traj : rollout_t) (ph : ptensor)
    (n : Z) (scale_ std : Q) (steps : Z) :
  window_ok traj ->
  exists d steps',
    worker_adaptation th traj ph n kind scale_ std steps
    = ok (Some d, steps').
Proof.
  intros Hw. unfold worker_adaptation.
  destruct (worker_loss_ok th traj None scale_ std Hw) as [l Hl].
  pose proof Hw as (st & ac & nx & -> & _). rewrite Hl. simpl.
  destruct (descend_all th _ _ _) as [ps1 d1].
  destruct (worker_inner_loop_ok th [st; ac; nx] ph scale_ std (range_len n)
              Hw ps1 d1 (steps + 1)) as (ps' & d' & steps' & Hrun).
  rewrite Hrun. simpl. do 2 eexists; reflexivity.
Qed.

(** ** The collection loops *)

Lemma run_bind_ok {A B} (m : Run A) (k : A -> Run B)
    (s s' : world * list event) (a : A) :
  m s = ok (a, s') -> run_bind m k s = k a s'.
Proof. intros H. unfold run_bind. rewrite H. reflexivity. Qed.

Lemma run_bind_lift {A B} (a : A) (k : A -> Run B)
    (s : world * list event) :
  run_bind (mlift (ok a)) k s = k a s.
Proof. reflexivity. Qed.

Lemma call_set_task_ok (tk : task) (s : world * list event) :
  call_set_task tk s
  = ok (tt, (ctrl_set_task tk (fst s), snd s ++ [EvSetTask tk])).
Proof. reflexivity. Qed.

Lemma call_reset_ok (tk : task) (s : world * list event) :
  call_reset tk s
  = ok (snd (env_reset tk (fst s)),
        (fst (env_reset tk (fst s)), snd s ++ [EvReset tk])).
Proof. unfold call_reset. destruct (env_reset tk (fst s)); reflexivity. Qed.

Lemma call_plan_ok (th : net) (st : list Q) (o : option dict)
    (s : world * list event) :
  call_plan th st o s
  = ok (snd (ctrl_plan th st o (fst s)),
        (fst (ctrl_plan th st o (fst s)), snd s ++ [EvPlan th st o])).
Proof. unfold call_plan. destruct (ctrl_plan th st o (fst s)); reflexivity. Qed.

Lemma call_step_ok (tk : task) (a : ndarray) (s : world * list event) :
  call_step tk a s
  = ok (snd (env_step tk a (fst s)),
        (fst (env_step tk a (fst s)),
         snd s ++ [EvStep tk a (snd (fst (snd (env_step tk a (fst s)))))
                     (snd (snd (env_step tk a (fst s))))])).
Proof. unfold call_step. destruct (env_step tk a (fst s)); reflexivity. Qed.

Lemma adaptation_step_ok (self : MBMRL) (k : nat) (r : rollout_t) :
  0 <= M (cfg self) -> loss_type (cfg self) = kind ->
  rollout_of_len k r ->
  exists o self',
    _adaptation_update self (theta self) (trailing_window (M (cfg self)) r)
    = ok (o, self') /\
    same_but_stats self self' /\ (o = None <-> k = O).
Proof.
  intros HM Hk Hr. destruct k as [|k].
  - simpl in Hr. subst r. exists None, self. simpl.
    split; [reflexivity|]. split; [apply same_but_stats_refl|tauto].
  - destruct (adaptation_update_ok self (theta self)
                (trailing_window (M (cfg self)) r))
      as (d & self' & Hrun & Hsame); auto.
    { eapply trailing_window_ok; eauto. }
    exists (Some d), self'. split; [exact Hrun|]. split; [exact Hsame|].
    split; discriminate.
Qed.

Lemma collect_step_ok (tk : task) (self : MBMRL) (r : rollout_t)
    (state : list Q) (t : Z) (s : world * list event) (k : nat) :
  0 <= M (cfg self) -> loss_type (cfg self) = kind ->
  rollout_of_len k r ->
  exists self' r' state' s',
    collect_step tk (self, r, state, t) s
    = ok ((self', r', state', t + 1), s') /\
    rollout_of_len (S k) r' /\ same_but_stats self self'.
Proof.
  intros HM Hk Hr.
  destruct (adaptation_step_ok self k r HM Hk Hr)
    as (o & self1 & Hrun & Hsame & _).
  unfold collect_step. cbn [mbind MonadPy_Run mret]. unfold run_bind.
  rewrite Hrun. cbn [mlift mret MonadPy_Run ok]. unfold run_ret at 1. cbn [ok].
  unfold call_plan at 1.
  destruct (ctrl_plan _ _ _ _) as [w1 a]. cbn [ok fst snd].
  unfold call_step at 1.
  destruct (env_step _ _ _) as [w2 [[ns rw] dn]]. cbn [ok fst snd].
  destruct (aggregate_rollout_len k r state (action_row a) ns Hr)
    as (r' & Hagg & Hr').
  rewrite Hagg. cbn [mlift mret MonadPy_Run ok]. unfold run_ret at 1. cbn [ok].
  destruct dn.
  - unfold call_reset. cbn [fst snd].
    destruct (env_reset _ _) as [w3 st3]. cbn [ok]. unfold run_ret.
    do 4 eexists. split; [reflexivity|]. split; [exact Hr'|].
    eapply same_but_stats_trans; [exact Hsame|apply same_but_stats_set].
  - unfold run_ret.
    do 4 eexists. split; [reflexivity|]. split; [exact Hr'|].
    eapply same_but_stats_trans; [exact Hsame|apply same_but_stats_set].
Qed.

Lemma collect_while_unfold (fuel : nat) (tk : task) (self : MBMRL)
    (r : rollout_t) (state : list Q) (t : Z) :
  collect_while fuel tk (self, r, state, t)
  = if t <? rollout_len (cfg self) then
      match fuel with
      | O => run_raise OutOfFuel
      | S fuel' =>
          run_bind (collect_step tk (self, r, state, t))
                   (collect_while fuel' tk)
      end
    else run_ret (self, r, state, t).
Proof. destruct fuel; reflexivity. Qed.

Lemma collect_while_ok (tk : task) :
  forall (fuel : nat) (self : MBMRL) (r : rollout_t) (state : list Q)
         (t : Z) (s : world * list event) (k : nat),
    0 <= M (cfg self) -> loss_type (cfg self) = kind ->
    rollout_of_len k r ->
    Z.to_nat (rollout_len (cfg self) - t) = fuel ->
    exists self' r' state' t' s',
      collect_while fuel tk (self, r, state, t) s
      = ok ((self', r', state', t'), s') /\
      rollout_of_len (k + fuel) r' /\ same_but_stats self self'.
Proof.
  induction fuel as [|fuel IH]; intros self r state t s k HM Hk Hr Hfuel;
    rewrite collect_while_unfold.
  - destruct (Z.ltb_spec t (rollout_len (cfg self))) as [Hlt|_]; [lia|].
    exists self, r, state, t, s. split; [reflexivity|].
    rewrite Nat.add_0_r. split; [exact Hr|apply same_but_stats_refl].
  - destruct (Z.ltb_spec t (rollout_len (cfg self))) as [_|Hge]; [|lia].
    destruct (collect_step_ok tk self r state t s k HM Hk Hr)
      as (self1 & r1 & state1 & s1 & Hstep & Hr1 & Hsame1).
    unfold run_bind. rewrite Hstep.
    destruct (same_but_stats_cfg _ _ Hsame1) as (Hcfg & _).
    destruct (IH self1 r1 state1 (t + 1) s1 (S k))
      as (self2 & r2 & state2 & t2 & s2 & Hrun & Hr2 & Hsame2).
    { rewrite Hcfg; exact HM. }
    { rewrite Hcfg; exact Hk. }
    { exact Hr1. }
    { rewrite Hcfg. lia. }
    exists self2, r2, state2, t2, s2. split; [exact Hrun|].
    split.
    + replace (k + S fuel)%nat with (S k + fuel)%nat by lia. exact Hr2.
    + eapply same_but_stats_trans; eauto.
Qed.

Lemma collect_rollouts_unfold (n : nat) (tk : task) (self : MBMRL)
    (state : list Q) (acc : list rollout_t) :
  collect_rollouts (S n) tk self state acc
  = run_bind
      (collect_while (range_len (rollout_len (cfg self))) tk
         (self, [], state, 0))
      (fun st : locals =>
         let '(self, rollout, state, _) := st in
         collect_rollouts n tk self state (acc ++ [rollout])).
Proof. reflexivity. Qed.

Lemma collect_rollouts_ok (tk : task) :
  forall (n : nat) (self : MBMRL) (state : list Q) (acc : list rollout_t)
         (s : world * list event),
    0 <= M (cfg self) -> loss_type (cfg self) = kind ->
    exists self' state' new s',
      collect_rollouts n tk self state acc s
      = ok ((self', state', acc ++ new), s') /\
      length new = n /\
      Forall (rollout_of_len (Z.to_nat (rollout_len (cfg self)))) new /\
      same_but_stats self self'.
Proof.
  induction n as [|n IH]; intros self state acc s HM Hk.
  - simpl. exists self, state, [], s. rewrite app_nil_r.
    split; [reflexivity|]. split; [reflexivity|].
    split; [constructor|apply same_but_stats_refl].
  - destruct (collect_while_ok tk (range_len (rollout_len (cfg self))) self []
                state 0 s O HM Hk eq_refl)
      as (self1 & r1 & state1 & t1 & s1 & Hrun & Hr1 & Hsame1).
    { unfold range_len. f_equal. lia. }
    rewrite collect_rollouts_unfold. erewrite run_bind_ok by exact Hrun.
    destruct (same_but_stats_cfg _ _ Hsame1) as (Hcfg & _).
    destruct (IH self1 state1 (acc ++ [r1]) s1)
      as (self2 & state2 & new & s2 & Hrun2 & Hlen & Hall & Hsame2).
    { rewrite Hcfg; exact HM. }
    { rewrite Hcfg; exact Hk. }
    exists self2, state2, (r1 :: new), s2.
    split; [|split; [|split]].
    + rewrite Hrun2. rewrite <- app_assoc. reflexivity.
    + simpl. lia.
    + constructor; [exact Hr1|]. rewrite <- Hcfg. exact Hall.
    + eapply same_but_stats_trans; eauto.
Qed.

Lemma collect_traj_serial_ok (self : MBMRL) (tk : task)
    (s : world * list event) :
  0 <= M (cfg self) -> loss_type (cfg self) = kind ->
  exists rollouts self' s',
    _collect_traj_serial self tk s = ok ((rollouts, self'), s') /\
    length rollouts = range_len (rollout_num (cfg self)) /\
    Forall (rollout_of_len (Z.to_nat (rollout_len (cfg self)))) rollouts /\
    same_but_stats self self'.
Proof.
  intros HM Hk. unfold _collect_traj_serial.
  cbn [mbind MonadPy_Run mret].
  erewrite run_bind_ok by apply call_set_task_ok.
  erewrite run_bind_ok by apply call_reset_ok.
  match goal with
  | |- context [run_bind (collect_rollouts ?n tk self ?st ?acc) _ ?s1] =>
      destruct (collect_rollouts_ok tk n self st acc s1 HM Hk)
        as (self1 & state1 & new & s2 & Hrun & Hlen & Hall & Hsame)
  end.
  erewrite run_bind_ok by exact Hrun.
  exists new, self1, s2. auto.
Qed.

(** *** The worker *)

Lemma worker_adaptation_step_ok (a : worker_args) (k : nat) (r : rollout_t)
    (n_model : Z) :
  0 <= wa_M a -> wa_loss_type a = kind -> rollout_of_len k r ->
  exists o n_model',
    worker_adaptation (wa_theta a) (trailing_window (wa_M a) r) (wa_phi a)
      (wa_adaptation_update_num a) (wa_loss_type a) (wa_loss_scale a)
      (wa_pred_std a) n_model
    = ok (o, n_model') /\ (o = None <-> k = O).
Proof.
  intros HM Hk Hr. destruct k as [|k].
  - simpl in Hr. subst r. exists None, n_model. simpl.
    split; [reflexivity|tauto].
  - rewrite Hk.
    destruct (worker_adaptation_ok (wa_theta a)
                (trailing_window (wa_M a) r) (wa_phi a)
                (wa_adaptation_update_num a) (wa_loss_scale a)
                (wa_pred_std a) n_model)
      as (d & n' & Hrun).
    { eapply trailing_window_ok; eauto. }
    exists (Some d), n'. split; [exact Hrun|]. split; discriminate.
Qed.

Lemma worker_step_ok (a : worker_args) (r : rollout_t) (state : list Q)
    (t n_model n_task : Z) (s : world * list event) (k : nat) :
  0 <= wa_M a -> wa_loss_type a = kind -> rollout_of_len k r ->
  exists r' state' n_model' s',
    worker_step a (r, state, t, n_model, n_task) s
    = ok ((r', state', t + 1, n_model', n_task + 1), s') /\
    rollout_of_len (S k) r'.
Proof.
  intros HM Hk Hr.
  destruct (worker_adaptation_step_ok a k r n_model HM Hk Hr)
    as (o & n1 & Hrun & _).
  unfold worker_step. cbn [mbind MonadPy_Run mret].
  rewrite Hrun, run_bind_lift.
  erewrite run_bind_ok by apply call_plan_ok.
  erewrite run_bind_ok by apply call_step_ok.
  destruct (snd (env_step _ _ _)) as [[ns rw] dn].
  destruct (aggregate_rollout_len k r state
              (action_row (snd (ctrl_plan (wa_theta a) state o (fst s)))) ns Hr)
    as (r' & Hagg & Hr').
  rewrite Hagg, run_bind_lift.
  destruct dn.
  - erewrite run_bind_ok by apply call_reset_ok.
    do 4 eexists. split; [reflexivity|exact Hr'].
  - do 4 eexists. split; [reflexivity|exact Hr'].
Qed.

Lemma worker_while_unfold (fuel : nat) (a : worker_args) (r : rollout_t)
    (state : list Q) (t n_model n_task : Z) :
  worker_while fuel a (r, state, t, n_model, n_task)
  = if t <? wa_rollout_len a then
      match fuel with
      | O => run_raise OutOfFuel
      | S fuel' =>
          run_bind (worker_step a (r, state, t, n_model, n_task))
                   (worker_while fuel' a)
      end
    else run_ret (r, state, t, n_model, n_task).
Proof. destruct fuel; reflexivity. Qed.

Lemma worker_while_ok (a : worker_args) :
  0 <= wa_M a -> wa_loss_type a = kind ->
  forall (fuel : nat) (r : rollout_t) (state : list Q) (t n_model n_task : Z)
         (s : world * list event) (k : nat),
    rollout_of_len k r ->
    Z.to_nat (wa_rollout_len a - t) = fuel ->
    exists r' state' t' n_model' n_task' s',
      worker_while fuel a (r, state, t, n_model, n_task) s
      = ok ((r', state', t', n_model', n_task'), s') /\
      rollout_of_len (k + fuel) r'.
Proof.
  intros HM Hk.
  induction fuel as [|fuel IH]; intros r state t n_model n_task s k Hr Hfuel;
    rewrite worker_while_unfold.
  - destruct (Z.ltb_spec t (wa_rollout_len a)) as [Hlt|_]; [lia|].
    exists r, state, t, n_model, n_task, s. split; [reflexivity|].
    rewrite Nat.add_0_r. exact Hr.
  - destruct (Z.ltb_spec t (wa_rollout_len a)) as [_|Hge]; [|lia].
    destruct (worker_step_ok a r state t n_model n_task s k HM Hk Hr)
      as (r1 & state1 & nm1 & s1 & Hstep & Hr1).
    erewrite run_bind_ok by exact Hstep.
    destruct (IH r1 state1 (t + 1) nm1 (n_task + 1) s1 (S k) Hr1)
      as (r2 & state2 & t2 & nm2 & nt2 & s2 & Hrun & Hr2).
    { lia. }
    exists r2, state2, t2, nm2, nt2, s2. split; [exact Hrun|].
    replace (k + S fuel)%nat with (S k + fuel)%nat by lia. exact Hr2.
Qed.

Lemma worker_rollouts_unfold (n : nat) (a : worker_args) (state : list Q)
    (n_model n_task : Z) (acc : list rollout_t) :
  worker_rollouts (S n) a state n_model n_task acc
  = run_bind
      (worker_while (range_len (wa_rollout_len a)) a
         ([], state, 0, n_model, n_task))
      (fun st : worker_locals =>
         let '(rollout, state, _, n_model, n_task) := st in
         worker_rollouts n a state n_model n_task (acc ++ [rollout])).
Proof. reflexivity. Qed.

Lemma worker_rollouts_ok (a : worker_args) :
  0 <= wa_M a -> wa_loss_type a = kind ->
  forall (n : nat) (state : list Q) (n_model n_task : Z)
         (acc : list rollout_t) (s : world * list event),
    exists new n_model' n_task' s',
      worker_rollouts n a state n_model n_task acc s
      = ok ((acc ++ new, n_model', n_task'), s') /\
      length new = n /\
      Forall (rollout_of_len (Z.to_nat (wa_rollout_len a))) new.
Proof.
  intros HM Hk.
  induction n as [|n IH]; intros state n_model n_task acc s.
  - simpl. exists [], n_model, n_task, s. rewrite app_nil_r.
    split; [reflexivity|]. split; [reflexivity|constructor].
  - destruct (worker_while_ok a HM Hk (range_len (wa_rollout_len a)) []
                state 0 n_model n_task s O eq_refl)
      as (r1 & state1 & t1 & nm1 & nt1 & s1 & Hrun & Hr1).
    { unfold range_len. f_equal. lia. }
    rewrite worker_rollouts_unfold. erewrite run_bind_ok by exact Hrun.
    destruct (IH state1 nm1 nt1 (acc ++ [r1]) s1)
      as (new & nm2 & nt2 & s2 & Hrun2 & Hlen & Hall).
    exists (r1 :: new), nm2, nt2, s2.
    split; [|split].
    + rewrite Hrun2. rewrite <- app_assoc. reflexivity.
    + simpl. lia.
    + constructor; [exact Hr1|exact Hall].
Qed.

Lemma collect_traj_per_thread_ok (pid : nat) (a : worker_args)
    (rollout_num : Z) (s : world * list event) :
  0 <= wa_M a -> wa_loss_type a = kind ->
  exists rollouts n_model n_task s',
    _collect_traj_per_thread pid a rollout_num s
    = ok ((rollouts, n_model, n_task), s') /\
    length rollouts = range_len rollout_num /\
    Forall (rollout_of_len (Z.to_nat (wa_rollout_len a))) rollouts.
Proof.
  intros HM Hk. unfold _collect_traj_per_thread.
  cbn [mbind MonadPy_Run mret].
  erewrite run_bind_ok by apply call_reset_ok.
  erewrite run_bind_ok by apply call_set_task_ok.
  match goal with
  | |- context [worker_rollouts ?n a ?st ?nm ?nt ?acc ?s1] =>
      destruct (worker_rollouts_ok a HM Hk n st nm nt acc s1)
        as (new & nm' & nt' & s2 & Hrun & Hlen & Hall)
  end.
  exists new, nm', nt', s2. auto.
Qed.

(** *** Worker processes *)

Lemma start_all_ok {A} (P : A -> Prop) :
  forall (workers : list (nat * Run A)) (s : world * list event),
    Forall (fun pt : nat * Run A =>
              exists a s', snd pt (spawn (fst pt) (fst s), []) = ok (a, s')
                           /\ P a) workers ->
    exists results,
      start_all workers s
      = ok (map inr results,
            (fst s,
             snd s ++ map (fun pt : nat * Run A => EvProcessStart (fst pt))
                          workers)) /\
      Forall P results /\ length results = length workers.
Proof.
  induction workers as [|[pid target] rest IH]; intros s Hall.
  - exists []. simpl. rewrite app_nil_r. destruct s; auto.
  - inversion Hall as [|? ? (a & s' & Ha & HP) Hrest]; subst.
    simpl in Ha.
    destruct (IH (fst s, snd s ++ [EvProcessStart pid]) Hrest)
      as (results & Hrun & HPs & Hlen).
    exists (a :: results). simpl start_all.
    cbn [mbind MonadPy_Run mret]. unfold run_bind at 1.
    unfold start_process. rewrite Ha. cbn [ok].
    unfold run_bind at 1. rewrite Hrun. cbn [ok fst snd]. unfold run_ret.
    split; [|split].
    + simpl. rewrite <- app_assoc. reflexivity.
    + constructor; assumption.
    + simpl. lia.
Qed.

Lemma all_ok_inr {A} (l : list A) : all_ok (map inr l) = Some l.
Proof. induction l as [|a l IH]; simpl; [|rewrite IH]; reflexivity. Qed.

(** The queue hands over every message exactly once. *)
Hypothesis queue_perm :
  forall (A : Type) (w : world) (l : list A),
    Permutation (queue_order A w l) l.

Lemma queue_get_all_ok {A} (P : A -> Prop) (results : list A)
    (s : world * list event) :
  Forall P results ->
  exists msgs,
    queue_get_all (map inr results) s = ok (msgs, s) /\
    Forall P msgs /\ length msgs = length results.
Proof.
  intros HP. unfold queue_get_all. rewrite all_ok_inr.
  exists (queue_order A (fst s) results).
  split; [reflexivity|]. split.
  - eapply Permutation_Forall; [|exact HP].
    apply Permutation_sym, queue_perm.
  - apply Permutation_length, queue_perm.
Qed.

Lemma merge_messages_ok (P : rollout_t -> Prop)
    (msgs : list (list rollout_t * Z * Z)) :
  Forall (fun m => Forall P (fst (fst m))) msgs ->
  forall (acc : list rollout_t) (self : MBMRL),
    Forall P acc ->
    Forall P
      (fst (fold_left
              (fun (acc : list rollout_t * MBMRL)
                   (m : list rollout_t * Z * Z) =>
                 let '(rollouts_per_thread, n_model, n_task) := m in
                 (fst acc ++ rollouts_per_thread,
                  set_stats (add_task_steps n_task)
                    (set_stats (add_model_steps n_model) (snd acc))))
              msgs (acc, self))).
Proof.
  induction 1 as [|[[r nm] nt] msgs Hr _ IH]; intros acc self Hacc; simpl.
  - exact Hacc.
  - apply IH. apply Forall_app. split; [exact Hacc|exact Hr].
Qed.

Lemma collect_traj_parallel_ok (self : MBMRL) (tk : task)
    (s : world * list event) :
  1 < num_threads (cfg self) ->
  0 <= M (cfg self) -> loss_type (cfg self) = kind ->
  exists rollouts self' s',
    _collect_traj_parallel self tk s = ok ((rollouts, self'), s') /\
    Forall (rollout_of_len (Z.to_nat (rollout_len (cfg self)))) rollouts.
Proof.
  intros Hnt HM Hk. unfold _collect_traj_parallel.
  destruct (Z.eqb_spec (num_threads (cfg self)) 0) as [|_]; [lia|].
  destruct (Z.ltb_spec (num_threads (cfg self)) 0) as [|_]; [lia|].
  cbn [mbind MonadPy_Run mret].
  set (P := fun m : list rollout_t * Z * Z =>
              Forall (rollout_of_len (Z.to_nat (rollout_len (cfg self))))
                     (fst (fst m))).
  match goal with
  | |- context [start_all ?ws] =>
      destruct (start_all_ok P ws s) as (results & Hstart & HP & _)
  end.
  { apply Forall_forall. intros [pid target] Hin.
    apply in_map_iff in Hin. destruct Hin as ([pid' n] & Heq & _).
    injection Heq as <- <-. cbn [fst snd].
    destruct (collect_traj_per_thread_ok pid' (worker_args_of self tk) n
                (spawn pid' (fst s), []) HM Hk)
      as (rollouts & nm & nt & s' & Hrun & _ & Hall).
    exists (rollouts, nm, nt), s'. split; [exact Hrun|exact Hall]. }
  erewrite run_bind_ok by exact Hstart.
  match goal with
  | |- context [run_bind (queue_get_all _) _ ?s1] =>
      destruct (queue_get_all_ok P results s1 HP) as (msgs & Hq & HPm & _)
  end.
  erewrite run_bind_ok by exact Hq.
  pose proof (merge_messages_ok
                (rollout_of_len (Z.to_nat (rollout_len (cfg self))))
                msgs HPm [] self (Forall_nil _)) as Hmerge.
  destruct (fold_left _ msgs ([], self)) as [rollouts self'].
  exists rollouts, self'. eexists. split; [reflexivity|exact Hmerge].
Qed.

(** *** Rollouts are full *)

Lemma rollout_of_len_full (L : Z) (r : rollout_t) :
  0 < L -> rollout_of_len (Z.to_nat L) r -> full_rollout L r.
Proof.
  intros HL Hr. destruct (Z.to_nat L) as [|k] eqn:Hk; [lia|].
  destruct Hr as (st & ac & nx & -> & Hs & Ha & Hn).
  exists st, ac, nx. unfold len. repeat split; lia.
Qed.

(** *** The window passed to the adaptation engine *)

Lemma collect_steps_ok (tk : task) :
  forall (n : nat) (self : MBMRL) (r : rollout_t) (state : list Q) (t : Z)
         (s : world * list event) (k : nat),
    0 <= M (cfg self) -> loss_type (cfg self) = kind ->
    rollout_of_len k r ->
    exists self' r' state' s',
      collect_steps n tk (self, r, state, t) s
      = ok ((self', r', state', t + Z.of_nat n), s') /\
      rollout_of_len (k + n) r' /\ same_but_stats self self' /\
      (forall fuel : nat,
          t + Z.of_nat n <= rollout_len (cfg self) ->
          collect_while (n + fuel) tk (self, r, state, t) s
          = collect_while fuel tk (self', r', state', t + Z.of_nat n) s').
Proof.
  induction n as [|n IH]; intros self r state t s k HM Hk Hr.
  - exists self, r, state, s. simpl. rewrite Z.add_0_r, Nat.add_0_r.
    split; [reflexivity|]. split; [exact Hr|].
    split; [apply same_but_stats_refl|reflexivity].
  - destruct (collect_step_ok tk self r state t s k HM Hk Hr)
      as (self1 & r1 & state1 & s1 & Hstep & Hr1 & Hsame1).
    destruct (same_but_stats_cfg _ _ Hsame1) as (Hcfg & _).
    destruct (IH self1 r1 state1 (t + 1) s1 (S k))
      as (self2 & r2 & state2 & s2 & Hrun & Hr2 & Hsame2 & Hloop).
    { rewrite Hcfg; exact HM. }
    { rewrite Hcfg; exact Hk. }
    { exact Hr1. }
    exists self2, r2, state2, s2.
    replace (t + Z.of_nat (S n)) with (t + 1 + Z.of_nat n) by lia.
    split; [|split; [|split]].
    + simpl collect_steps. erewrite run_bind_ok by exact Hstep. exact Hrun.
    + replace (k + S n)%nat with (S k + n)%nat by lia. exact Hr2.
    + eapply same_but_stats_trans; eauto.
    + intros fuel Hle. simpl Nat.add. rewrite collect_while_unfold.
      destruct (Z.ltb_spec t (rollout_len (cfg self))) as [_|]; [|lia].
      erewrite run_bind_ok by exact Hstep.
      apply Hloop. rewrite Hcfg. exact Hle.
Qed.

Lemma worker_steps_ok (a : worker_args) :
  0 <= wa_M a -> wa_loss_type a = kind ->
  forall (n : nat) (r : rollout_t) (state : list Q) (t n_model n_task : Z)
         (s : world * list event) (k : nat),
    rollout_of_len k r ->
    exists r' state' n_model' s',
      worker_steps n a (r, state, t, n_model, n_task) s
      = ok ((r', state', t + Z.of_nat n, n_model', n_task + Z.of_nat n), s')
      /\ rollout_of_len (k + n) r' /\
      (forall fuel : nat,
          t + Z.of_nat n <= wa_rollout_len a ->
          worker_while (n + fuel) a (r, state, t, n_model, n_task) s
          = worker_while fuel a
              (r', state', t + Z.of_nat n, n_model', n_task + Z.of_nat n) s').
Proof.
  intros HM Hk.
  induction n as [|n IH]; intros r state t n_model n_task s k Hr.
  - exists r, state, n_model, s. simpl. rewrite !Z.add_0_r, Nat.add_0_r.
    split; [reflexivity|]. split; [exact Hr|reflexivity].
  - destruct (worker_step_ok a r state t n_model n_task s k HM Hk Hr)
      as (r1 & state1 & nm1 & s1 & Hstep & Hr1).
    destruct (IH r1 state1 (t + 1) nm1 (n_task + 1) s1 (S k) Hr1)
      as (r2 & state2 & nm2 & s2 & Hrun & Hr2 & Hloop).
    exists r2, state2, nm2, s2.
    replace (t + Z.of_nat (S n)) with (t + 1 + Z.of_nat n) by lia.
    replace (n_task + Z.of_nat (S n)) with (n_task + 1 + Z.of_nat n) by lia.
    split; [|split].
    + simpl worker_steps. erewrite run_bind_ok by exact Hstep. exact Hrun.
    + replace (k + S n)%nat with (S k + n)%nat by lia. exact Hr2.
    + intros fuel Hle. simpl Nat.add. rewrite worker_while_unfold.
      destruct (Z.ltb_spec t (wa_rollout_len a)) as [_|]; [|lia].
      erewrite run_bind_ok by exact Hstep.
      apply Hloop. exact Hle.
Qed.

End CollectorFacts.

(** ** Evaluation *)

Section EvaluatorFacts.

Context {T : Torch} {W : World}.

Lemma count_app (f : event -> bool) (h1 h2 : list event) :
  count f (h1 ++ h2) = (count f h1 + count f h2)%nat.
Proof. unfold count. rewrite filter_app, length_app. reflexivity. Qed.

Lemma episode_events_unadapted (tk : task) (th : net)
    (steps : list eval_step) :
  Forall unadapted (episode_events tk th steps) /\
  count is_reset (episode_events tk th steps) = O /\
  count is_process_start (episode_events tk th steps) = O.
Proof.
  induction steps as [|[[[st a] r] d] steps (IH1 & IH2 & IH3)].
  - repeat split. constructor.
  - split; [|split].
    + simpl. repeat constructor. exact IH1.
    + exact IH2.
    + exact IH3.
Qed.

(** Episodes end: a measure on the task's state that planning does not
    increase and that every step without [done] decreases. *)
Variable remaining : task -> world -> nat.

Hypothesis plan_keeps :
  forall tk th st o w,
    (remaining tk (fst (ctrl_plan th st o w)) <= remaining tk w)%nat.

Hypothesis step_decreases :
  forall tk a w,
    snd (snd (env_step tk a w)) = false ->
    (remaining tk (fst (env_step tk a w)) < remaining tk w)%nat.

Lemma episode_loop_unfold (fuel : nat) (tk : task) (th : net)
    (state : list Q) (acc : Q) :
  episode_loop (S fuel) tk th state acc
  = run_bind (call_plan th state None)
      (fun action =>
         run_bind (call_step tk action)
           (fun x : list Q * Q * bool =>
              let '(state, reward, done) := x in
              if (done : bool) then run_ret (acc + reward)%Q
              else episode_loop fuel tk th state (acc + reward)%Q)).
Proof. reflexivity. Qed.

Lemma episode_loop_ok (tk : task) (th : net) :
  forall (fuel : nat) (state : list Q) (acc : Q) (s : world * list event),
    (remaining tk (fst s) < fuel)%nat ->
    exists steps w',
      episode_loop fuel tk th state acc s
      = ok (fold_left Qplus (map step_reward steps) acc,
            (w', snd s ++ episode_events tk th steps)) /\
      map step_done steps = repeat false (length steps - 1) ++ [true].
Proof.
  induction fuel as [|fuel IH]; intros state acc s Hfuel; [lia|].
  rewrite episode_loop_unfold.
  erewrite run_bind_ok by apply call_plan_ok.
  erewrite run_bind_ok by apply call_step_ok.
  cbn [fst snd].
  pose proof (plan_keeps tk th state None (fst s)) as Hplan.
  pose proof (step_decreases tk (snd (ctrl_plan th state None (fst s)))
                (fst (ctrl_plan th state None (fst s)))) as Hstep.
  destruct (env_step tk _ _) as [w2 [[ns r] d]]. cbn [fst snd] in *.
  destruct d.
  - exists [(state, snd (ctrl_plan th state None (fst s)), r, true)], w2.
    simpl. rewrite <- app_assoc. split; reflexivity.
  - specialize (Hstep eq_refl).
    destruct (IH ns (acc + r)%Q
                (w2, (snd s ++ [EvPlan th state None])
                       ++ [EvStep tk (snd (ctrl_plan th state None (fst s)))
                             r false]))
      as (steps & w' & Hrun & Hdone).
    { simpl. lia. }
    exists ((state, snd (ctrl_plan th state None (fst s)), r, false) :: steps),
           w'.
    rewrite Hrun. cbn [snd]. split.
    + simpl. rewrite <- !app_assoc. reflexivity.
    + simpl map. rewrite Hdone.
      destruct steps as [|x steps]; [discriminate|].
      simpl. rewrite Nat.sub_0_r. reflexivity.
Qed.

(** Every episode starts, after [reset], with fewer than [fuel] steps to
    go. *)
Variable fuel : nat.

Hypothesis reset_bound :
  forall tk w, (remaining tk (fst (env_reset tk w)) < fuel)%nat.

Lemma evaluation_history_app (n1 n2 : nat) (h1 h2 : list event) :
  evaluation_history n1 h1 -> evaluation_history n2 h2 ->
  evaluation_history (n1 + n2) (h1 ++ h2).
Proof.
  intros (R1 & P1 & U1) (R2 & P2 & U2). repeat split.
  - rewrite count_app; lia.
  - rewrite count_app; lia.
  - apply Forall_app; auto.
Qed.

Lemma evaluation_history_episode (tk : task) (th : net)
    (steps : list eval_step) :
  evaluation_history 0 (episode_events tk th steps).
Proof.
  destruct (episode_events_unadapted tk th steps) as (U & R & P).
  repeat split; assumption.
Qed.

Lemma reset_episode_ok {B} (tk : task) (th : net) (k : Q -> Run B)
    (s : world * list event) :
  exists reward_sum w' h',
    run_bind (call_reset tk)
      (fun state => run_bind (episode_loop fuel tk th state 0%Q) k) s
    = k reward_sum (w', snd s ++ h') /\
    evaluation_history 1 h'.
Proof.
  erewrite run_bind_ok by apply call_reset_ok.
  destruct (episode_loop_ok tk th fuel (snd (env_reset tk (fst s))) 0%Q
              (fst (env_reset tk (fst s)), snd s ++ [EvReset tk]))
    as (steps & w' & Hrun & _).
  { apply reset_bound. }
  erewrite run_bind_ok by exact Hrun. cbn [snd].
  exists (fold_left Qplus (map step_reward steps) 0%Q), w',
         ([EvReset tk] ++ episode_events tk th steps).
  rewrite app_assoc. split; [reflexivity|].
  apply (evaluation_history_app 1 0).
  - repeat split. repeat constructor.
  - apply evaluation_history_episode.
Qed.



Lemma eval_tasks_per_thread_ok (th : net) :
  forall (tks : list task) (acc : list Q) (s : world * list event),
    exists new w' h',
      eval_tasks_per_thread fuel tks th acc s
      = ok (acc ++ new, (w', snd s ++ h')) /\
      length new = length tks /\
      evaluation_history (length tks) h'.
Proof.
  induction tks as [|tk tks IH]; intros acc s.
  - exists [], (fst s), []. simpl. rewrite !app_nil_r. destruct s.
    split; [reflexivity|]. repeat split; constructor.
  - simpl eval_tasks_per_thread. cbn [mbind MonadPy_Run].
    erewrite run_bind_ok by apply call_set_task_ok.
    destruct (reset_episode_ok tk th
                (fun reward_sum : Q =>
                   eval_tasks_per_thread fuel tks th (acc ++ [reward_sum]))
                (ctrl_set_task tk (fst s), snd s ++ [EvSetTask tk]))
      as (r & w1 & h1 & Hrun1 & Hh1).
    rewrite Hrun1. cbn beta. cbn [snd].
    match goal with
    | |- context [eval_tasks_per_thread fuel tks th ?a ?s1] =>
        destruct (IH a s1) as (new & w2 & h2 & Hrun2 & Hlen2 & Hh2)
    end.
    rewrite Hrun2. cbn [snd].
    exists (r :: new), w2, ([EvSetTask tk] ++ h1 ++ h2).
    rewrite <- !app_assoc. split; [reflexivity|].
    split; [simpl; lia|].
    replace (length (tk :: tks)) with (0 + (1 + length tks))%nat
      by (simpl; lia).
    apply evaluation_history_app; [repeat split; repeat constructor|].
    apply evaluation_history_app; assumption.
Qed.


Lemma evaluate_per_thread_ok (tks : list task) (th : net)
    (s : world * list event) :
  exists rewards w' h',
    _evaluate_per_thread fuel tks th s = ok (rewards, (w', snd s ++ h')) /\
    length rewards = length tks /\
    evaluation_history (length tks) h'.
Proof.
  unfold _evaluate_per_thread.
  destruct (eval_tasks_per_thread_ok th tks [] s)
    as (new & w' & h' & Hrun & Hlen & Hh).
  exists new, w', h'. auto.
Qed.

Lemma count_process_starts (pids : list nat) :
  count is_process_start (map EvProcessStart pids) = length pids.
Proof.
  unfold count. induction pids as [|p pids IH]; simpl; [|rewrite IH];
    reflexivity.
Qed.

Lemma count_resets_process_starts (pids : list nat) :
  count is_reset (map EvProcessStart pids) = O.
Proof.
  unfold count. induction pids as [|p pids IH]; simpl; [|rewrite IH];
    reflexivity.
Qed.

Lemma evaluate_parallel_ok (self : MBMRL) (s : world * list event) :
  exists mean_rewards,
    _evaluate_parallel fuel self s
    = ok (mean_rewards,
          (fst s,
           snd s ++ map EvProcessStart
                        (seq 0 (range_len (eval_sample_num (cfg self)))))).
Proof.
  unfold _evaluate_parallel. cbn [mbind MonadPy_Run mret].
  match goal with
  | |- context [start_all ?ws] =>
      destruct (start_all_ok (fun _ : list Q => True) ws s)
        as (results & Hstart & _ & _)
  end.
  { apply Forall_forall. intros [pid target] Hin.
    apply in_map_iff in Hin. destruct Hin as (k & Heq & _).
    injection Heq as <- <-. cbn [fst snd].
    destruct (evaluate_per_thread_ok (tasks self) (theta self)
                (spawn k (fst s), []))
      as (rewards & w' & h' & Hrun & _).
    exists rewards. eexists. split; [exact Hrun|exact I]. }
  erewrite run_bind_ok by exact Hstart.
  unfold run_bind, queue_get_all. rewrite all_ok_inr. cbn [ok fst snd].
  rewrite map_map. cbn [fst]. eexists. reflexivity.
Qed.


End EvaluatorFacts.

(** ** The rollout counter is a bystander *)

Section CounterFrame.

Context {T : Torch} {W : World}.

(** Any change to [_n_rollouts_total] alone. *)
Variable change : Z -> Z.

Lemma run_bind_map {A B} (f : A -> A) (m m' : Run A) (k k' : A -> Run B)
    (g : B -> B) (s : world * list event) :
  m' s = run_map f (m s) ->
  (forall a s1, k' (f a) s1 = run_map g (k a s1)) ->
  run_bind m' k' s = run_map g (run_bind m k s).
Proof.
  intros Hm Hk. unfold run_bind. rewrite Hm.
  destruct (m s) as [e|[a s1]]; simpl; [reflexivity|apply Hk].
Qed.

Lemma compute_adaptation_loss_touch (self : MBMRL) (th : net)
    (traj : rollout_t) (new : option dict) :
  _compute_adaptation_loss (touch change self) th traj new
  = after change (_compute_adaptation_loss self th traj new).
Proof.
  unfold _compute_adaptation_loss.
  destruct (unpack3 traj) as [e|[[st ac] nx]]; simpl; [reflexivity|].
  destruct (predict_next th new st ac) as [e|p]; simpl; [reflexivity|].
  destruct (py_div _ _) as [e|c]; simpl; [reflexivity|].
  destruct (loss_func _ _ _ _) as [e|l]; reflexivity.
Qed.

Lemma adaptation_inner_loop_touch (th : net) (traj : rollout_t) :
  forall (n : nat) (self : MBMRL) (ps d : dict),
    adaptation_inner_loop n (touch change self) th traj ps d
    = match adaptation_inner_loop n self th traj ps d with
      | inl e => inl e
      | inr (ps', d', self') => inr (ps', d', touch change self')
      end.
Proof.
  induction n as [|n IH]; intros self ps d; simpl; [reflexivity|].
  rewrite compute_adaptation_loss_touch.
  destruct (_compute_adaptation_loss self th traj (Some d)) as [e|[l self1]];
    simpl; [reflexivity|].
  destruct (descend_all th (phi self1) _ _) as [ps1 d1]. apply IH.
Qed.

Lemma adaptation_update_touch (self : MBMRL) (th : net) (traj : rollout_t) :
  _adaptation_update (touch change self) th traj
  = after change (_adaptation_update self th traj).
Proof.
  unfold _adaptation_update. destruct traj as [|x traj]; [reflexivity|].
  rewrite compute_adaptation_loss_touch.
  destruct (_compute_adaptation_loss self th (x :: traj) None)
    as [e|[l self1]]; simpl; [reflexivity|].
  destruct (descend_all th (phi self1) _ _) as [ps1 d1].
  change (adaptation_update_num (cfg (touch change self1)))
    with (adaptation_update_num (cfg self1)).
  rewrite adaptation_inner_loop_touch.
  destruct (adaptation_inner_loop _ self1 th (x :: traj) ps1 d1)
    as [e|[[ps' d'] self2]]; reflexivity.
Qed.

Lemma post_adaptation_loss_touch (self : MBMRL) (traj : rollout_t) :
  post_adaptation_loss (touch change self) traj
  = after change (post_adaptation_loss self traj).
Proof.
  unfold post_adaptation_loss.
  change (theta (touch change self)) with (theta self).
  change (M (cfg (touch change self))) with (M (cfg self)).
  rewrite adaptation_update_touch.
  destruct (_adaptation_update self (theta self) _) as [e|[o self1]];
    simpl; [reflexivity|].
  apply compute_adaptation_loss_touch.
Qed.

Lemma meta_update_touch (self : MBMRL) (l : scalar) :
  _meta_update (touch change self) l = touch change (_meta_update self l).
Proof.
  unfold _meta_update. simpl.
  destruct (backward l (theta self) (phi self)) as [g_theta g_phi].
  destruct (adam_step (meta_optimizer self) _ _) as [mo ps].
  destruct (adam_step (lr_optimizer self) _ _) as [lo ph].
  reflexivity.
Qed.

Lemma run_bind_lift_after {A B} (r : result (A * MBMRL))
    (k k' : A * MBMRL -> Run B) (g : B -> B) (s : world * list event) :
  (forall a self1 s1,
      k' (a, touch change self1) s1 = run_map g (k (a, self1) s1)) ->
  run_bind (mlift (after change r)) k' s = run_map g (run_bind (mlift r) k s).
Proof.
  intros H. destruct r as [e|[a self1]]; simpl; [reflexivity|apply H].
Qed.

Lemma collect_step_touch (tk : task) (self : MBMRL) (r : rollout_t)
    (st : list Q) (t : Z) (s : world * list event) :
  collect_step tk (touch change self, r, st, t) s
  = run_map (touch_locals change) (collect_step tk (self, r, st, t) s).
Proof.
  unfold collect_step. cbn [mbind MonadPy_Run mret].
  change (theta (touch change self)) with (theta self).
  change (M (cfg (touch change self))) with (M (cfg self)).
  rewrite adaptation_update_touch.
  apply run_bind_lift_after. intros o self1 s1.
  change (theta (touch change self1)) with (theta self1).
  unfold run_bind.
  destruct (call_plan (theta self1) st o s1) as [e|[a s2]]; [reflexivity|].
  destruct (call_step tk a s2) as [e|[[[ns rw] dn] s3]]; [reflexivity|].
  destruct (_aggregate_rollout r st (action_row a) ns) as [e|r'];
    simpl; [reflexivity|].
  destruct dn; [|reflexivity].
  destruct (call_reset tk s3) as [e|[st' s4]]; reflexivity.
Qed.

Lemma collect_while_touch (tk : task) :
  forall (fuel : nat) (l : locals) (s : world * list event),
    collect_while fuel tk (touch_locals change l) s
    = run_map (touch_locals change) (collect_while fuel tk l s).
Proof.
  induction fuel as [|fuel IH]; intros [[[self r] st] t] s;
    unfold touch_locals at 1; rewrite !collect_while_unfold;
    change (rollout_len (cfg (touch change self)))
      with (rollout_len (cfg self));
    destruct (t <? rollout_len (cfg self)); try reflexivity.
  apply run_bind_map with (f := touch_locals change).
  - apply collect_step_touch.
  - intros l' s1. apply IH.
Qed.

Lemma collect_rollouts_touch (tk : task) :
  forall (n : nat) (self : MBMRL) (st : list Q) (acc : list rollout_t)
         (s : world * list event),
    collect_rollouts n tk (touch change self) st acc s
    = run_map (touch_rollouts change) (collect_rollouts n tk self st acc s).
Proof.
  induction n as [|n IH]; intros self st acc s; [reflexivity|].
  rewrite !collect_rollouts_unfold.
  change (rollout_len (cfg (touch change self))) with (rollout_len (cfg self)).
  apply run_bind_map with (f := touch_locals change).
  - apply (collect_while_touch tk _ (self, [], st, 0)).
  - intros [[[self1 r1] st1] t1] s1. apply IH.
Qed.

Lemma collect_traj_serial_touch (self : MBMRL) (tk : task)
    (s : world * list event) :
  _collect_traj_serial (touch change self) tk s
  = run_map (touch_snd change) (_collect_traj_serial self tk s).
Proof.
  unfold _collect_traj_serial. cbn [mbind MonadPy_Run mret].
  change (rollout_num (cfg (touch change self))) with (rollout_num (cfg self)).
  unfold run_bind at 1 2 4 5.
  destruct (call_set_task tk s) as [e|[u s1]]; [reflexivity|].
  destruct (call_reset tk s1) as [e|[st s2]]; [reflexivity|].
  apply run_bind_map with (f := touch_rollouts change).
  - apply collect_rollouts_touch.
  - intros [[self1 st1] rs] s3. reflexivity.
Qed.

Lemma merge_messages_touch (msgs : list (list rollout_t * Z * Z)) :
  forall (acc : list rollout_t) (self : MBMRL),
    fold_left
      (fun (acc : list rollout_t * MBMRL) (m : list rollout_t * Z * Z) =>
         let '(rollouts_per_thread, n_model, n_task) := m in
         (fst acc ++ rollouts_per_thread,
          set_stats (add_task_steps n_task)
            (set_stats (add_model_steps n_model) (snd acc))))
      msgs (acc, touch change self)
    = touch_snd change
        (fold_left
           (fun (acc : list rollout_t * MBMRL) (m : list rollout_t * Z * Z) =>
              let '(rollouts_per_thread, n_model, n_task) := m in
              (fst acc ++ rollouts_per_thread,
               set_stats (add_task_steps n_task)
                 (set_stats (add_model_steps n_model) (snd acc))))
           msgs (acc, self)).
Proof.
  induction msgs as [|[[r nm] nt] msgs IH]; intros acc self; simpl.
  - reflexivity.
  - apply (IH (acc ++ r)
              (set_stats (add_task_steps nt)
                 (set_stats (add_model_steps nm) self))).
Qed.

Lemma collect_traj_parallel_touch (self : MBMRL) (tk : task)
    (s : world * list event) :
  _collect_traj_parallel (touch change self) tk s
  = run_map (touch_snd change) (_collect_traj_parallel self tk s).
Proof.
  unfold _collect_traj_parallel.
  change (cfg (touch change self)) with (cfg self).
  change (worker_args_of (touch change self) tk) with (worker_args_of self tk).
  destruct (num_threads (cfg self) =? 0); [reflexivity|].
  destruct (num_threads (cfg self) <? 0); [reflexivity|].
  cbn [mbind MonadPy_Run mret]. unfold run_bind.
  destruct (start_all _ s) as [e|[msgs s1]]; [reflexivity|].
  destruct (queue_get_all msgs s1) as [e|[ms s2]]; [reflexivity|].
  rewrite merge_messages_touch.
  destruct (fold_left _ ms ([], self)) as [rollouts self1]. reflexivity.
Qed.

Lemma collect_traj_touch (self : MBMRL) (tk : task)
    (s : world * list event) :
  _collect_traj (touch change self) tk s
  = run_map (touch_snd change) (_collect_traj self tk s).
Proof.
  unfold _collect_traj.
  change (cfg (touch change self)) with (cfg self).
  destruct (num_threads (cfg self) >? 1).
  - apply collect_traj_parallel_touch.
  - apply collect_traj_serial_touch.
Qed.

Lemma extend_and_shuffle_touch (self : MBMRL) (rollouts : list rollout_t)
    (s : world * list event) :
  extend_and_shuffle (touch change self) rollouts s
  = run_map (touch change) (extend_and_shuffle self rollouts s).
Proof.
  unfold extend_and_shuffle. cbn [mbind MonadPy_Run mret].
  change (dataset (touch change self)) with (dataset self).
  unfold run_bind.
  destruct (call_shuffle _ s) as [e|[l s1]]; reflexivity.
Qed.

Lemma meta_losses_touch :
  forall (n : nat) (self : MBMRL) (acc : list scalar)
         (s : world * list event),
    meta_losses n (touch change self) acc s
    = run_map (touch_snd change) (meta_losses n self acc s).
Proof.
  induction n as [|n IH]; intros self acc s; [reflexivity|].
  simpl meta_losses. cbn [mbind MonadPy_Run mret].
  change (_sample_traj (touch change self) 1)
    with (_sample_traj (Mo := Run) self 1).
  apply run_bind_map with (f := fun x => x).
  - destruct (_sample_traj (Mo := Run) self 1 s) as [e|[traj s1]];
      reflexivity.
  - intros traj s1. rewrite post_adaptation_loss_touch.
    apply run_bind_lift_after. intros l self1 s2. apply IH.
Qed.

Lemma evaluate_touch (fuel : nat) (self : MBMRL) (s : world * list event) :
  evaluate fuel (touch change self) s
  = run_map (touch_snd change) (evaluate fuel self s).
Proof.
  unfold evaluate. cbn [mbind MonadPy_Run mret].
  change (cfg (touch change self)) with (cfg self).
  change (_evaluate_parallel fuel (touch change self))
    with (_evaluate_parallel fuel self).
  change (_evaluate_serial fuel (touch change self))
    with (_evaluate_serial fuel self).
  unfold run_bind.
  destruct ((num_threads (cfg self) >? 1) && (eval_sample_num (cfg self) >? 1)).
  - destruct (_evaluate_parallel fuel self s) as [e|[r s1]]; reflexivity.
  - destruct (_evaluate_serial fuel self s) as [e|[r s1]]; reflexivity.
Qed.

Lemma debug_iter_split (fuel : nat) (i : Z) (self : MBMRL)
    (s : world * list event) :
  debug_iter fuel i self s
  = run_bind (debug_collection i self) (debug_tail fuel i) s.
Proof.
  unfold debug_iter, debug_collection. cbn [mbind MonadPy_Run mret].
  destruct (py_mod i (task_sample_frequency (cfg self))) as [e|r];
    reflexivity.
Qed.

Lemma meta_update_cfg (self : MBMRL) (l : scalar) :
  cfg (_meta_update self l) = cfg self.
Proof.
  unfold _meta_update.
  destruct (backward l (theta self) (phi self)) as [g_theta g_phi].
  destruct (adam_step (meta_optimizer self) _ _) as [mo ps].
  destruct (adam_step (lr_optimizer self) _ _) as [lo ph].
  reflexivity.
Qed.

Lemma debug_tail_touch (fuel : nat) (i : Z) (self : MBMRL)
    (s : world * list event) :
  debug_tail fuel i (touch change self) s
  = run_map (touch change) (debug_tail fuel i self s).
Proof.
  unfold debug_tail. cbn [mbind MonadPy_Run mret].
  change (cfg (touch change self)) with (cfg self).
  apply run_bind_map with (f := touch_snd change).
  - apply meta_losses_touch.
  - intros [nl self1] s1. cbn [touch_snd fst snd].
    apply run_bind_map with (f := fun x => x).
    + destruct (theta_loss_of nl) as [e|l]; reflexivity.
    + intros l s2.
      change (set_theta_loss l (touch change self1))
        with (touch change (set_theta_loss l self1)).
      rewrite meta_update_touch.
      change (cfg (touch change (_meta_update (set_theta_loss l self1) l)))
        with (cfg (_meta_update (set_theta_loss l self1) l)).
      apply run_bind_map with (f := fun x => x).
      * destruct (py_mod i _) as [e|r]; reflexivity.
      * intros r s3. destruct (r =? 0); [|reflexivity].
        apply run_bind_map with (f := touch_snd change).
        -- apply evaluate_touch.
        -- intros [rw self2] s4. reflexivity.
Qed.

Lemma debug_collection_touch (i : Z) (self : MBMRL)
    (s : world * list event) :
  debug_collection i (touch change self) s
  = run_map (touch change) (debug_collection i self s).
Proof.
  unfold debug_collection. cbn [mbind MonadPy_Run mret].
  change (cfg (touch change self)) with (cfg self).
  apply run_bind_map with (f := fun x => x).
  - destruct (py_mod i _) as [e|r]; reflexivity.
  - intros r s1. destruct (r =? 0); [|reflexivity].
    change (_sample_task (touch change self))
      with (_sample_task (Mo := Run) self).
    apply run_bind_map with (f := fun x => x).
    + destruct (_sample_task (Mo := Run) self s1) as [e|[tk s2]];
        reflexivity.
    + intros tk s2. apply run_bind_map with (f := touch_snd change).
      * apply collect_traj_touch.
      * intros [rollouts self1] s3. apply extend_and_shuffle_touch.
Qed.

Lemma debug_iter_touch (fuel : nat) (i : Z) (self : MBMRL)
    (s : world * list event) :
  debug_iter fuel i (touch change self) s
  = run_map (touch change) (debug_iter fuel i self s).
Proof.
  rewrite !debug_iter_split. apply run_bind_map with (f := touch change).
  - apply debug_collection_touch.
  - intros self1 s1. apply debug_tail_touch.
Qed.

End CounterFrame.

(** ** [train] against [debug] *)

Section TrainingFacts.

Context {T : Torch} {W : World}.

Lemma train_iter_split (fuel : nat) (i : Z) (self : MBMRL)
    (s : world * list event) :
  train_iter fuel i self s
  = run_bind (train_collection i self) (train_tail fuel i) s.
Proof.
  unfold train_iter, train_collection. cbn [mbind MonadPy_Run mret].
  destruct (py_mod i (task_sample_frequency (cfg self))) as [e|r];
    reflexivity.
Qed.

Lemma run_bind_assoc {A B C} (m : Run A) (k : A -> Run B) (k2 : B -> Run C)
    (s : world * list event) :
  run_bind (run_bind m k) k2 s = run_bind m (fun a => run_bind (k a) k2) s.
Proof. unfold run_bind. destruct (m s) as [e|[a s1]]; reflexivity. Qed.

Lemma run_bind_ext {A B} (m : Run A) (k k' : A -> Run B)
    (s : world * list event) :
  (forall a s1, k a s1 = k' a s1) -> run_bind m k s = run_bind m k' s.
Proof.
  intros H. unfold run_bind. destruct (m s) as [e|[a s1]]; [reflexivity|].
  apply H.
Qed.

Lemma train_tail_record (fuel : nat) (i : Z) (self : MBMRL)
    (s : world * list event) :
  train_tail fuel i self s
  = run_bind (debug_tail fuel i self) _record_stats s.
Proof.
  unfold train_tail, debug_tail. cbn [mbind MonadPy_Run mret].
  rewrite run_bind_assoc. apply run_bind_ext. intros [nl self1] s1.
  destruct (theta_loss_of nl) as [e|l]; [reflexivity|].
  rewrite run_bind_assoc, !run_bind_lift.
  destruct (py_mod i _) as [e|r]; [reflexivity|].
  rewrite run_bind_assoc, !run_bind_lift.
  reflexivity.
Qed.

Lemma train_collection_debug (i : Z) (self : MBMRL)
    (s : world * list event) :
  train_collection i self s
  = run_map
      (fun self' : MBMRL =>
         if i mod task_sample_frequency (cfg self) =? 0
         then set_stats (add_rollouts 1) self' else self')
      (debug_collection i self s).
Proof.
  unfold train_collection, debug_collection, py_mod.
  cbn [mbind MonadPy_Run mret].
  destruct (task_sample_frequency (cfg self) =? 0); [reflexivity|].
  rewrite !run_bind_lift.
  destruct (i mod task_sample_frequency (cfg self) =? 0); [|reflexivity].
  unfold run_bind at 1 3.
  destruct (_sample_task (Mo := Run) self s) as [e|[tk s1]]; [reflexivity|].
  unfold run_bind.
  destruct (_collect_traj self tk s1) as [e|[[rollouts self1] s2]];
    [reflexivity|].
  apply (extend_and_shuffle_touch (fun n => n + 1) self1 rollouts s2).
Qed.

Lemma touch_same (self : MBMRL) :
  touch (fun _ : Z => _n_rollouts_total (stats self)) self = self.
Proof. destruct self as [? ? ? ? ? ? ? ? ? []]; reflexivity. Qed.

Lemma debug_iter_keeps_rollouts (fuel : nat) (i : Z) (self : MBMRL)
    (s : world * list event) :
  match debug_iter fuel i self s with
  | inl _ => True
  | inr (self', _) =>
      _n_rollouts_total (stats self') = _n_rollouts_total (stats self)
  end.
Proof.
  pose proof (debug_iter_touch (fun _ => _n_rollouts_total (stats self))
                fuel i self s) as H.
  rewrite touch_same in H.
  destruct (debug_iter fuel i self s) as [e|[self' s']]; [exact I|].
  simpl in H. injection H as H. rewrite H at 1. reflexivity.
Qed.

(** C9. An iteration of [train] is the iteration of [debug] followed by the
    bookkeeping of [_record_stats], except that [_n_rollouts_total] has been
    incremented when the iteration collects; [debug] leaves the counter as it
    was, and [train] adds one exactly on the iterations with a collection
    phase.  Everything else the two compute (dataset, parameters, losses,
    rewards, step counters, calls to the collaborators, errors) is the
    same. *)
Theorem debug_omits_rollout_counter (fuel : nat) (i : Z) (self : MBMRL)
    (s : world * list event) :
  train_iter fuel i self s
  = run_bind (debug_iter fuel i self)
      (fun self' : MBMRL =>
         _record_stats
           (if i mod task_sample_frequency (cfg self) =? 0
            then set_stats (add_rollouts 1) self' else self')) s /\
  match debug_iter fuel i self s with
  | inl _ => True
  | inr (self', _) =>
      _n_rollouts_total (stats self') = _n_rollouts_total (stats self)
  end /\
  match train_iter fuel i self s with
  | inl _ => True
  | inr (self', _) =>
      _n_rollouts_total (stats self')
      = _n_rollouts_total (stats self)
        + (if i mod task_sample_frequency (cfg self) =? 0 then 1 else 0)
  end.
Proof.
  assert (Heq : train_iter fuel i self s
                = run_bind (debug_iter fuel i self)
                    (fun self' : MBMRL =>
                       _record_stats
                         (if i mod task_sample_frequency (cfg self) =? 0
                          then set_stats (add_rollouts 1) self' else self')) s).
  { rewrite train_iter_split.
    unfold run_bind at 1 2. rewrite debug_iter_split.
    rewrite train_collection_debug. unfold run_bind at 1.
    destruct (debug_collection i self s) as [e|[self1 s1]];
      [reflexivity|]. cbn [run_map].
    rewrite train_tail_record.
    destruct (i mod task_sample_frequency (cfg self) =? 0); [|reflexivity].
    unfold run_bind at 1.
    change (set_stats (add_rollouts 1) self1)
      with (touch (fun n => n + 1) self1).
    rewrite (debug_tail_touch (fun n => n + 1) fuel i self1 s1).
    destruct (debug_tail fuel i self1 s1) as [e|[self2 s2]]; reflexivity. }
  pose proof (debug_iter_keeps_rollouts fuel i self s) as Hkeep.
  split; [exact Heq|]. split; [exact Hkeep|].
  rewrite Heq. unfold run_bind.
  destruct (debug_iter fuel i self s) as [e|[self' s']]; [exact I|].
  unfold _record_stats. cbn [ok].
  destruct (i mod task_sample_frequency (cfg self) =? 0); simpl;
    rewrite Hkeep; lia.
Qed.

End TrainingFacts.

(** ** The meta-update's loss window *)

Section MetaLossFacts.

Context {T : Torch} {W : World}.

Lemma compute_adaptation_loss_cfg (self self' : MBMRL) (th : net)
    (traj : rollout_t) (new : option dict) (l : scalar) :
  _compute_adaptation_loss self th traj new = ok (l, self') ->
  cfg self' = cfg self.
Proof.
  unfold _compute_adaptation_loss.
  destruct (unpack3 traj) as [e|[[st ac] nx]]; simpl; [discriminate|].
  destruct (predict_next th new st ac) as [e|p]; simpl; [discriminate|].
  destruct (py_div _ _) as [e|c]; simpl; [discriminate|].
  destruct (loss_func _ _ _ _) as [e|l0]; simpl; [discriminate|].
  intros H. injection H as _ <-. reflexivity.
Qed.

Lemma adaptation_inner_loop_cfg (th : net) (traj : rollout_t) :
  forall (n : nat) (self self' : MBMRL) (ps d ps' d' : dict),
    adaptation_inner_loop n self th traj ps d = ok (ps', d', self') ->
    cfg self' = cfg self.
Proof.
  induction n as [|n IH]; intros self self' ps d ps' d'; simpl.
  - intros H. injection H as _ _ <-. reflexivity.
  - destruct (_compute_adaptation_loss self th traj (Some d))
      as [e|[l self1]] eqn:E; simpl; [discriminate|].
    destruct (descend_all th (phi self1) _ _) as [ps1 d1]. intros H.
    rewrite (IH _ _ _ _ _ _ H).
    eapply compute_adaptation_loss_cfg; eassumption.
Qed.

Lemma adaptation_update_cfg (self self' : MBMRL) (th : net)
    (traj : rollout_t) (o : option dict) :
  _adaptation_update self th traj = ok (o, self') -> cfg self' = cfg self.
Proof.
  unfold _adaptation_update. destruct traj as [|x traj].
  - intros H. injection H as _ <-. reflexivity.
  - destruct (_compute_adaptation_loss self th (x :: traj) None)
      as [e|[l self1]] eqn:E; simpl; [discriminate|].
    destruct (descend_all th (phi self1) _ _) as [ps1 d1].
    destruct (adaptation_inner_loop _ self1 th (x :: traj) ps1 d1)
      as [e|[[ps' d'] self2]] eqn:E2; simpl; [discriminate|].
    intros H. injection H as _ <-.
    rewrite (adaptation_inner_loop_cfg _ _ _ _ _ _ _ _ _ E2).
    eapply compute_adaptation_loss_cfg; eassumption.
Qed.

(** Only the first [M] steps of the sampled window reach the meta-loss. *)
Lemma post_adaptation_loss_first_M (self : MBMRL) (traj1 traj2 : rollout_t) :
  adaptation_window (M (cfg self)) traj1
  = adaptation_window (M (cfg self)) traj2 ->
  post_adaptation_loss self traj1 = post_adaptation_loss self traj2.
Proof.
  intros H. unfold post_adaptation_loss. rewrite H.
  destruct (_adaptation_update self (theta self) _) as [e|[o self1]] eqn:E;
    simpl; [reflexivity|].
  rewrite (adaptation_update_cfg _ _ _ _ _ E), H. reflexivity.
Qed.

(** The two scalings of the same loss: the serial engine divides the
    configured scale by the number of rows of the window, the worker does
    not. *)
Lemma loss_scalings (self : MBMRL) (th : net) (new : option dict)
    (st ac nx : tensor) (p : pred) (l : scalar) :
  predict_next th new st ac = ok p ->
  loss_func (loss_type (cfg self)) p nx (pred_std (cfg self)) = ok l ->
  st <> [] ->
  worker_loss th [st; ac; nx] new (loss_type (cfg self))
    (loss_scale (cfg self)) (pred_std (cfg self))
  = ok (scale (loss_scale (cfg self)) l) /\
  returned (_compute_adaptation_loss self th [st; ac; nx] new)
  = Some (scale (loss_scale (cfg self) / inject_Z (len st)) l).
Proof.
  intros Hp Hl Hne. unfold worker_loss, _compute_adaptation_loss. simpl.
  rewrite Hp. simpl. rewrite Hl. simpl. split; [reflexivity|].
  unfold py_div, len.
  destruct (Z.eqb_spec (Z.of_nat (length st)) 0) as [H0|_].
  - destruct st; [congruence|discriminate].
  - reflexivity.
Qed.

End MetaLossFacts.

Import Toy ToyData.

(** C2. On the instance, with [M = 2] and [K = 1]: the loss that drives the
    meta-update is the loss on the first two steps of the window, 169/512;
    it does not change when the query step changes, where the loss on the
    query window does (169/256 against 3721/256). *)
Theorem meta_loss_ignores_query_window :
  adaptation_window 2 traj_a = adaptation_window 2 traj_b /\
  query_window 2 traj_a <> query_window 2 traj_b /\
  returned (post_adaptation_loss agent traj_a) = Some (169 # 512, -13 # 16) /\
  returned (post_adaptation_loss agent traj_b) = Some (169 # 512, -13 # 16) /\
  returned (spec_post_adaptation_loss agent traj_a)
  = Some (169 # 256, -13 # 8) /\
  returned (spec_post_adaptation_loss agent traj_b)
  = Some (3721 # 256, -61 # 8).
Proof.
  split; [reflexivity|]. split; [discriminate|].
  repeat split; reflexivity.
Qed.

(** C3. On the instance, for the same base weight, window of two
    transitions, adaptation rate, loss kind and scale, the serial engine
    returns the weight 19/16 and the worker 5/4: the serial loss is scaled
    by [loss_scale / len(state)], the worker's by [loss_scale]. *)
Theorem worker_adaptation_differs :
  returned (_adaptation_update agent (theta agent) window_2)
  = Some (Some [("w"%string, 19 # 16)]) /\
  returned (worker_adaptation (theta agent) window_2 (phi agent)
              (adaptation_update_num (cfg agent)) (loss_type (cfg agent))
              (loss_scale (cfg agent)) (pred_std (cfg agent)) 0)
  = Some (Some [("w"%string, 5 # 4)]) /\
  returned (_compute_adaptation_loss agent (theta agent) window_2 None)
  = Some (1 # 2, -1 # 1) /\
  worker_loss (theta agent) window_2 None (loss_type (cfg agent))
    (loss_scale (cfg agent)) (pred_std (cfg agent))
  = ok (1 # 1, -2 # 1).
Proof. repeat split; reflexivity. Qed.

(** ** Construction and the loss kind *)

Section InitFacts.

Context {T : Torch} {W : World}.

(** C4 (amended). The constructor does not look at the loss kind: with any
    kind, known or not, it fails or succeeds as with any other and stores the
    kind as given.  An error of [loss_func] about the kind is raised by the
    loss computation that calls it. *)
Theorem init_stores_loss_type_unchecked (tks : list task) (model : net)
    (c : Config) (k : string) (s : world * list event) :
  __init__ tks model (with_loss_type k c) s
  = match __init__ tks model c s with
    | inl e => inl e
    | inr (self, s') => inr (set_cfg (with_loss_type k (cfg self)) self, s')
    end /\
  match __init__ tks model (with_loss_type k c) s with
  | inl _ => True
  | inr (self, _) => loss_type (cfg self) = k
  end /\
  forall (self : MBMRL) (th : net) (new : option dict) (st ac nx : tensor),
    match predict_next th new st ac with
    | inr p =>
        match py_div (loss_scale (cfg self)) (len st),
              loss_func (loss_type (cfg self)) p nx (pred_std (cfg self)) with
        | inr _, inl e =>
            _compute_adaptation_loss self th [st; ac; nx] new = inl e
        | _, _ => True
        end
    | inl _ => True
    end.
Proof.
  assert (H : __init__ tks model (with_loss_type k c) s
              = match __init__ tks model c s with
                | inl e => inl e
                | inr (self, s') =>
                    inr (set_cfg (with_loss_type k (cfg self)) self, s')
                end).
  { unfold __init__. cbn [mbind MonadPy_Run mret].
    unfold run_bind, call_set_seed. cbn [ok fst snd with_loss_type seed
      dataset_size beta eta phi_init].
    destruct (deque_new (dataset_size c)) as [e|d]; [reflexivity|].
    cbn [mlift mret MonadPy_Run]. unfold run_ret at 1 4. cbn [ok].
    destruct (adam (parameters model) (beta c)) as [e|mo]; [reflexivity|].
    cbn [mlift mret MonadPy_Run]. unfold run_ret at 1 3. cbn [ok].
    destruct (adam [tensor_of_float (phi_init c)] (eta c)) as [e|lo];
      reflexivity. }
  split; [exact H|]. split.
  - rewrite H. destruct (__init__ tks model c s) as [e|[self s']];
      [exact I|reflexivity].
  - intros self th new st ac nx.
    unfold _compute_adaptation_loss. simpl.
    destruct (predict_next th new st ac) as [e|p]; [exact I|]. simpl.
    destruct (py_div _ _) as [e|q]; [exact I|]. simpl.
    destruct (loss_func _ _ _ _) as [e|l]; [reflexivity|exact I].
Qed.

End InitFacts.

(** C4, counterexample. The instance's [loss_func] rejects the kind
    ["huber"], yet the constructor succeeds with it and stores it; the error
    comes with the first loss computation. *)
Lemma unknown_loss_kind_counterexample :
  (forall p nx std, loss_func "huber" p nx std = inl ValueError) /\
  returned (__init__ [tt] 1%Q (with_loss_type "huber" toy_config) toy_start)
  = Some (toy_agent (with_loss_type "huber" toy_config)) /\
  loss_type (cfg (toy_agent (with_loss_type "huber" toy_config)))
  = "huber"%string /\
  raised (_compute_adaptation_loss
            (toy_agent (with_loss_type "huber" toy_config)) 1%Q window_2 None)
  = Some ValueError.
Proof. repeat split; reflexivity. Qed.

(** ** The instance meets the collaborators' contracts *)

Lemma toy_predict_total :
  forall th new st ac,
    length st = length ac -> exists p, predict_next th new st ac = ok p.
Proof.
  intros th new st ac H. simpl. unfold toy_predict.
  rewrite H, Nat.eqb_refl. eexists; reflexivity.
Qed.

Lemma toy_loss_total :
  forall th new st ac nx p std,
    predict_next th new st ac = ok p -> length nx = length st ->
    exists l, loss_func "mse" p nx std = ok l.
Proof. intros. eexists; reflexivity. Qed.

Lemma toy_queue_perm :
  forall (A : Type) (w : world) (l : list A),
    Permutation (queue_order A w l) l.
Proof. intros. apply Permutation_refl. Qed.

Lemma toy_plan_keeps :
  forall tk th st o w,
    (toy_remaining tk (fst (ctrl_plan th st o w)) <= toy_remaining tk w)%nat.
Proof. intros. simpl. lia. Qed.

Lemma toy_step_decreases :
  forall tk a w,
    snd (snd (env_step tk a w)) = false ->
    (toy_remaining tk (fst (env_step tk a w)) < toy_remaining tk w)%nat.
Proof.
  intros tk a [pos clock]. unfold toy_remaining. simpl.
  destruct clock as [|[|[|clock]]]; simpl; intros H;
    try discriminate; lia.
Qed.

Lemma toy_reset_bound :
  forall tk w, (toy_remaining tk (fst (env_reset tk w)) < 4)%nat.
Proof. intros. unfold toy_remaining. simpl. lia. Qed.

(** ** The theorems at work on the instance *)



(** One iteration on the instance: [train] counts the collection, [debug]
    does not; 15 task steps and 27 loss computations either way. *)
Example train_and_debug_on_instance :
  counters (train_iter 4 0 agent toy_start) = Some (15, 27, 1) /\
  counters (debug_iter 4 0 agent toy_start) = Some (15, 27, 0).
Proof. split; reflexivity. Qed.

(** With two threads and two evaluation samples, evaluation and collection
    each start two processes, and the three rollouts still hold five steps. *)
Example parallel_on_instance :
  history (evaluate 4 parallel_agent toy_start)
  = Some [EvProcessStart 0; EvProcessStart 1] /\
  history (_collect_traj parallel_agent tt toy_start)
  = Some [EvProcessStart 0; EvProcessStart 1] /\
  option_map (fun x : list rollout_t * MBMRL =>
                map (map (@length (list Q))) (fst x))
    (returned (_collect_traj parallel_agent tt toy_start))
  = Some [[5; 5; 5]; [5; 5; 5]; [5; 5; 5]]%nat.
Proof. repeat split; reflexivity. Qed.

(** * Further properties *)

(** ** What adaptation and collection do to the counters *)

Section CountingFacts.

Context {T : Torch} {W : World}.

Lemma counted_0 (self : MBMRL) : counted 0 0 self = self.
Proof.
  destruct self as [? ? ? ? ? ? ? ? ? []].
  unfold counted, set_stats, add_task_steps, add_model_steps. simpl.
  rewrite !Z.add_0_r. reflexivity.
Qed.

Lemma counted_add (a b c d : Z) (self : MBMRL) :
  counted a b (counted c d self) = counted (c + a) (d + b) self.
Proof.
  destruct self as [? ? ? ? ? ? ? ? ? []].
  unfold counted, set_stats, add_task_steps, add_model_steps. simpl.
  rewrite !Z.add_assoc. reflexivity.
Qed.

Lemma counted_model (n : Z) (self : MBMRL) :
  set_stats (add_model_steps n) self = counted 0 n self.
Proof.
  destruct self as [? ? ? ? ? ? ? ? ? []].
  unfold counted, set_stats, add_task_steps, add_model_steps. simpl.
  rewrite Z.add_0_r. reflexivity.
Qed.

Lemma counted_task (n : Z) (self : MBMRL) :
  set_stats (add_task_steps n) self = counted n 0 self.
Proof.
  destruct self as [? ? ? ? ? ? ? ? ? []].
  unfold counted, set_stats, add_task_steps, add_model_steps. simpl.
  rewrite Z.add_0_r. reflexivity.
Qed.

Lemma counted_same_but_stats (a b : Z) (self : MBMRL) :
  same_but_stats self (counted a b self).
Proof.
  exists (fun st => add_task_steps a (add_model_steps b st)). reflexivity.
Qed.

Lemma compute_adaptation_loss_effect (self self' : MBMRL) (th : net)
    (traj : rollout_t) (new : option dict) (l : scalar) :
  _compute_adaptation_loss self th traj new = ok (l, self') ->
  self' = counted 0 1 self.
Proof.
  unfold _compute_adaptation_loss.
  destruct (unpack3 traj) as [e|[[st ac] nx]]; simpl; [discriminate|].
  destruct (predict_next th new st ac) as [e|p]; simpl; [discriminate|].
  destruct (py_div _ _) as [e|c]; simpl; [discriminate|].
  destruct (loss_func _ _ _ _) as [e|l0]; simpl; [discriminate|].
  intros H. injection H as _ <-. apply counted_model.
Qed.

Lemma adaptation_inner_loop_effect (th : net) (traj : rollout_t) :
  forall (n : nat) (self self' : MBMRL) (ps d ps' d' : dict),
    adaptation_inner_loop n self th traj ps d = ok (ps', d', self') ->
    self' = counted 0 (Z.of_nat n) self.
Proof.
  induction n as [|n IH]; intros self self' ps d ps' d';
    simpl adaptation_inner_loop.
  - intros H. injection H as _ _ <-. symmetry. apply counted_0.
  - destruct (_compute_adaptation_loss self th traj (Some d))
      as [e|[l self1]] eqn:E; simpl; [discriminate|].
    destruct (descend_all th (phi self1) _ _) as [ps1 d1]. intros H.
    rewrite (IH _ _ _ _ _ _ H).
    rewrite (compute_adaptation_loss_effect _ _ _ _ _ _ E), counted_add.
    f_equal. lia.
Qed.

Lemma adaptation_update_effect (self self' : MBMRL) (th : net)
    (traj : rollout_t) (o : option dict) :
  _adaptation_update self th traj = ok (o, self') ->
  self' = counted 0
            (match traj with
             | [] => 0
             | _ => adaptation_cost (adaptation_update_num (cfg self))
             end) self.
Proof.
  unfold _adaptation_update. destruct traj as [|x traj].
  - intros H. injection H as _ <-. symmetry. apply counted_0.
  - destruct (_compute_adaptation_loss self th (x :: traj) None)
      as [e|[l self1]] eqn:E; simpl; [discriminate|].
    destruct (descend_all th (phi self1) _ _) as [ps1 d1].
    destruct (adaptation_inner_loop _ self1 th (x :: traj) ps1 d1)
      as [e|[[ps' d'] self2]] eqn:E2; simpl; [discriminate|].
    intros H. injection H as _ <-.
    pose proof (compute_adaptation_loss_effect _ _ _ _ _ _ E) as H1.
    pose proof (adaptation_inner_loop_effect _ _ _ _ _ _ _ _ _ E2) as H2.
    subst self1 self2. rewrite counted_add. reflexivity.
Qed.

Lemma worker_inner_loop_effect (th : net) (traj : rollout_t) (ph : ptensor)
    (k : string) (sc std : Q) :
  forall (n : nat) (ps d ps' d' : dict) (steps steps' : Z),
    worker_inner_loop n th traj ph k sc std ps d steps = ok (ps', d', steps') ->
    steps' = steps + Z.of_nat n.
Proof.
  induction n as [|n IH]; intros ps d ps' d' steps steps';
    simpl worker_inner_loop.
  - intros H. injection H as _ _ <-. lia.
  - destruct (worker_loss th traj (Some d) k sc std) as [e|l]; simpl;
      [discriminate|].
    destruct (descend_all th ph _ _) as [ps1 d1]. intros H.
    rewrite (IH _ _ _ _ _ _ H). lia.
Qed.

Lemma worker_adaptation_effect (th : net) (traj : rollout_t) (ph : ptensor)
    (u : Z) (k : string) (sc std : Q) (steps steps' : Z) (o : option dict) :
  worker_adaptation th traj ph u k sc std steps = ok (o, steps') ->
  steps' = steps + match traj with
                   | [] => 0
                   | _ => adaptation_cost u
                   end.
Proof.
  unfold worker_adaptation. destruct traj as [|x traj].
  - intros H. injection H as _ <-. lia.
  - destruct (worker_loss th (x :: traj) None k sc std) as [e|l]; simpl;
      [discriminate|].
    destruct (descend_all th ph _ _) as [ps1 d1].
    destruct (worker_inner_loop _ th (x :: traj) ph k sc std ps1 d1 _)
      as [e|[[ps' d'] st2]] eqn:E2; simpl; [discriminate|].
    intros H. injection H as _ <-.
    rewrite (worker_inner_loop_effect _ _ _ _ _ _ _ _ _ _ _ _ _ E2).
    unfold adaptation_cost. lia.
Qed.

(** *** Stepping through a run *)

Lemma run_bind_inv {A B} (m : Run A) (k : A -> Run B)
    (s s' : world * list event) (b : B) :
  run_bind m k s = ok (b, s') ->
  exists a s1, m s = ok (a, s1) /\ k a s1 = ok (b, s').
Proof.
  unfold run_bind. destruct (m s) as [e|[a s1]]; [discriminate|].
  intros H. exists a, s1. split; [reflexivity|exact H].
Qed.

Lemma mlift_inv {A} (r : result A) (s s' : world * list event) (a : A) :
  mlift (M := Run) r s = ok (a, s') -> r = ok a /\ s' = s.
Proof.
  destruct r as [e|a0]; simpl; [discriminate|].
  unfold run_ret. intros H. injection H as <- <-. split; reflexivity.
Qed.

Lemma trailing_window_empty (M : Z) (r : rollout_t) :
  trailing_window M r = [] <-> r = [].
Proof.
  unfold trailing_window. destruct r; simpl; split; intros H;
    try reflexivity; discriminate.
Qed.

Lemma aggregate_rollout_nonempty (r r' : rollout_t) (s a n : list Q) :
  _aggregate_rollout r s a n = ok r' -> r' <> [].
Proof.
  unfold _aggregate_rollout. destruct r as [|x r].
  - intros H. injection H as <-. discriminate.
  - destruct (py_index (x :: r) 0) as [e|r0]; simpl; [discriminate|].
    destruct (py_index (x :: r) 1) as [e|r1]; simpl; [discriminate|].
    destruct (py_index (x :: r) 2) as [e|r2]; simpl; [discriminate|].
    intros H. injection H as <-. discriminate.
Qed.

Lemma step_cost_window (u M : Z) (r : rollout_t) :
  match trailing_window M r with
  | [] => 0
  | _ => adaptation_cost u
  end = step_cost u r.
Proof. destruct r; reflexivity. Qed.

Lemma collect_step_effect (tk : task) (self self' : MBMRL)
    (r r' : rollout_t) (state state' : list Q) (t t' : Z)
    (s s' : world * list event) :
  collect_step tk (self, r, state, t) s = ok ((self', r', state', t'), s') ->
  t' = t + 1 /\ r' <> [] /\
  self' = counted 1 (step_cost (adaptation_update_num (cfg self)) r) self.
Proof.
  unfold collect_step. intros H.
  apply run_bind_inv in H as ([o self1] & s1 & H1 & H).
  apply mlift_inv in H1 as [H1 ->].
  apply adaptation_update_effect in H1. rewrite step_cost_window in H1.
  apply run_bind_inv in H as (a & s2 & _ & H).
  apply run_bind_inv in H as ([[nx rw] dn] & s3 & _ & H).
  apply run_bind_inv in H as (r1 & s4 & H4 & H).
  apply mlift_inv in H4 as [H4 ->].
  apply aggregate_rollout_nonempty in H4.
  assert (E : set_stats (add_task_steps 1) self1
              = counted 1 (step_cost (adaptation_update_num (cfg self)) r)
                  self).
  { rewrite counted_task, H1, counted_add. f_equal; lia. }
  destruct dn.
  - apply run_bind_inv in H as (st & s5 & _ & H).
    injection H as <- <- <- <- _. rewrite E. auto.
  - injection H as <- <- <- <- _. rewrite E. auto.
Qed.

Lemma counted_cfg (a b : Z) (self : MBMRL) :
  cfg (counted a b self) = cfg self.
Proof. reflexivity. Qed.

Lemma step_cost_nonempty (u : Z) (r : rollout_t) :
  r <> [] -> step_cost u r = adaptation_cost u.
Proof. destruct r; [congruence|reflexivity]. Qed.

Lemma collect_while_effect (tk : task) :
  forall (fuel : nat) (self self' : MBMRL) (r r' : rollout_t)
         (state state' : list Q) (t t' : Z) (s s' : world * list event),
    r <> [] ->
    collect_while fuel tk (self, r, state, t) s
    = ok ((self', r', state', t'), s') ->
    self' = counted (Z.max 0 (rollout_len (cfg self) - t))
              (Z.max 0 (rollout_len (cfg self) - t)
               * adaptation_cost (adaptation_update_num (cfg self))) self.
Proof.
  induction fuel as [|fuel IH]; intros self self' r r' state state' t t' s s'
    Hr; rewrite collect_while_unfold;
    destruct (t <? rollout_len (cfg self)) eqn:Ht.
  - discriminate.
  - intros H. injection H as <- _ _ _ _.
    apply Z.ltb_ge in Ht. rewrite Z.max_l by lia. symmetry. apply counted_0.
  - intros H.
    apply run_bind_inv in H as ([[[self1 r1] st1] t1] & s1 & H1 & H).
    apply collect_step_effect in H1 as (-> & Hr1 & ->).
    rewrite step_cost_nonempty in H by assumption.
    apply IH in H; [|assumption]. rewrite H, counted_cfg, counted_add.
    apply Z.ltb_lt in Ht.
    rewrite (Z.max_r 0 (rollout_len (cfg self) - t)) by lia.
    replace (Z.max 0 (rollout_len (cfg self) - (t + 1)))
      with (rollout_len (cfg self) - t - 1) by lia.
    f_equal; ring.
  - intros H. injection H as <- _ _ _ _.
    apply Z.ltb_ge in Ht. rewrite Z.max_l by lia. symmetry. apply counted_0.
Qed.

Lemma collect_rollout_effect (tk : task) (fuel : nat) (self self' : MBMRL)
    (r' : rollout_t) (state state' : list Q) (t' : Z)
    (s s' : world * list event) :
  collect_while fuel tk (self, [], state, 0) s
  = ok ((self', r', state', t'), s') ->
  self' = counted (Z.max 0 (rollout_len (cfg self)))
            (rollout_cost (rollout_len (cfg self))
               (adaptation_update_num (cfg self))) self.
Proof.
  rewrite collect_while_unfold. unfold rollout_cost.
  destruct (0 <? rollout_len (cfg self)) eqn:Ht.
  - apply Z.ltb_lt in Ht. destruct fuel as [|fuel]; [discriminate|].
    intros H.
    apply run_bind_inv in H as ([[[self1 r1] st1] t1] & s1 & H1 & H).
    apply collect_step_effect in H1 as (-> & Hr1 & ->).
    apply collect_while_effect in H; [|assumption].
    rewrite H, counted_cfg, counted_add. simpl step_cost.
    rewrite (Z.max_r 0 (rollout_len (cfg self))) by lia.
    rewrite (Z.max_r 0 (rollout_len (cfg self) - 1)) by lia.
    rewrite (Z.max_r 0 (rollout_len (cfg self) - (0 + 1))) by lia.
    f_equal; ring.
  - apply Z.ltb_ge in Ht. intros H. injection H as <- _ _ _ _.
    rewrite !Z.max_l by lia. symmetry. apply counted_0.
Qed.

Lemma collect_rollouts_effect (tk : task) :
  forall (n : nat) (self self' : MBMRL) (state state' : list Q)
         (acc rs : list rollout_t) (s s' : world * list event),
    collect_rollouts n tk self state acc s = ok ((self', state', rs), s') ->
    self' = counted (Z.of_nat n * Z.max 0 (rollout_len (cfg self)))
              (Z.of_nat n * rollout_cost (rollout_len (cfg self))
                              (adaptation_update_num (cfg self))) self.
Proof.
  induction n as [|n IH]; intros self self' state state' acc rs s s'.
  - intros H. injection H as <- _ _ _. symmetry. apply counted_0.
  - rewrite collect_rollouts_unfold. intros H.
    apply run_bind_inv in H as ([[[self1 r1] st1] t1] & s1 & H1 & H).
    apply collect_rollout_effect in H1. apply IH in H.
    rewrite H, H1, counted_cfg, counted_add. f_equal; nia.
Qed.

Lemma collect_traj_serial_effect (self self' : MBMRL) (tk : task)
    (rs : list rollout_t) (s s' : world * list event) :
  _collect_traj_serial self tk s = ok ((rs, self'), s') ->
  self' = counted
            (Z.of_nat (range_len (rollout_num (cfg self)))
             * Z.max 0 (rollout_len (cfg self)))
            (Z.of_nat (range_len (rollout_num (cfg self)))
             * rollout_cost (rollout_len (cfg self))
                 (adaptation_update_num (cfg self))) self.
Proof.
  unfold _collect_traj_serial. intros H.
  apply run_bind_inv in H as (u & s1 & _ & H).
  apply run_bind_inv in H as (st & s2 & _ & H).
  apply run_bind_inv in H as ([[self1 st1] rs1] & s3 & H1 & H).
  apply collect_rollouts_effect in H1. injection H as _ <- _. exact H1.
Qed.

(** *** The worker's own counters *)

Lemma worker_step_effect (a : worker_args) (r r' : rollout_t)
    (state state' : list Q) (t t' n_model n_model' n_task n_task' : Z)
    (s s' : world * list event) :
  worker_step a (r, state, t, n_model, n_task) s
  = ok ((r', state', t', n_model', n_task'), s') ->
  t' = t + 1 /\ r' <> [] /\ n_task' = n_task + 1 /\
  n_model' = n_model + step_cost (wa_adaptation_update_num a) r.
Proof.
  unfold worker_step. intros H.
  apply run_bind_inv in H as ([o m1] & s1 & H1 & H).
  apply mlift_inv in H1 as [H1 ->].
  apply worker_adaptation_effect in H1. rewrite step_cost_window in H1.
  apply run_bind_inv in H as (ac & s2 & _ & H).
  apply run_bind_inv in H as ([[nx rw] dn] & s3 & _ & H).
  apply run_bind_inv in H as (r1 & s4 & H4 & H).
  apply mlift_inv in H4 as [H4 ->].
  apply aggregate_rollout_nonempty in H4.
  destruct dn.
  - apply run_bind_inv in H as (st & s5 & _ & H).
    injection H as <- <- <- <- <- _. auto.
  - injection H as <- <- <- <- <- _. auto.
Qed.

Lemma worker_while_effect (a : worker_args) :
  forall (fuel : nat) (r r' : rollout_t) (state state' : list Q)
         (t t' n_model n_model' n_task n_task' : Z)
         (s s' : world * list event),
    r <> [] ->
    worker_while fuel a (r, state, t, n_model, n_task) s
    = ok ((r', state', t', n_model', n_task'), s') ->
    n_task' = n_task + Z.max 0 (wa_rollout_len a - t) /\
    n_model' = n_model + Z.max 0 (wa_rollout_len a - t)
                         * adaptation_cost (wa_adaptation_update_num a).
Proof.
  induction fuel as [|fuel IH];
    intros r r' state state' t t' n_model n_model' n_task n_task' s s' Hr;
    rewrite worker_while_unfold; destruct (t <? wa_rollout_len a) eqn:Ht.
  - discriminate.
  - intros H. injection H as _ _ _ <- <- _. apply Z.ltb_ge in Ht.
    rewrite Z.max_l by lia. lia.
  - intros H.
    apply run_bind_inv in H as ([[[[r1 st1] t1] m1] k1] & s1 & H1 & H).
    apply worker_step_effect in H1 as (-> & Hr1 & -> & ->).
    rewrite step_cost_nonempty in H by assumption.
    apply IH in H as [-> ->]; [|assumption].
    apply Z.ltb_lt in Ht.
    rewrite (Z.max_r 0 (wa_rollout_len a - t)) by lia.
    replace (Z.max 0 (wa_rollout_len a - (t + 1)))
      with (wa_rollout_len a - t - 1) by lia.
    split; ring.
  - intros H. injection H as _ _ _ <- <- _. apply Z.ltb_ge in Ht.
    rewrite Z.max_l by lia. lia.
Qed.

Lemma worker_rollout_effect (a : worker_args) (fuel : nat) (r' : rollout_t)
    (state state' : list Q) (t' n_model n_model' n_task n_task' : Z)
    (s s' : world * list event) :
  worker_while fuel a ([], state, 0, n_model, n_task) s
  = ok ((r', state', t', n_model', n_task'), s') ->
  n_task' = n_task + Z.max 0 (wa_rollout_len a) /\
  n_model' = n_model + rollout_cost (wa_rollout_len a)
                         (wa_adaptation_update_num a).
Proof.
  rewrite worker_while_unfold. unfold rollout_cost.
  destruct (0 <? wa_rollout_len a) eqn:Ht.
  - apply Z.ltb_lt in Ht. destruct fuel as [|fuel]; [discriminate|].
    intros H.
    apply run_bind_inv in H as ([[[[r1 st1] t1] m1] k1] & s1 & H1 & H).
    apply worker_step_effect in H1 as (-> & Hr1 & -> & ->).
    apply worker_while_effect in H as [-> ->]; [|assumption].
    simpl step_cost.
    rewrite (Z.max_r 0 (wa_rollout_len a)) by lia.
    rewrite (Z.max_r 0 (wa_rollout_len a - 1)) by lia.
    rewrite (Z.max_r 0 (wa_rollout_len a - (0 + 1))) by lia.
    split; ring.
  - apply Z.ltb_ge in Ht. intros H. injection H as _ _ _ <- <- _.
    rewrite !Z.max_l by lia. lia.
Qed.

Lemma worker_rollouts_effect (a : worker_args) :
  forall (n : nat) (state : list Q) (n_model n_model' n_task n_task' : Z)
         (acc rs : list rollout_t) (s s' : world * list event),
    worker_rollouts n a state n_model n_task acc s
    = ok ((rs, n_model', n_task'), s') ->
    length rs = (length acc + n)%nat /\
    n_task' = n_task + Z.of_nat n * Z.max 0 (wa_rollout_len a) /\
    n_model' = n_model + Z.of_nat n * rollout_cost (wa_rollout_len a)
                                        (wa_adaptation_update_num a).
Proof.
  induction n as [|n IH];
    intros state n_model n_model' n_task n_task' acc rs s s'.
  - intros H. injection H as <- <- <- _. repeat split; lia.
  - rewrite worker_rollouts_unfold. intros H.
    apply run_bind_inv in H as ([[[[r1 st1] t1] m1] k1] & s1 & H1 & H).
    apply worker_rollout_effect in H1 as [-> ->].
    apply IH in H as (Hl & -> & ->). rewrite length_app in Hl. simpl in Hl.
    repeat split; nia.
Qed.

Lemma collect_traj_per_thread_effect (pid : nat) (a : worker_args)
    (rollout_num n_model n_task : Z) (rs : list rollout_t)
    (s s' : world * list event) :
  _collect_traj_per_thread pid a rollout_num s
  = ok ((rs, n_model, n_task), s') ->
  length rs = range_len rollout_num /\
  n_task = Z.of_nat (range_len rollout_num) * Z.max 0 (wa_rollout_len a) /\
  n_model = Z.of_nat (range_len rollout_num)
            * rollout_cost (wa_rollout_len a) (wa_adaptation_update_num a).
Proof.
  unfold _collect_traj_per_thread. intros H.
  apply run_bind_inv in H as (st & s1 & _ & H).
  apply run_bind_inv in H as (u & s2 & _ & H).
  apply worker_rollouts_effect in H as (Hl & -> & ->). simpl in Hl.
  repeat split; lia.
Qed.

End CountingFacts.

(** ** The split of the rollouts over the worker processes *)

Lemma Zsum_app (l l' : list Z) : Zsum (l ++ l') = Zsum l + Zsum l'.
Proof. induction l as [|x l IH]; simpl; [reflexivity|rewrite IH; lia]. Qed.

Lemma Zsum_repeat (c : Z) (n : nat) : Zsum (repeat c n) = Z.of_nat n * c.
Proof. induction n as [|n IH]; [reflexivity|]. simpl repeat. simpl Zsum. lia. Qed.

Lemma Zsum_perm (l l' : list Z) : Permutation l l' -> Zsum l = Zsum l'.
Proof. induction 1; simpl; lia. Qed.

Lemma Zsum_map_scale {A} (f : A -> Z) (c : Z) (l : list A) :
  Zsum (map (fun x => f x * c) l) = Zsum (map f l) * c.
Proof. induction l as [|x l IH]; simpl; [reflexivity|rewrite IH; ring]. Qed.

Lemma Zsum_map_ext_in {A} (f g : A -> Z) (l : list A) :
  (forall x, In x l -> f x = g x) -> Zsum (map f l) = Zsum (map g l).
Proof. intros H. f_equal. apply map_ext_in. exact H. Qed.

Lemma length_concat_Zsum {A} (l : list (list A)) :
  Z.of_nat (length (concat l)) = Zsum (map (fun x => Z.of_nat (length x)) l).
Proof.
  induction l as [|x l IH]; simpl; [reflexivity|].
  rewrite length_app. lia.
Qed.

Lemma map_const_repeat {A B} (c : B) (l : list A) :
  map (fun _ => c) l = repeat c (length l).
Proof. induction l as [|x l IH]; simpl; [|rewrite IH]; reflexivity. Qed.

Lemma combine_map_self {A B} (g : A -> B) (l : list A) :
  combine l (map g l) = map (fun p => (p, g p)) l.
Proof. induction l as [|x l IH]; simpl; [|rewrite IH]; reflexivity. Qed.

Lemma filter_map_swap {A B} (f : A -> B) (h : B -> bool) (l : list A) :
  filter h (map f l) = map f (filter (fun x => h (f x)) l).
Proof.
  induction l as [|x l IH]; simpl; [reflexivity|].
  destruct (h (f x)); simpl; rewrite IH; reflexivity.
Qed.

Lemma filter_seq_prefix (h : nat -> bool) :
  forall k m : nat,
    (m <= k)%nat ->
    (forall p, (p < k)%nat -> h p = (p <? m)%nat) ->
    filter h (seq 0 k) = seq 0 m.
Proof.
  induction k as [|k IH]; intros m Hm Hh.
  - replace m with O by lia. reflexivity.
  - rewrite seq_S, filter_app. simpl.
    rewrite (Hh k) by lia.
    destruct (Nat.ltb_spec k m) as [Hlt|Hge].
    + assert (m = S k) by lia. subst m.
      rewrite (IH k) by (try lia; intros p Hp; rewrite Hh by lia;
                         destruct (Nat.ltb_spec p (S k)), (Nat.ltb_spec p k);
                         try reflexivity; lia).
      rewrite seq_S. reflexivity.
    + rewrite (IH m) by (try lia; intros p Hp; apply Hh; lia).
      apply app_nil_r.
Qed.

(** The share of the worker with index [pid]. *)
Lemma rollout_nums_map (n nt : Z) :
  rollout_nums n nt
  = map (fun pid : nat =>
           n / nt + (if Z.of_nat pid <? n mod nt then 1 else 0))
        (seq 0 (Z.to_nat nt)).
Proof. reflexivity. Qed.

Lemma rollout_nums_split (n nt : Z) :
  0 < nt ->
  rollout_nums n nt
  = repeat (n / nt + 1) (Z.to_nat (n mod nt))
    ++ repeat (n / nt) (Z.to_nat (nt - n mod nt)).
Proof.
  intros Hnt. pose proof (Z.mod_pos_bound n nt Hnt) as Hr.
  rewrite rollout_nums_map.
  generalize dependent (n mod nt). generalize (n / nt). intros q r Hr.
  replace (Z.to_nat nt)
    with (Z.to_nat r + Z.to_nat (nt - r))%nat by lia.
  rewrite seq_app, map_app. f_equal.
  - transitivity (map (fun _ : nat => q + 1) (seq 0 (Z.to_nat r))).
    + apply map_ext_in. intros p Hp. apply in_seq in Hp.
      destruct (Z.ltb_spec (Z.of_nat p) r); [reflexivity|lia].
    + rewrite map_const_repeat, length_seq. reflexivity.
  - transitivity (map (fun _ : nat => q)
                    (seq (0 + Z.to_nat r) (Z.to_nat (nt - r)))).
    + apply map_ext_in. intros p Hp. apply in_seq in Hp.
      destruct (Z.ltb_spec (Z.of_nat p) r); lia.
    + rewrite map_const_repeat, length_seq. reflexivity.
Qed.

Lemma Zsum_rollout_nums (n nt : Z) : 0 < nt -> Zsum (rollout_nums n nt) = n.
Proof.
  intros Hnt. pose proof (Z.mod_pos_bound n nt Hnt) as Hr.
  rewrite rollout_nums_split, Zsum_app, !Zsum_repeat by assumption.
  pose proof (Z.div_mod n nt ltac:(lia)) as Hdm.
  rewrite !Z2Nat.id by lia.
  generalize dependent (n mod nt). generalize (n / nt). intros q r _ ->.
  ring.
Qed.

(** X1. [rollout_nums]: with [num_threads > 0] workers, the first
    [rollout_num % num_threads] get [rollout_num // num_threads + 1] rollouts
    and the others [rollout_num // num_threads]; there is one entry per
    worker and the entries add up to [rollout_num]. *)
Theorem rollout_nums_partition (n nt : Z) :
  0 < nt ->
  rollout_nums n nt
  = repeat (n / nt + 1) (Z.to_nat (n mod nt))
    ++ repeat (n / nt) (Z.to_nat (nt - n mod nt)) /\
  length (rollout_nums n nt) = Z.to_nat nt /\
  Zsum (rollout_nums n nt) = n.
Proof.
  intros Hnt. split; [apply rollout_nums_split; assumption|]. split.
  - rewrite rollout_nums_map, length_map, length_seq. reflexivity.
  - apply Zsum_rollout_nums. assumption.
Qed.

(** The workers that get work: [(pid, rollout_nums[pid])] for the entries
    above zero. *)
Lemma workers_with_work (n nt : Z) :
  0 < nt ->
  filter (fun pn : nat * Z => 0 <? snd pn)
    (combine (seq 0 (length (rollout_nums n nt))) (rollout_nums n nt))
  = map (fun pid : nat =>
           (pid, n / nt + (if Z.of_nat pid <? n mod nt then 1 else 0)))
        (seq 0 (Z.to_nat (Z.min nt n))) /\
  Zsum (map (fun pid : nat =>
               n / nt + (if Z.of_nat pid <? n mod nt then 1 else 0))
            (seq 0 (Z.to_nat (Z.min nt n)))) = Z.max 0 n.
Proof.
  intros Hnt. pose proof (Z.mod_pos_bound n nt Hnt) as Hr.
  pose proof (Z.div_mod n nt ltac:(lia)) as Hdm.
  rewrite rollout_nums_map at 1 2. rewrite length_map, length_seq.
  rewrite combine_map_self, filter_map_swap. cbn [snd].
  split.
  - f_equal. apply filter_seq_prefix; [lia|]. intros p Hp.
    destruct (Z.ltb_spec (Z.of_nat p) (n mod nt));
      destruct (Z.ltb_spec 0 (n / nt + 1));
      destruct (Z.ltb_spec 0 (n / nt + 0));
      destruct (Nat.ltb_spec p (Z.to_nat (Z.min nt n)));
      try reflexivity; try lia; exfalso; nia.
  - destruct (Z.le_gt_cases nt n) as [Hge|Hlt].
    + rewrite Z.min_l, Z.max_r by lia.
      rewrite <- rollout_nums_map.
      apply Zsum_rollout_nums. assumption.
    + destruct (Z.le_gt_cases 0 n) as [Hpos|Hneg].
      * rewrite Z.min_r, Z.max_r by lia.
        rewrite (Z.div_small n nt) by lia.
        rewrite (Z.mod_small n nt) by lia.
        erewrite Zsum_map_ext_in with (g := fun _ => 1).
        -- rewrite map_const_repeat, Zsum_repeat, length_seq. lia.
        -- intros p Hp. apply in_seq in Hp.
           destruct (Z.ltb_spec (Z.of_nat p) n); lia.
      * rewrite Z.min_r, Z.max_l by lia.
        replace (Z.to_nat n) with O by lia. reflexivity.
Qed.

(** ** Collection, serial and parallel, on the counters *)

Section CollectionCounts.

Context {T : Torch} {W : World}.

(** Starting the workers never fails in the parent and never touches the
    parent's world: every worker is recorded as started, dead or alive. *)
Lemma start_all_eq {A} :
  forall (workers : list (nat * Run A)) (s : world * list event),
    start_all workers s
    = ok (map (fun pt : nat * Run A =>
                 match snd pt (spawn (fst pt) (fst s), []) with
                 | inl e => inl e
                 | inr (a, _) => inr a
                 end) workers,
          (fst s,
           snd s ++ map (fun pt : nat * Run A => EvProcessStart (fst pt))
                        workers)).
Proof.
  induction workers as [|[pid target] rest IH]; intros s.
  - simpl. rewrite app_nil_r. destruct s; reflexivity.
  - simpl start_all. cbn [mbind MonadPy_Run mret].
    unfold run_bind at 1. unfold start_process. cbn [ok].
    unfold run_bind at 1. rewrite IH. cbn [ok fst snd]. unfold run_ret.
    simpl. rewrite <- app_assoc. reflexivity.
Qed.

Lemma map_all_inr {A B} (R : A -> B -> Prop) (f : A -> result B) :
  forall l : list A,
    (forall a, In a l -> exists b, f a = inr b /\ R a b) ->
    exists bs, map f l = map inr bs /\ Forall2 R l bs.
Proof.
  induction l as [|a l IH]; intros H.
  - exists []. split; [reflexivity|constructor].
  - destruct (H a (or_introl eq_refl)) as (b & Hb & HR).
    destruct IH as (bs & Hbs & HRs); [intros; apply H; right; assumption|].
    exists (b :: bs). simpl. rewrite Hb, Hbs. split; [reflexivity|].
    constructor; assumption.
Qed.

Lemma merge_messages_eq (msgs : list (list rollout_t * Z * Z)) :
  forall (acc : list rollout_t) (self : MBMRL),
    fold_left
      (fun (acc : list rollout_t * MBMRL) (m : list rollout_t * Z * Z) =>
         let '(rollouts_per_thread, n_model, n_task) := m in
         (fst acc ++ rollouts_per_thread,
          set_stats (add_task_steps n_task)
            (set_stats (add_model_steps n_model) (snd acc))))
      msgs (acc, self)
    = (acc ++ concat (map (fun m => fst (fst m)) msgs),
       counted (Zsum (map snd msgs))
         (Zsum (map (fun m => snd (fst m)) msgs)) self).
Proof.
  induction msgs as [|[[rs nm] nk] msgs IH]; intros acc self.
  - simpl. rewrite app_nil_r, counted_0. reflexivity.
  - simpl fold_left. cbn [fst snd]. rewrite IH. simpl.
    rewrite <- app_assoc. f_equal.
    change (set_stats (add_task_steps nk)
              (set_stats (add_model_steps nm) self))
      with (counted nk nm self).
    apply counted_add.
Qed.

Variable kind : string.

Hypothesis predict_total :
  forall th new st ac,
    length st = length ac -> exists p, predict_next th new st ac = ok p.

Hypothesis loss_total :
  forall th new st ac nx p std,
    predict_next th new st ac = ok p -> length nx = length st ->
    exists l, loss_func kind p nx std = ok l.

Hypothesis queue_perm :
  forall (A : Type) (w : world) (l : list A),
    Permutation (queue_order A w l) l.

(** What the workers with indices below [m] report, when each is given a
    share of [share pid > 0] rollouts. *)
Lemma workers_report (a : worker_args) (share : nat -> Z) (m : nat)
    (s : world * list event) :
  0 <= wa_M a -> wa_loss_type a = kind ->
  exists results : list (list rollout_t * Z * Z),
    map (fun pt : nat * Run (list rollout_t * Z * Z) =>
           match snd pt (spawn (fst pt) (fst s), []) with
           | inl e => inl e
           | inr (x, _) => inr x
           end)
        (map (fun pn : nat * Z =>
                (fst pn, _collect_traj_per_thread (fst pn) a (snd pn)))
             (map (fun pid : nat => (pid, share pid)) (seq 0 m)))
    = map inr results /\
    Zsum (map (fun r => Z.of_nat (length (fst (fst r)))) results)
    = Zsum (map (fun pid => Z.of_nat (range_len (share pid))) (seq 0 m)) /\
    Zsum (map snd results)
    = Zsum (map (fun pid => Z.of_nat (range_len (share pid))) (seq 0 m))
      * Z.max 0 (wa_rollout_len a) /\
    Zsum (map (fun r => snd (fst r)) results)
    = Zsum (map (fun pid => Z.of_nat (range_len (share pid))) (seq 0 m))
      * rollout_cost (wa_rollout_len a) (wa_adaptation_update_num a).
Proof.
  intros HM Hk. rewrite !map_map. cbn [fst snd].
  destruct (map_all_inr
              (fun (pid : nat) (r : list rollout_t * Z * Z) =>
                 length (fst (fst r)) = range_len (share pid) /\
                 snd r = Z.of_nat (range_len (share pid))
                         * Z.max 0 (wa_rollout_len a) /\
                 snd (fst r) = Z.of_nat (range_len (share pid))
                               * rollout_cost (wa_rollout_len a)
                                   (wa_adaptation_update_num a))
              (fun pid : nat =>
                 match _collect_traj_per_thread pid a (share pid)
                         (spawn pid (fst s), []) with
                 | inl e => inl e
                 | inr (x, _) => inr x
                 end)
              (seq 0 m)) as (results & Hmap & HR).
  { intros pid _.
    destruct (collect_traj_per_thread_ok kind predict_total loss_total pid a
                (share pid) (spawn pid (fst s), []) HM Hk)
      as (rs & nm & nk & s' & Hrun & _).
    rewrite Hrun. exists (rs, nm, nk). split; [reflexivity|].
    apply collect_traj_per_thread_effect in Hrun. exact Hrun. }
  exists results. split; [exact Hmap|]. clear Hmap.
  induction HR as [|pid r pids rs (H1 & H2 & H3) _ (IH1 & IH2 & IH3)].
  - repeat split; reflexivity.
  - simpl. rewrite IH1, IH2, IH3, H1, H2, H3. repeat split; ring.
Qed.

Lemma collect_traj_parallel_run (self : MBMRL) (tk : task)
    (s : world * list event) :
  0 < num_threads (cfg self) ->
  0 <= M (cfg self) -> loss_type (cfg self) = kind ->
  exists rollouts,
    _collect_traj_parallel self tk s
    = ok ((rollouts,
           counted
             (Z.of_nat (range_len (rollout_num (cfg self)))
              * Z.max 0 (rollout_len (cfg self)))
             (Z.of_nat (range_len (rollout_num (cfg self)))
              * rollout_cost (rollout_len (cfg self))
                  (adaptation_update_num (cfg self))) self),
          (fst s,
           snd s ++ map EvProcessStart
                      (seq 0 (Z.to_nat (Z.min (num_threads (cfg self))
                                              (rollout_num (cfg self))))))) /\
    length rollouts = range_len (rollout_num (cfg self)).
Proof.
  intros Hnt HM Hk. unfold _collect_traj_parallel.
  destruct (Z.eqb_spec (num_threads (cfg self)) 0) as [|_]; [lia|].
  destruct (Z.ltb_spec (num_threads (cfg self)) 0) as [|_]; [lia|].
  cbn [mbind MonadPy_Run mret].
  destruct (workers_with_work (rollout_num (cfg self))
              (num_threads (cfg self)) Hnt) as [Hws Hsum].
  set (share := fun pid : nat =>
                  rollout_num (cfg self) / num_threads (cfg self)
                  + (if Z.of_nat pid
                        <? rollout_num (cfg self) mod num_threads (cfg self)
                     then 1 else 0)) in *.
  set (m := Z.to_nat (Z.min (num_threads (cfg self))
                            (rollout_num (cfg self)))) in *.
  change (filter (fun pn : nat * Z => 0 <? snd pn)
            (combine
               (seq 0 (length (rollout_nums (rollout_num (cfg self))
                                 (num_threads (cfg self)))))
               (rollout_nums (rollout_num (cfg self))
                  (num_threads (cfg self))))
          = map (fun pid : nat => (pid, share pid)) (seq 0 m)) in Hws.
  assert (Hpos : forall pid, In pid (seq 0 m) -> 0 < share pid).
  { intros pid Hin.
    assert (Hin' : In (pid, share pid)
                     (map (fun pid : nat => (pid, share pid)) (seq 0 m)))
      by (apply in_map_iff; exists pid; split; [reflexivity|exact Hin]).
    rewrite <- Hws in Hin'. apply filter_In in Hin' as [_ Hp].
    apply Z.ltb_lt in Hp. exact Hp. }
  rewrite Hws.
  assert (Hshare : Zsum (map (fun pid => Z.of_nat (range_len (share pid)))
                           (seq 0 m))
                   = Z.of_nat (range_len (rollout_num (cfg self)))).
  { rewrite (Zsum_map_ext_in _ share).
    - rewrite Hsum. unfold range_len. lia.
    - intros pid Hin. specialize (Hpos pid Hin). unfold range_len. lia. }
  erewrite run_bind_ok by apply start_all_eq.
  destruct (workers_report (worker_args_of self tk) share m s HM Hk)
    as (results & Hmap & Hlen & Htask & Hmodel).
  rewrite Hmap. cbn [fst snd].
  erewrite run_bind_ok
    by (unfold queue_get_all; rewrite all_ok_inr; reflexivity).
  cbn [fst].
  pose proof (queue_perm _ (fst s) results) as Hperm.
  rewrite merge_messages_eq. unfold run_ret. cbn [app].
  rewrite (Zsum_perm _ _ (Permutation_map snd Hperm)).
  rewrite (Zsum_perm _ _ (Permutation_map (fun r => snd (fst r)) Hperm)).
  rewrite Htask, Hmodel, Hshare. eexists. split.
  - rewrite !map_map. cbn [fst]. reflexivity.
  - apply Nat2Z.inj. rewrite length_concat_Zsum, map_map.
    rewrite (Zsum_perm _ _
               (Permutation_map (fun r => Z.of_nat (length (fst (fst r))))
                  Hperm)).
    rewrite Hlen. exact Hshare.
Qed.

(** X2. [_adaptation_update] on the object: with an empty window it returns
    [None] and changes nothing; with a window of three equally long,
    non-empty tensors it returns an overlay and the only field it writes is
    [_n_model_steps_total], which grows by [1 + adaptation_update_num] (one
    loss for the first gradient, one per further update).  The base
    parameters, the adaptation rate and the dataset stay as they were. *)
Theorem adaptation_update_counts (self : MBMRL) (th : net)
    (traj : rollout_t) :
  window_ok traj -> loss_type (cfg self) = kind ->
  _adaptation_update self th [] = ok (None, self) /\
  exists d,
    _adaptation_update self th traj
    = ok (Some d,
          counted 0 (adaptation_cost (adaptation_update_num (cfg self)))
            self).
Proof.
  intros Hw Hk. split; [reflexivity|].
  destruct (adaptation_update_ok kind predict_total loss_total self th traj
              Hw Hk) as (d & self' & Hrun & _).
  exists d. rewrite Hrun.
  apply adaptation_update_effect in Hrun. rewrite Hrun.
  destruct Hw as (st & ac & nx & -> & _). reflexivity.
Qed.

(** X3. [_collect_traj], by either path, returns exactly [rollout_num]
    rollouts and advances the counters by the same amounts:
    [_n_task_steps_total] by [rollout_num * rollout_len] and
    [_n_model_steps_total] by
    [rollout_num * (rollout_len - 1) * (1 + adaptation_update_num)] (the
    first step of every rollout does not adapt); numbers below zero count as
    zero.  The worker processes' own counts, merged by the parent in the
    order of arrival, add up to what the serial collector counts. *)
Theorem collect_traj_counts (self : MBMRL) (tk : task)
    (s : world * list event) :
  0 <= M (cfg self) -> loss_type (cfg self) = kind ->
  exists rollouts s',
    _collect_traj self tk s
    = ok ((rollouts,
           counted
             (Z.of_nat (range_len (rollout_num (cfg self)))
              * Z.max 0 (rollout_len (cfg self)))
             (Z.of_nat (range_len (rollout_num (cfg self)))
              * rollout_cost (rollout_len (cfg self))
                  (adaptation_update_num (cfg self))) self), s') /\
    length rollouts = range_len (rollout_num (cfg self)).
Proof.
  intros HM Hk. unfold _collect_traj.
  destruct (Z.gtb_spec (num_threads (cfg self)) 1) as [Hpar|Hser].
  - destruct (collect_traj_parallel_run self tk s ltac:(lia) HM Hk)
      as (rollouts & Hrun & Hlen).
    exists rollouts. eexists. split; [exact Hrun|exact Hlen].
  - destruct (collect_traj_serial_ok kind predict_total loss_total self tk s
                HM Hk) as (rollouts & self' & s' & Hrun & Hlen & _).
    exists rollouts, s'. split; [|exact Hlen].
    rewrite Hrun. apply collect_traj_serial_effect in Hrun.
    rewrite Hrun. reflexivity.
Qed.

(** X4. Parallel collection starts one process per worker that has work,
    that is [min(num_threads, rollout_num)] processes with the indices from
    0 on, in this order; a worker whose share is zero is never started. The
    parent makes no other call, and its own world is left as it was: tasks
    are reset and stepped in the children only. *)
Theorem parallel_collection_processes (self : MBMRL) (tk : task)
    (s : world * list event) :
  1 < num_threads (cfg self) ->
  0 <= M (cfg self) -> loss_type (cfg self) = kind ->
  exists rollouts self',
    _collect_traj self tk s
    = ok ((rollouts, self'),
          (fst s,
           snd s ++ map EvProcessStart
                      (seq 0 (Z.to_nat (Z.min (num_threads (cfg self))
                                              (rollout_num (cfg self))))))).
Proof.
  intros Hnt HM Hk. unfold _collect_traj.
  destruct (Z.gtb_spec (num_threads (cfg self)) 1) as [_|Hser]; [|lia].
  destruct (collect_traj_parallel_run self tk s ltac:(lia) HM Hk)
    as (rollouts & Hrun & _).
  exists rollouts. eexists. exact Hrun.
Qed.

End CollectionCounts.

Lemma rollout_nums_partition_witness :
  0 < 3 /\ rollout_nums 7 3 = [3; 2; 2] /\ Zsum (rollout_nums 7 3) = 7.
Proof.
  assert (H : 0 < 3) by reflexivity. split; [exact H|].
  destruct (rollout_nums_partition 7 3 H) as (Hsplit & _ & Hsum).
  split; [exact Hsplit|exact Hsum].
Defined.

Lemma adaptation_update_counts_witness :
  window_ok window_2 /\
  exists d,
    _adaptation_update agent (theta agent) window_2
    = ok (Some d, counted 0 2 agent).
Proof.
  assert (Hw : window_ok window_2).
  { exists [[0%Q]; [2%Q]], [[1%Q]; [1%Q]], [[2%Q]; [4%Q]].
    repeat split; discriminate. }
  split; [exact Hw|].
  destruct (adaptation_update_counts "mse" toy_predict_total toy_loss_total
              agent (theta agent) window_2 Hw eq_refl) as [_ H].
  exact H.
Defined.

(** Serial collection on the instance: 3 rollouts of 5 steps, 15 task steps
    and 3 * 4 * 2 = 24 losses. *)
Lemma collect_traj_counts_witness :
  0 <= M (cfg agent) /\
  exists rollouts s',
    _collect_traj agent tt toy_start = ok ((rollouts, counted 15 24 agent), s')
    /\ length rollouts = 3%nat.
Proof.
  assert (HM : 0 <= M (cfg agent)) by (apply Z.leb_le; reflexivity).
  split; [exact HM|].
  exact (collect_traj_counts "mse" toy_predict_total toy_loss_total
           toy_queue_perm agent tt toy_start HM eq_refl).
Defined.

(** Two threads for three rollouts: both workers are started. *)
Lemma parallel_collection_processes_witness :
  1 < num_threads (cfg parallel_agent) /\ 0 <= M (cfg parallel_agent) /\
  exists rollouts self',
    _collect_traj parallel_agent tt toy_start
    = ok ((rollouts, self'),
          (fst toy_start, [EvProcessStart 0; EvProcessStart 1])).
Proof.
  assert (Hnt : 1 < num_threads (cfg parallel_agent)) by reflexivity.
  assert (HM : 0 <= M (cfg parallel_agent))
    by (apply Z.leb_le; reflexivity).
  split; [exact Hnt|]. split; [exact HM|].
  exact (parallel_collection_processes "mse" toy_predict_total
           toy_loss_total toy_queue_perm parallel_agent tt toy_start Hnt HM
           eq_refl).
Defined.

(** ** What evaluation returns *)

Section EvaluationShape.

Context {T : Torch} {W : World}.


Variable remaining : task -> world -> nat.

Hypothesis plan_keeps :
  forall tk th st o w,
    (remaining tk (fst (ctrl_plan th st o w)) <= remaining tk w)%nat.

Hypothesis step_decreases :
  forall tk a w,
    snd (snd (env_step tk a w)) = false ->
    (remaining tk (fst (env_step tk a w)) < remaining tk w)%nat.

Variable fuel : nat.

Hypothesis reset_bound :
  forall tk w, (remaining tk (fst (env_reset tk w)) < fuel)%nat.

Hypothesis queue_perm :
  forall (A : Type) (w : world) (l : list A),
    Permutation (queue_order A w l) l.


End EvaluationShape.

(** ** Appending to a rollout *)

(** X6. A rollout built from the empty list by appending transitions holds,
    in its three sequences, the states, the actions and the next states of
    the transitions in their order of arrival; appending to a list of one
    or two sequences is an [IndexError]. *)
Theorem aggregate_rollout_history (ts : list transition) (t : transition)
    (r0 r1 : tensor) :
  aggregate_all (ts ++ [t]) []
  = ok [map tr_state (ts ++ [t]); map tr_action (ts ++ [t]);
        map tr_next_state (ts ++ [t])] /\
  aggregate_all [t] [r0] = throw IndexError /\
  aggregate_all [t] [r0; r1] = throw IndexError.
Proof.
  split; [|split; destruct t as [[st ac] nx]; reflexivity].
  assert (H : forall (ts : list transition) (a b c : tensor),
             aggregate_all ts [a; b; c]
             = ok [a ++ map tr_state ts; b ++ map tr_action ts;
                   c ++ map tr_next_state ts]).
  { clear. induction ts as [|[[st ac] nx] ts IH]; intros a b c.
    - simpl. rewrite !app_nil_r. reflexivity.
    - simpl. rewrite IH, <- !app_assoc. reflexivity. }
  destruct (ts ++ [t]) as [|[[st ac] nx] ts'] eqn:E.
  - destruct ts; discriminate.
  - simpl. rewrite H. reflexivity.
Qed.

(** ** The outcomes of sampling *)

Lemma outcomes_bind {A B} (d : Dist A) (k : A -> Dist B) (o : result B) :
  In o (outcomes (dist_bind d k)) <->
  (exists e, o = inl e /\ In (inl e) (outcomes d)) \/
  (exists a, In (inr a) (outcomes d) /\ In o (outcomes (k a))).
Proof.
  unfold outcomes, dist_bind. rewrite in_map_iff. split.
  - intros ([q o'] & Ho & Hin). simpl in Ho. subst o'.
    apply in_flat_map in Hin as ([p r] & Hd & Hin). simpl in Hin.
    destruct r as [e|a].
    + destruct Hin as [Heq|[]]. injection Heq as _ <-.
      left. exists e. split; [reflexivity|].
      apply in_map_iff. exists (p, inl e). split; [reflexivity|exact Hd].
    + right. exists a. split.
      * apply in_map_iff. exists (p, inr a). split; [reflexivity|exact Hd].
      * apply in_map_iff in Hin as ([q' o'] & Heq & Hin).
        injection Heq as _ ->.
        apply in_map_iff. exists (q', o). split; [reflexivity|exact Hin].
  - intros [(e & -> & Hin)|(a & Hin & Hk)].
    + apply in_map_iff in Hin as ([p r] & Hr & Hin). simpl in Hr. subst r.
      exists (p, inl e). split; [reflexivity|].
      apply in_flat_map. exists (p, inl e). split; [exact Hin|].
      left. reflexivity.
    + apply in_map_iff in Hin as ([p r] & Hr & Hin). simpl in Hr. subst r.
      apply in_map_iff in Hk as ([q o'] & Ho & Hk). simpl in Ho. subst o'.
      exists ((p * q)%Q, o). split; [reflexivity|].
      apply in_flat_map. exists (p, inr a). split; [exact Hin|].
      simpl. apply in_map_iff. exists (q, o). split; [reflexivity|exact Hk].
Qed.

Lemma outcomes_choice (n : Z) (o : result Z) :
  In o (outcomes (dist_choice n)) <->
  (n <= 0 /\ o = inl ValueError) \/ (exists i, 0 <= i < n /\ o = inr i).
Proof.
  unfold outcomes, dist_choice. destruct (Z.leb_spec n 0) as [Hn|Hn].
  - simpl. split.
    + intros [<-|[]]. left. split; [exact Hn|reflexivity].
    + intros [[_ ->]|(i & Hi & _)]; [left; reflexivity|lia].
  - rewrite map_map. cbn [snd]. rewrite in_map_iff. split.
    + intros (i & <- & Hin). apply in_seq in Hin. right.
      exists (Z.of_nat i). split; [lia|reflexivity].
    + intros [[Hle _]|(i & Hi & ->)]; [lia|].
      exists (Z.to_nat i). split; [f_equal; lia|]. apply in_seq. lia.
Qed.

Lemma outcomes_lift {A} (r : result A) :
  outcomes (mlift (M := Dist) r) = [r].
Proof. destruct r; reflexivity. Qed.

Lemma outcomes_nonempty_bind {A B} (d : Dist A) (k : A -> Dist B) :
  outcomes d <> [] -> (forall a, outcomes (k a) <> []) ->
  outcomes (dist_bind d k) <> [].
Proof.
  intros Hd Hk. destruct d as [|[p r] d]; [exfalso; apply Hd; reflexivity|].
  unfold outcomes, dist_bind. simpl. destruct r as [e|a]; [discriminate|].
  specialize (Hk a). unfold outcomes in Hk.
  destruct (k a) as [|x l]; [exfalso; apply Hk; reflexivity|discriminate].
Qed.

Lemma outcomes_choice_nonempty (n : Z) : outcomes (dist_choice n) <> [].
Proof.
  unfold outcomes, dist_choice. destruct (Z.leb_spec n 0) as [Hn|Hn];
    [discriminate|].
  destruct (Z.to_nat n) as [|k] eqn:E; [lia|discriminate].
Qed.

Lemma py_index_In {A} (l : list A) (i : Z) (a : A) :
  py_index l i = ok a -> In a l.
Proof.
  unfold py_index. destruct (i <? 0); [discriminate|].
  destruct (nth_error l (Z.to_nat i)) as [x|] eqn:E; [|discriminate].
  intros H. injection H as <-. eapply nth_error_In. exact E.
Qed.

Lemma py_index_total {A} (l : list A) (i : Z) :
  0 <= i < len l -> exists a, py_index l i = ok a /\ In a l.
Proof.
  intros Hi. unfold py_index, len in *.
  destruct (Z.ltb_spec i 0); [lia|].
  destruct (nth_error l (Z.to_nat i)) as [x|] eqn:E.
  - exists x. split; [reflexivity|]. eapply nth_error_In. exact E.
  - apply nth_error_None in E. lia.
Qed.

Lemma In_py_index {A} (l : list A) (a : A) :
  In a l -> exists i, 0 <= i < len l /\ py_index l i = ok a.
Proof.
  intros Hin. apply In_nth_error in Hin as [n Hn].
  exists (Z.of_nat n). unfold py_index, len.
  assert (n < length l)%nat by (apply nth_error_Some; congruence).
  split; [lia|]. destruct (Z.ltb_spec (Z.of_nat n) 0); [lia|].
  rewrite Nat2Z.id, Hn. reflexivity.
Qed.

Lemma py_slice_window {A} (i n : Z) (l : list A) :
  0 <= i -> 0 <= n -> i + n <= len l ->
  py_slice (Some i) (Some (i + n)) l
  = firstn (Z.to_nat n) (skipn (Z.to_nat i) l) /\
  length (firstn (Z.to_nat n) (skipn (Z.to_nat i) l)) = Z.to_nat n.
Proof.
  intros Hi Hn Hl. unfold len in Hl. unfold py_slice, clamp_index.
  destruct (Z.ltb_spec i 0); [lia|].
  destruct (Z.ltb_spec (i + n) 0); [lia|].
  rewrite !Z.min_l by lia.
  replace (i + n - i) with n by lia. split; [reflexivity|].
  rewrite length_firstn, length_skipn. lia.
Qed.

Section SamplingOutcomes.

Context {T : Torch} {W : World}.

Lemma outcomes_sample_window (self : MBMRL) (o : result rollout_t) :
  In o (outcomes (sample_window (Mo := Dist) self)) <->
  (items (dataset self) = [] /\ o = inl ValueError) \/
  (exists rollout,
      In rollout (items (dataset self)) /\
      ((rollout = [] /\ o = inl IndexError) \/
       exists r0 rest,
         rollout = r0 :: rest /\
         ((len r0 + 1 - M (cfg self) - K (cfg self) <= 0 /\
           o = inl ValueError) \/
          exists i,
            0 <= i < len r0 + 1 - M (cfg self) - K (cfg self) /\
            o = inr (map (py_slice (Some i)
                            (Some (i + M (cfg self) + K (cfg self))))
                         rollout)))).
Proof.
  unfold sample_window. cbn [mbind MonadPy_Dist np_random_choice mret].
  rewrite outcomes_bind. split.
  - intros [(e & -> & Hin)|(i & Hin & Hk)].
    + apply outcomes_choice in Hin as [[Hn He]|(i & _ & Hi)];
        [|discriminate].
      injection He as ->. left. split; [|reflexivity].
      unfold deque_len in Hn. destruct (items (dataset self));
        [reflexivity|simpl in Hn; lia].
    + apply outcomes_choice in Hin as [[_ Hi]|(j & Hj & Hi)];
        [discriminate|]. injection Hi as ->.
      destruct (py_index_total (items (dataset self)) j Hj)
        as (rollout & Hidx & Hin).
      rewrite Hidx in Hk. cbn [mlift mret MonadPy_Dist] in Hk.
      right. exists rollout. split; [exact Hin|].
      apply outcomes_bind in Hk as [(e & _ & [He|[]])|(r & [Hr|[]] & Hk)];
        [discriminate|]. injection Hr as <-.
      destruct rollout as [|r0 rest].
      * left. split; [reflexivity|].
        apply outcomes_bind in Hk
          as [(e & -> & Hs)|(st & Hs & _)].
        -- unfold draw_start_idx in Hs. simpl in Hs.
           destruct Hs as [Hs|[]]. injection Hs as <-. reflexivity.
        -- unfold draw_start_idx in Hs. simpl in Hs.
           destruct Hs as [Hs|[]]. discriminate.
      * right. exists r0, rest. split; [reflexivity|].
        apply outcomes_bind in Hk
          as [(e & -> & Hs)|(st & Hs & Hk)].
        -- unfold outcomes in Hs. rewrite draw_start_idx_dist, map_map in Hs.
           cbn [snd] in Hs. apply outcomes_choice in Hs
             as [[Hn He]|(i & _ & Hi)]; [|discriminate].
           injection He as ->. left. split; [exact Hn|reflexivity].
        -- unfold outcomes in Hs. rewrite draw_start_idx_dist, map_map in Hs.
           cbn [snd] in Hs. apply outcomes_choice in Hs
             as [[_ He]|(i & Hi & Hs)]; [discriminate|].
           injection Hs as ->. destruct Hk as [Hk|[]].
           right. exists i. split; [exact Hi|]. symmetry. exact Hk.
  - intros [[Hnil ->]|(rollout & Hin & Hcase)].
    + left. exists ValueError. split; [reflexivity|].
      apply outcomes_choice. left. split; [|reflexivity].
      unfold deque_len. rewrite Hnil. simpl. lia.
    + right. apply In_py_index in Hin as (j & Hj & Hidx).
      exists j. split.
      { apply outcomes_choice. right. exists j. split; [exact Hj|reflexivity]. }
      rewrite Hidx. cbn [mlift mret MonadPy_Dist].
      apply outcomes_bind. right. exists rollout.
      split; [left; reflexivity|].
      destruct Hcase as [[-> ->]|(r0 & rest & -> & Hcase)].
      * apply outcomes_bind. left. exists IndexError.
        split; [reflexivity|]. left. reflexivity.
      * apply outcomes_bind.
        destruct Hcase as [[Hn ->]|(i & Hi & ->)].
        -- left. exists ValueError. split; [reflexivity|].
           unfold outcomes. rewrite draw_start_idx_dist, map_map.
           cbn [snd]. apply outcomes_choice. left.
           split; [exact Hn|reflexivity].
        -- right. exists i. split; [|left; reflexivity].
           unfold outcomes. rewrite draw_start_idx_dist, map_map.
           cbn [snd]. apply outcomes_choice. right.
           exists i. split; [exact Hi|reflexivity].
Qed.

Lemma outcomes_sample_traj_1 (self : MBMRL) (o : result rollout_t) :
  In o (outcomes (_sample_traj (Mo := Dist) self 1)) <->
  In o (outcomes (sample_window (Mo := Dist) self)).
Proof.
  unfold _sample_traj. simpl sample_loop.
  cbn [mbind MonadPy_Dist mret]. rewrite outcomes_bind. split.
  - intros [(e & -> & Hin)|(traj & Hin & Hk)]; [exact Hin|].
    destruct Hk as [Hk|[]]. subst o. exact Hin.
  - intros Hin. destruct o as [e|traj].
    + left. exists e. split; [reflexivity|exact Hin].
    + right. exists traj. split; [exact Hin|]. left. reflexivity.
Qed.

Lemma sample_loop_fails (self : MBMRL) (n : nat) (o : result rollout_t) :
  (forall o', In o' (outcomes (sample_window (Mo := Dist) self)) <->
              o' = inl ValueError) ->
  In o (outcomes (sample_loop (Mo := Dist) (S n) self [])) <->
  o = inl ValueError.
Proof.
  intros Hw. simpl sample_loop. cbn [mbind MonadPy_Dist].
  rewrite outcomes_bind. split.
  - intros [(e & -> & Hin)|(traj & Hin & _)].
    + apply Hw in Hin. exact Hin.
    + apply Hw in Hin. discriminate.
  - intros ->. left. exists ValueError. split; [reflexivity|].
    apply Hw. reflexivity.
Qed.

(** X7. [_sample_traj] on a dataset whose rollouts all hold [L] steps, with
    [0 <= M + K <= L] and at least one rollout stored: sampling never
    fails, and its outcomes are exactly the windows
    [[r[i : i + M + K] for r in rollout]] of the stored rollouts, for
    [0 <= i <= L - M - K]; each is made of three sequences of exactly
    [M + K] consecutive rows of one rollout. *)
Theorem sample_traj_window (self : MBMRL) (L : Z) :
  items (dataset self) <> [] ->
  Forall (full_rollout L) (items (dataset self)) ->
  0 <= M (cfg self) + K (cfg self) <= L ->
  (forall o,
      In o (outcomes (_sample_traj (Mo := Dist) self 1)) <->
      exists rollout i,
        In rollout (items (dataset self)) /\
        0 <= i <= L - (M (cfg self) + K (cfg self)) /\
        o = inr (window_at i (M (cfg self) + K (cfg self)) rollout)) /\
  (forall rollout i,
      In rollout (items (dataset self)) ->
      0 <= i <= L - (M (cfg self) + K (cfg self)) ->
      full_rollout (M (cfg self) + K (cfg self))
        (window_at i (M (cfg self) + K (cfg self)) rollout)).
Proof.
  intros Hne Hfull HMK.
  assert (Hslice : forall rollout i,
             In rollout (items (dataset self)) ->
             0 <= i <= L - (M (cfg self) + K (cfg self)) ->
             map (py_slice (Some i)
                    (Some (i + M (cfg self) + K (cfg self)))) rollout
             = window_at i (M (cfg self) + K (cfg self)) rollout /\
             full_rollout (M (cfg self) + K (cfg self))
               (window_at i (M (cfg self) + K (cfg self)) rollout)).
  { intros rollout i Hin Hi.
    pose proof (proj1 (Forall_forall _ _) Hfull rollout Hin)
      as (st & ac & nx & -> & Hs & Ha & Hn).
    rewrite <- Z.add_assoc. unfold window_at. cbn [map].
    destruct (py_slice_window i (M (cfg self) + K (cfg self)) st)
      as [-> Ls]; [lia|lia|lia|].
    destruct (py_slice_window i (M (cfg self) + K (cfg self)) ac)
      as [-> La]; [lia|lia|lia|].
    destruct (py_slice_window i (M (cfg self) + K (cfg self)) nx)
      as [-> Ln]; [lia|lia|lia|].
    split; [reflexivity|]. do 3 eexists. split; [reflexivity|].
    unfold len. rewrite Ls, La, Ln. lia. }
  split; [|intros rollout i Hin Hi; apply Hslice; assumption].
  intros o. rewrite outcomes_sample_traj_1, outcomes_sample_window. split.
  - intros [[Hnil _]|(rollout & Hin & Hcase)]; [congruence|].
    pose proof (proj1 (Forall_forall _ _) Hfull rollout Hin)
      as (st & ac & nx & Hr & Hs & _).
    destruct Hcase as [[-> _]|(r0 & rest & Hr' & Hcase)]; [discriminate|].
    rewrite Hr in Hr'. injection Hr' as <- <-.
    destruct Hcase as [[Hn _]|(i & Hi & ->)]; [lia|].
    exists rollout, i. split; [exact Hin|]. split; [lia|].
    apply (f_equal inr). apply Hslice; [exact Hin|lia].
  - intros (rollout & i & Hin & Hi & ->). right. exists rollout.
    split; [exact Hin|]. right.
    pose proof (proj1 (Forall_forall _ _) Hfull rollout Hin)
      as (st & ac & nx & Hr & Hs & _).
    exists st, [ac; nx]. split; [exact Hr|]. right. exists i.
    split; [lia|]. apply (f_equal inr). symmetry. apply Hslice; assumption.
Qed.

(** X8. [_sample_traj] fails with [ValueError], whatever is drawn, when the
    stored rollouts hold fewer than [M + K] steps; the same happens when
    nothing is stored, for instance with [dataset_size = 0]. *)
Theorem sample_traj_short_rollouts (self : MBMRL) (L num : Z) :
  0 < num ->
  Forall (full_rollout L) (items (dataset self)) ->
  L < M (cfg self) + K (cfg self) ->
  (forall o,
      In o (outcomes (_sample_traj (Mo := Dist) self num)) <->
      o = inl ValueError) /\
  (items (dataset self) = [] ->
   forall s, _sample_traj (Mo := Run) self num s = throw ValueError).
Proof.
  intros Hnum Hfull HL. split.
  - intros o. unfold _sample_traj, range_len.
    destruct (Z.to_nat num) as [|n] eqn:E; [lia|].
    apply sample_loop_fails. intros o'.
    rewrite outcomes_sample_window. split.
    + intros [[_ ->]|(rollout & Hin & Hcase)]; [reflexivity|].
      pose proof (proj1 (Forall_forall _ _) Hfull rollout Hin)
        as (st & ac & nx & Hr & Hs & _).
      destruct Hcase as [[-> _]|(r0 & rest & Hr' & Hcase)]; [discriminate|].
      rewrite Hr in Hr'. injection Hr' as <- <-.
      destruct Hcase as [[_ ->]|(i & Hi & _)]; [reflexivity|lia].
    + intros ->. destruct (items (dataset self)) as [|rollout rest] eqn:Hit.
      * left. split; reflexivity.
      * right. exists rollout. split; [left; reflexivity|]. right.
        pose proof (Forall_inv Hfull) as (st & ac & nx & Hr & Hs & _).
        exists st, [ac; nx]. split; [exact Hr|]. left.
        split; [lia|reflexivity].
  - intros Hnil s. unfold _sample_traj, range_len.
    destruct (Z.to_nat num) as [|n] eqn:E; [lia|].
    simpl sample_loop. unfold sample_window.
    cbn [mbind MonadPy_Run np_random_choice].
    unfold run_bind, run_choice, deque_len. rewrite Hnil. reflexivity.
Qed.

End SamplingOutcomes.

(** ** The counters over a whole run *)

Section AccountingFacts.

Context {T : Torch} {W : World}.

Lemma advanced_refl (self : MBMRL) : advanced 0 0 0 self self.
Proof. unfold advanced. repeat split; lia. Qed.

Lemma advanced_trans (a b c a' b' c' : Z) (x y z : MBMRL) :
  advanced a b c x y -> advanced a' b' c' y z ->
  advanced (a + a') (b + b') (c + c') x z.
Proof.
  unfold advanced.
  intros (H1 & H2 & H3 & H4 & H5 & H6) (G1 & G2 & G3 & G4 & G5 & G6).
  repeat split; try congruence; lia.
Qed.

Lemma advanced_counted (a b : Z) (self : MBMRL) :
  advanced a b 0 self (counted a b self).
Proof. unfold advanced. simpl. repeat split; lia. Qed.

Lemma advanced_eq (a b c a' b' c' : Z) (x y : MBMRL) :
  advanced a b c x y -> a = a' -> b = b' -> c = c' -> advanced a' b' c' x y.
Proof. intros H -> -> ->. exact H. Qed.

Lemma all_ok_inv {A} :
  forall (l : list (result A)) (l' : list A),
    all_ok l = Some l' -> l = map inr l'.
Proof.
  induction l as [|[e|a] l IH]; intros l' H; simpl in H.
  - injection H as <-. reflexivity.
  - discriminate.
  - destruct (all_ok l) as [l0|]; [|discriminate].
    injection H as <-. simpl. rewrite (IH l0 eq_refl). reflexivity.
Qed.

Lemma map_inr_inv {A B} (R : A -> B -> Prop) (f : A -> result B) :
  forall (l : list A) (bs : list B),
    map f l = map inr bs ->
    (forall a b, In a l -> f a = inr b -> R a b) ->
    Forall2 R l bs.
Proof.
  induction l as [|a l IH]; intros [|b bs] H HR; try discriminate.
  - constructor.
  - simpl in H. injection H as Hb Hbs. constructor.
    + apply HR; [left; reflexivity|exact Hb].
    + apply IH; [exact Hbs|]. intros; apply HR; [right|]; assumption.
Qed.

Hypothesis queue_perm :
  forall (A : Type) (w : world) (l : list A),
    Permutation (queue_order A w l) l.

Lemma collect_traj_parallel_effect (self self' : MBMRL) (tk : task)
    (rs : list rollout_t) (s s' : world * list event) :
  0 < num_threads (cfg self) ->
  _collect_traj_parallel self tk s = ok ((rs, self'), s') ->
  self' = counted
            (Z.of_nat (range_len (rollout_num (cfg self)))
             * Z.max 0 (rollout_len (cfg self)))
            (Z.of_nat (range_len (rollout_num (cfg self)))
             * rollout_cost (rollout_len (cfg self))
                 (adaptation_update_num (cfg self))) self.
Proof.
  intros Hnt. unfold _collect_traj_parallel.
  destruct (Z.eqb_spec (num_threads (cfg self)) 0) as [|_]; [lia|].
  destruct (Z.ltb_spec (num_threads (cfg self)) 0) as [|_]; [lia|].
  cbn [mbind MonadPy_Run mret].
  destruct (workers_with_work (rollout_num (cfg self))
              (num_threads (cfg self)) Hnt) as [Hws Hsum].
  set (share := fun pid : nat =>
                  rollout_num (cfg self) / num_threads (cfg self)
                  + (if Z.of_nat pid
                        <? rollout_num (cfg self) mod num_threads (cfg self)
                     then 1 else 0)) in *.
  set (m := Z.to_nat (Z.min (num_threads (cfg self))
                            (rollout_num (cfg self)))) in *.
  change (filter (fun pn : nat * Z => 0 <? snd pn)
            (combine
               (seq 0 (length (rollout_nums (rollout_num (cfg self))
                                 (num_threads (cfg self)))))
               (rollout_nums (rollout_num (cfg self))
                  (num_threads (cfg self))))
          = map (fun pid : nat => (pid, share pid)) (seq 0 m)) in Hws.
  assert (Hpos : forall pid, In pid (seq 0 m) -> 0 < share pid).
  { intros pid Hin.
    assert (Hin' : In (pid, share pid)
                     (map (fun pid : nat => (pid, share pid)) (seq 0 m)))
      by (apply in_map_iff; exists pid; split; [reflexivity|exact Hin]).
    rewrite <- Hws in Hin'. apply filter_In in Hin' as [_ Hp].
    apply Z.ltb_lt in Hp. exact Hp. }
  assert (Hshare : Zsum (map (fun pid => Z.of_nat (range_len (share pid)))
                           (seq 0 m))
                   = Z.of_nat (range_len (rollout_num (cfg self)))).
  { rewrite (Zsum_map_ext_in _ share).
    - rewrite Hsum. unfold range_len. lia.
    - intros pid Hin. specialize (Hpos pid Hin). unfold range_len. lia. }
  rewrite Hws. intros H.
  apply run_bind_inv in H as (msgs & s1 & Hstart & H).
  rewrite start_all_eq in Hstart. injection Hstart as <- <-.
  apply run_bind_inv in H as (msgs' & s2 & Hq & H).
  unfold queue_get_all in Hq.
  match type of Hq with
  | context [all_ok ?l] => destruct (all_ok l) as [results|] eqn:Hall
  end; [|discriminate].
  injection Hq as <- <-. apply all_ok_inv in Hall.
  rewrite !map_map in Hall. cbn [fst snd] in Hall.
  eapply (map_inr_inv
            (fun (pid : nat) (r : list rollout_t * Z * Z) =>
               snd r = Z.of_nat (range_len (share pid))
                       * Z.max 0 (rollout_len (cfg self)) /\
               snd (fst r) = Z.of_nat (range_len (share pid))
                             * rollout_cost (rollout_len (cfg self))
                                 (adaptation_update_num (cfg self))))
    in Hall.
  2:{ intros pid [[x nm] nk] _ Hrun.
      destruct (_collect_traj_per_thread pid (worker_args_of self tk)
                  (share pid) (spawn pid (fst s), []))
        as [e|[[[x' nm'] nk'] s0]] eqn:E; [discriminate|].
      injection Hrun as <- <- <-.
      apply collect_traj_per_thread_effect in E as (_ & E1 & E2).
      split; [exact E1|exact E2]. }
  pose proof (queue_perm _ (fst s) results) as Hperm. cbn [fst] in H.
  rewrite merge_messages_eq in H. unfold run_ret in H.
  injection H as _ <- _.
  rewrite (Zsum_perm _ _ (Permutation_map snd Hperm)).
  rewrite (Zsum_perm _ _ (Permutation_map (fun r => snd (fst r)) Hperm)).
  assert (Hsums :
            Zsum (map snd results)
            = Zsum (map (fun pid => Z.of_nat (range_len (share pid)))
                      (seq 0 m)) * Z.max 0 (rollout_len (cfg self)) /\
            Zsum (map (fun r => snd (fst r)) results)
            = Zsum (map (fun pid => Z.of_nat (range_len (share pid)))
                      (seq 0 m))
              * rollout_cost (rollout_len (cfg self))
                  (adaptation_update_num (cfg self))).
  { clear - Hall. induction Hall as [|pid r pids rs' (H2 & H3) _ (IH2 & IH3)].
    - split; reflexivity.
    - simpl. rewrite IH2, IH3, H2, H3. split; ring. }
  destruct Hsums as [-> ->]. rewrite Hshare. reflexivity.
Qed.

Lemma collect_traj_effect (self self' : MBMRL) (tk : task)
    (rs : list rollout_t) (s s' : world * list event) :
  _collect_traj self tk s = ok ((rs, self'), s') ->
  advanced
    (Z.of_nat (range_len (rollout_num (cfg self)))
     * Z.max 0 (rollout_len (cfg self)))
    (Z.of_nat (range_len (rollout_num (cfg self)))
     * rollout_cost (rollout_len (cfg self))
         (adaptation_update_num (cfg self))) 0 self self'.
Proof.
  unfold _collect_traj.
  destruct (Z.gtb_spec (num_threads (cfg self)) 1) as [Hpar|Hser]; intros H.
  - apply collect_traj_parallel_effect in H; [|lia]. rewrite H.
    apply advanced_counted.
  - apply collect_traj_serial_effect in H. rewrite H.
    apply advanced_counted.
Qed.

Lemma extend_and_shuffle_effect (self self' : MBMRL)
    (rollouts : list rollout_t) (s s' : world * list event) :
  extend_and_shuffle self rollouts s = ok (self', s') ->
  advanced 0 0 0 self self'.
Proof.
  unfold extend_and_shuffle. intros H.
  apply run_bind_inv in H as (l & s1 & _ & H). injection H as <- _.
  unfold advanced. simpl. rewrite deque_extend_maxlen.
  repeat split; lia.
Qed.

Lemma sample_traj_run_nonempty (self : MBMRL) (traj : rollout_t)
    (s s' : world * list event) :
  _sample_traj (Mo := Run) self 1 s = ok (traj, s') -> traj <> [].
Proof.
  unfold _sample_traj. simpl sample_loop. intros H.
  apply run_bind_inv in H as (traj0 & s1 & H1 & H).
  injection H as <- _. unfold sample_window in H1.
  apply run_bind_inv in H1 as (i & s2 & _ & H1).
  apply run_bind_inv in H1 as (rollout & s3 & _ & H1).
  apply run_bind_inv in H1 as (start & s4 & Hd & H1).
  injection H1 as <- _. unfold draw_start_idx in Hd.
  apply run_bind_inv in Hd as (r0 & s5 & Hd & _).
  apply mlift_inv in Hd as [Hd _].
  destruct rollout; [discriminate|]. discriminate.
Qed.

Lemma post_adaptation_loss_effect (self self' : MBMRL) (traj : rollout_t)
    (l : scalar) :
  traj <> [] ->
  post_adaptation_loss self traj = ok (l, self') ->
  self' = counted 0 (meta_cost (adaptation_update_num (cfg self))) self.
Proof.
  intros Hne. unfold post_adaptation_loss.
  destruct (_adaptation_update self (theta self)
              (adaptation_window (M (cfg self)) traj))
    as [e|[o self1]] eqn:E; simpl; [discriminate|].
  intros H. apply compute_adaptation_loss_effect in H.
  apply adaptation_update_effect in E. rewrite H, E, counted_add.
  unfold meta_cost. destruct traj; [congruence|]. reflexivity.
Qed.

Lemma meta_losses_effect :
  forall (n : nat) (self self' : MBMRL) (acc ls : list scalar)
         (s s' : world * list event),
    meta_losses n self acc s = ok ((ls, self'), s') ->
    self' = counted 0
              (Z.of_nat n * meta_cost (adaptation_update_num (cfg self)))
              self.
Proof.
  induction n as [|n IH]; intros self self' acc ls s s' H.
  - injection H as _ <- _. symmetry. apply counted_0.
  - simpl meta_losses in H.
    apply run_bind_inv in H as (traj & s1 & Ht & H).
    apply sample_traj_run_nonempty in Ht.
    apply run_bind_inv in H as ([l self1] & s2 & Hp & H).
    apply mlift_inv in Hp as [Hp ->].
    apply post_adaptation_loss_effect in Hp; [|exact Ht].
    apply IH in H. rewrite H, Hp, counted_cfg, counted_add.
    f_equal; lia.
Qed.

Lemma meta_update_effect (self : MBMRL) (l : scalar) :
  advanced 0 0 0 self (_meta_update self l).
Proof.
  unfold _meta_update.
  destruct (backward l (theta self) (phi self)) as [g_theta g_phi].
  destruct (adam_step (meta_optimizer self) _ g_theta) as [mo ps].
  destruct (adam_step (lr_optimizer self) _ _) as [lo ph].
  unfold advanced. simpl. repeat split; lia.
Qed.

Lemma evaluate_effect (fuel : nat) (self self' : MBMRL) (r : list Q)
    (s s' : world * list event) :
  evaluate fuel self s = ok ((r, self'), s') -> advanced 0 0 0 self self'.
Proof.
  unfold evaluate. intros H.
  apply run_bind_inv in H as (r' & s1 & _ & H). injection H as _ <- _.
  unfold advanced. simpl. repeat split; lia.
Qed.

Lemma debug_collection_effect (i : Z) (self self' : MBMRL)
    (s s' : world * list event) :
  debug_collection i self s = ok (self', s') ->
  advanced
    ((if i mod task_sample_frequency (cfg self) =? 0 then 1 else 0)
     * (Z.of_nat (range_len (rollout_num (cfg self)))
        * Z.max 0 (rollout_len (cfg self))))
    ((if i mod task_sample_frequency (cfg self) =? 0 then 1 else 0)
     * (Z.of_nat (range_len (rollout_num (cfg self)))
        * rollout_cost (rollout_len (cfg self))
            (adaptation_update_num (cfg self)))) 0 self self'.
Proof.
  unfold debug_collection. intros H.
  apply run_bind_inv in H as (r & s1 & Hr & H).
  apply mlift_inv in Hr as [Hr ->]. unfold py_mod in Hr.
  destruct (task_sample_frequency (cfg self) =? 0); [discriminate|].
  injection Hr as <-.
  destruct (i mod task_sample_frequency (cfg self) =? 0).
  - apply run_bind_inv in H as (tk & s2 & _ & H).
    apply run_bind_inv in H as ([rs self1] & s3 & Hc & H).
    apply collect_traj_effect in Hc. apply extend_and_shuffle_effect in H.
    eapply advanced_eq; [eapply advanced_trans; eassumption|lia|lia|lia].
  - injection H as <- _.
    eapply advanced_eq; [apply advanced_refl|lia|lia|lia].
Qed.

Lemma debug_tail_effect (fuel : nat) (i : Z) (self self' : MBMRL)
    (s s' : world * list event) :
  debug_tail fuel i self s = ok (self', s') ->
  advanced 0
    (Z.of_nat (range_len (task_sample_num (cfg self)))
     * meta_cost (adaptation_update_num (cfg self))) 0 self self'.
Proof.
  unfold debug_tail. intros H.
  apply run_bind_inv in H as ([ls self1] & s1 & Hm & H).
  apply meta_losses_effect in Hm.
  apply run_bind_inv in H as (l & s2 & _ & H).
  apply run_bind_inv in H as (r & s3 & _ & H).
  assert (Hmid : advanced 0
                   (Z.of_nat (range_len (task_sample_num (cfg self)))
                    * meta_cost (adaptation_update_num (cfg self))) 0 self
                   (_meta_update (set_theta_loss l self1) l)).
  { assert (H1 : advanced 0
                     (Z.of_nat (range_len (task_sample_num (cfg self)))
                      * meta_cost (adaptation_update_num (cfg self))) 0 self
                     (set_theta_loss l self1))
      by (rewrite Hm; unfold advanced; simpl; repeat split; lia).
    eapply advanced_eq;
      [exact (advanced_trans _ _ _ _ _ _ _ _ _ H1
                (meta_update_effect _ l))|lia|lia|lia]. }
  destruct (r =? 0).
  - apply run_bind_inv in H as ([rw self2] & s4 & He & H).
    injection H as <- _. apply evaluate_effect in He.
    eapply advanced_eq; [eapply advanced_trans; eassumption|lia|lia|lia].
  - injection H as <- _. exact Hmid.
Qed.

Lemma record_stats_effect (self self' : MBMRL) (s s' : world * list event) :
  _record_stats self s = ok (self', s') -> advanced 0 0 0 self self'.
Proof.
  unfold _record_stats. intros H. injection H as <- _.
  unfold advanced. simpl. repeat split; lia.
Qed.

(** The amounts one iteration that starts from [self] adds: task steps,
    loss computations. *)
Lemma debug_iter_effect (fuel : nat) (i : Z) (self self' : MBMRL)
    (s s' : world * list event) :
  debug_iter fuel i self s = ok (self', s') ->
  advanced
    ((if i mod task_sample_frequency (cfg self) =? 0 then 1 else 0)
     * (Z.of_nat (range_len (rollout_num (cfg self)))
        * Z.max 0 (rollout_len (cfg self))))
    ((if i mod task_sample_frequency (cfg self) =? 0 then 1 else 0)
     * (Z.of_nat (range_len (rollout_num (cfg self)))
        * rollout_cost (rollout_len (cfg self))
            (adaptation_update_num (cfg self)))
     + Z.of_nat (range_len (task_sample_num (cfg self)))
       * meta_cost (adaptation_update_num (cfg self)))
    0 self self'.
Proof.
  rewrite debug_iter_split. intros H.
  apply run_bind_inv in H as (self1 & s1 & Hc & H).
  apply debug_collection_effect in Hc. apply debug_tail_effect in H.
  pose proof Hc as (Hcfg & _). rewrite Hcfg in H.
  eapply advanced_eq; [eapply advanced_trans; eassumption|lia|lia|lia].
Qed.

Lemma train_iter_effect (fuel : nat) (i : Z) (self self' : MBMRL)
    (s s' : world * list event) :
  train_iter fuel i self s = ok (self', s') ->
  advanced
    ((if i mod task_sample_frequency (cfg self) =? 0 then 1 else 0)
     * (Z.of_nat (range_len (rollout_num (cfg self)))
        * Z.max 0 (rollout_len (cfg self))))
    ((if i mod task_sample_frequency (cfg self) =? 0 then 1 else 0)
     * (Z.of_nat (range_len (rollout_num (cfg self)))
        * rollout_cost (rollout_len (cfg self))
            (adaptation_update_num (cfg self)))
     + Z.of_nat (range_len (task_sample_num (cfg self)))
       * meta_cost (adaptation_update_num (cfg self)))
    (if i mod task_sample_frequency (cfg self) =? 0 then 1 else 0)
    self self'.
Proof.
  rewrite train_iter_split. intros H.
  apply run_bind_inv in H as (self1 & s1 & Hc & H).
  rewrite train_collection_debug in Hc.
  destruct (debug_collection i self s) as [e|[self0 s0]] eqn:Hd;
    [discriminate|].
  simpl in Hc. injection Hc as <- <-.
  apply debug_collection_effect in Hd.
  rewrite train_tail_record in H.
  apply run_bind_inv in H as (self2 & s2 & Ht & H).
  apply debug_tail_effect in Ht. apply record_stats_effect in H.
  pose proof Hd as (Hcfg & _).
  assert (Hmid : advanced 0 0
                   (if i mod task_sample_frequency (cfg self) =? 0
                    then 1 else 0) self0
                   (if i mod task_sample_frequency (cfg self) =? 0
                    then set_stats (add_rollouts 1) self0 else self0)).
  { destruct (i mod task_sample_frequency (cfg self) =? 0).
    - unfold advanced. simpl. repeat split; lia.
    - apply advanced_refl. }
  assert (Hcfg1 : cfg (if i mod task_sample_frequency (cfg self) =? 0
                       then set_stats (add_rollouts 1) self0 else self0)
                  = cfg self).
  { destruct (i mod task_sample_frequency (cfg self) =? 0); exact Hcfg. }
  rewrite Hcfg1 in Ht.
  eapply advanced_eq.
  - eapply advanced_trans; [exact Hd|].
    eapply advanced_trans; [exact Hmid|].
    eapply advanced_trans; [exact Ht|exact H].
  - lia.
  - lia.
  - lia.
Qed.

Lemma iterate_effect (body : Z -> MBMRL -> Run MBMRL) (c : Config)
    (dt dm : Z -> Z) (dr : Z -> Z) :
  (forall i self self' s s',
      cfg self = c -> body i self s = ok (self', s') ->
      advanced (dt i) (dm i) (dr i) self self') ->
  forall (n : nat) (i : Z) (self self' : MBMRL) (s s' : world * list event),
    cfg self = c ->
    iterate body n i self s = ok (self', s') ->
    advanced
      (Zsum (map (fun k => dt (i + Z.of_nat k)) (seq 0 n)))
      (Zsum (map (fun k => dm (i + Z.of_nat k)) (seq 0 n)))
      (Zsum (map (fun k => dr (i + Z.of_nat k)) (seq 0 n))) self self'.
Proof.
  intros Hbody. induction n as [|n IH]; intros i self self' s s' Hc H.
  - injection H as <- _. apply advanced_refl.
  - simpl iterate in H.
    apply run_bind_inv in H as (self1 & s1 & H1 & H).
    apply Hbody in H1; [|exact Hc]. pose proof H1 as (Hcfg & _).
    apply IH in H; [|congruence].
    cbn [seq]. rewrite <- seq_shift. cbn [map Zsum fold_right].
    rewrite !map_map. change (Z.of_nat 0) with 0. rewrite Z.add_0_r.
    eapply advanced_eq; [eapply advanced_trans; eassumption| | |];
      f_equal; apply Zsum_map_ext_in; intros k _; f_equal; lia.
Qed.

Lemma Zsum_map_const {A} (c : Z) (l : list A) :
  Zsum (map (fun _ => c) l) = Z.of_nat (length l) * c.
Proof. rewrite map_const_repeat. apply Zsum_repeat. Qed.

Lemma Zsum_map_add {A} (f g : A -> Z) (l : list A) :
  Zsum (map (fun x => f x + g x) l) = Zsum (map f l) + Zsum (map g l).
Proof. induction l as [|x l IH]; simpl; [reflexivity|rewrite IH; ring]. Qed.

Lemma collections_sum (f : Z) :
  forall (n : nat) (i : Z),
    Zsum (map (fun k => if (i + Z.of_nat k) mod f =? 0 then 1 else 0)
            (seq 0 n))
    = collections f n i.
Proof.
  induction n as [|n IH]; intros i; [reflexivity|].
  cbn [seq]. rewrite <- seq_shift. cbn [map Zsum fold_right collections].
  rewrite map_map. change (Z.of_nat 0) with 0. rewrite Z.add_0_r. f_equal.
  rewrite <- IH. apply Zsum_map_ext_in. intros k _.
  replace (i + 1 + Z.of_nat k) with (i + Z.of_nat (S k)) by lia.
  reflexivity.
Qed.

Lemma collections_step (f i : Z) :
  0 < f ->
  (i + 1 + f - 1) / f - (i + f - 1) / f = if i mod f =? 0 then 1 else 0.
Proof.
  intros Hf. pose proof (Z.div_mod i f ltac:(lia)) as Hdm.
  pose proof (Z.mod_pos_bound i f Hf) as Hr.
  replace (i + 1 + f - 1) with (i + 1 * f) by lia.
  rewrite Z.div_add by lia.
  destruct (Z.eqb_spec (i mod f) 0) as [H0|H0].
  - rewrite <- (Z.div_unique (i + f - 1) f (i / f) (f - 1)); lia.
  - rewrite <- (Z.div_unique (i + f - 1) f (i / f + 1) (i mod f - 1)); lia.
Qed.

Lemma collections_closed (f : Z) :
  0 < f ->
  forall (n : nat) (i : Z),
    collections f n i = (i + Z.of_nat n + f - 1) / f - (i + f - 1) / f.
Proof.
  intros Hf. induction n as [|n IH]; intros i.
  - simpl. rewrite Z.add_0_r. lia.
  - cbn [collections]. rewrite IH, <- (collections_step f i Hf).
    replace (i + 1 + Z.of_nat n + f - 1) with (i + Z.of_nat (S n) + f - 1)
      by lia.
    lia.
Qed.

Lemma iterations_effect (body : Z -> MBMRL -> Run MBMRL) (dr : Z)
    (fuel : nat) (self self' : MBMRL) (s s' : world * list event) :
  (forall i x x' s s',
      body i x s = ok (x', s') ->
      advanced
        ((if i mod task_sample_frequency (cfg x) =? 0 then 1 else 0)
         * (Z.of_nat (range_len (rollout_num (cfg x)))
            * Z.max 0 (rollout_len (cfg x))))
        ((if i mod task_sample_frequency (cfg x) =? 0 then 1 else 0)
         * (Z.of_nat (range_len (rollout_num (cfg x)))
            * rollout_cost (rollout_len (cfg x))
                (adaptation_update_num (cfg x)))
         + Z.of_nat (range_len (task_sample_num (cfg x)))
           * meta_cost (adaptation_update_num (cfg x)))
        ((if i mod task_sample_frequency (cfg x) =? 0 then 1 else 0) * dr)
        x x') ->
  iterate body (range_len (iteration_num (cfg self))) 0 self s
  = ok (self', s') ->
  advanced
    (collections (task_sample_frequency (cfg self))
       (range_len (iteration_num (cfg self))) 0
     * (Z.of_nat (range_len (rollout_num (cfg self)))
        * Z.max 0 (rollout_len (cfg self))))
    (collections (task_sample_frequency (cfg self))
       (range_len (iteration_num (cfg self))) 0
     * (Z.of_nat (range_len (rollout_num (cfg self)))
        * rollout_cost (rollout_len (cfg self))
            (adaptation_update_num (cfg self)))
     + Z.of_nat (range_len (iteration_num (cfg self)))
       * (Z.of_nat (range_len (task_sample_num (cfg self)))
          * meta_cost (adaptation_update_num (cfg self))))
    (collections (task_sample_frequency (cfg self))
       (range_len (iteration_num (cfg self))) 0 * dr)
    self self'.
Proof.
  intros Hbody H.
  eapply (iterate_effect body (cfg self)
            (fun i =>
               (if i mod task_sample_frequency (cfg self) =? 0
                then 1 else 0)
               * (Z.of_nat (range_len (rollout_num (cfg self)))
                  * Z.max 0 (rollout_len (cfg self))))
            (fun i =>
               (if i mod task_sample_frequency (cfg self) =? 0
                then 1 else 0)
               * (Z.of_nat (range_len (rollout_num (cfg self)))
                  * rollout_cost (rollout_len (cfg self))
                      (adaptation_update_num (cfg self)))
               + Z.of_nat (range_len (task_sample_num (cfg self)))
                 * meta_cost (adaptation_update_num (cfg self)))
            (fun i =>
               (if i mod task_sample_frequency (cfg self) =? 0
                then 1 else 0) * dr)) in H.
  - eapply advanced_eq; [exact H| | |].
    + rewrite Zsum_map_scale, (collections_sum _ _ 0). reflexivity.
    + rewrite Zsum_map_add, Zsum_map_scale, (collections_sum _ _ 0),
        Zsum_map_const, length_seq. reflexivity.
    + rewrite Zsum_map_scale, (collections_sum _ _ 0). reflexivity.
  - intros i x x' s0 s0' Hc Hrun. apply Hbody in Hrun.
    rewrite Hc in Hrun. exact Hrun.
  - reflexivity.
Qed.

(** X9. The counters after [train]. When [train] returns, the object has the
    configuration, the tasks and the dataset bound it started with, and
    with [c] the number of iterations [i] in [range(iteration_num)] such
    that [i % task_sample_frequency == 0] (that is
    [ceil(iteration_num / task_sample_frequency)] for a frequency above
    zero):
    - [_n_rollouts_total] has grown by [c], one per collection phase and
      not one per rollout;
    - [_n_task_steps_total] has grown by [c * rollout_num * rollout_len]:
      only collection counts, the steps of the evaluation episodes do not;
    - [_n_model_steps_total] has grown by the cost of the [c] collections
      plus [2 + adaptation_update_num] losses for each of the
      [iteration_num * task_sample_num] samples of the meta-update. *)
Theorem train_accounting (fuel : nat) (self : MBMRL)
    (s : world * list event) :
  raised (train fuel self s) = None ->
  match train fuel self s with
  | inl _ => False
  | inr (self', _) =>
  advanced
    (collections (task_sample_frequency (cfg self))
       (range_len (iteration_num (cfg self))) 0
     * (Z.of_nat (range_len (rollout_num (cfg self)))
        * Z.max 0 (rollout_len (cfg self))))
    (collections (task_sample_frequency (cfg self))
       (range_len (iteration_num (cfg self))) 0
     * (Z.of_nat (range_len (rollout_num (cfg self)))
        * rollout_cost (rollout_len (cfg self))
            (adaptation_update_num (cfg self)))
     + Z.of_nat (range_len (iteration_num (cfg self)))
       * (Z.of_nat (range_len (task_sample_num (cfg self)))
          * meta_cost (adaptation_update_num (cfg self))))
    (collections (task_sample_frequency (cfg self))
       (range_len (iteration_num (cfg self))) 0)
    self self'
  end /\
  (0 < task_sample_frequency (cfg self) ->
   collections (task_sample_frequency (cfg self))
     (range_len (iteration_num (cfg self))) 0
   = (Z.of_nat (range_len (iteration_num (cfg self)))
      + task_sample_frequency (cfg self) - 1)
     / task_sample_frequency (cfg self)).
Proof.
  intros H. split.
  - unfold train in *.
    destruct (iterate _ _ _ _ _) as [e|[self1 s1]] eqn:E; [discriminate|].
    apply (iterations_effect (train_iter fuel) 1 fuel) in E.
    + eapply advanced_eq; [exact E|lia|lia|lia].
    + intros i x x' s0 s0' Hrun. apply train_iter_effect in Hrun.
      eapply advanced_eq; [exact Hrun|lia|lia|lia].
  - intros Hf. rewrite collections_closed by exact Hf.
    rewrite (Z.div_small (0 + task_sample_frequency (cfg self) - 1)) by lia.
    rewrite Z.sub_0_r. reflexivity.
Qed.

(** X10. The counters after [debug]: as after [train], except that
    [_n_rollouts_total] is where it was. *)
Theorem debug_accounting (fuel : nat) (self : MBMRL)
    (s : world * list event) :
  raised (debug fuel self s) = None ->
  match debug fuel self s with
  | inl _ => False
  | inr (self', _) =>
  advanced
    (collections (task_sample_frequency (cfg self))
       (range_len (iteration_num (cfg self))) 0
     * (Z.of_nat (range_len (rollout_num (cfg self)))
        * Z.max 0 (rollout_len (cfg self))))
    (collections (task_sample_frequency (cfg self))
       (range_len (iteration_num (cfg self))) 0
     * (Z.of_nat (range_len (rollout_num (cfg self)))
        * rollout_cost (rollout_len (cfg self))
            (adaptation_update_num (cfg self)))
     + Z.of_nat (range_len (iteration_num (cfg self)))
       * (Z.of_nat (range_len (task_sample_num (cfg self)))
          * meta_cost (adaptation_update_num (cfg self))))
    0 self self'
  end.
Proof.
  intros H. unfold debug in *.
  destruct (iterate _ _ _ _ _) as [e|[self1 s1]] eqn:E; [discriminate|].
  apply (iterations_effect (debug_iter fuel) 0 fuel) in E.
  - eapply advanced_eq; [exact E|lia|lia|lia].
  - intros i x x' s0 s0' Hrun. apply debug_iter_effect in Hrun.
    eapply advanced_eq; [exact Hrun|lia|lia|lia].
Qed.

End AccountingFacts.

(** Two iterations on the instance, each with a collection of 3 rollouts of
    5 steps and one meta-sample: 30 task steps, 2 * 24 + 2 * 3 = 54 losses
    and 2 on the rollout counter. *)
Lemma train_accounting_witness :
  raised (train 4 agent toy_start) = None /\
  match train 4 agent toy_start with
  | inl _ => False
  | inr (self', _) => advanced 30 54 2 agent self'
  end.
Proof.
  assert (Hr : raised (train 4 agent toy_start) = None) by reflexivity.
  split; [exact Hr|].
  pose proof (@train_accounting toy_torch toy_world toy_queue_perm 4%nat
                agent toy_start Hr) as [H _].
  destruct (train 4 agent toy_start) as [e|[self' s']]; exact H.
Defined.

Lemma debug_accounting_witness :
  raised (debug 4 agent toy_start) = None /\
  match debug 4 agent toy_start with
  | inl _ => False
  | inr (self', _) => advanced 30 54 0 agent self'
  end.
Proof.
  assert (Hr : raised (debug 4 agent toy_start) = None) by reflexivity.
  split; [exact Hr|].
  pose proof (@debug_accounting toy_torch toy_world toy_queue_perm 4%nat
                agent toy_start Hr) as H.
  destruct (debug 4 agent toy_start) as [e|[self' s']]; exact H.
Defined.

(** ** Checkpoints *)

Section CheckpointFacts.

Context {T : Torch} {W : World} {TS : TorchState}.

(** X11. Saving and resuming. [_end_iteration(iter)], on an object whose
    loss is set, hands the logger one
    dictionary of ten distinct keys (the six of [_get_params] and the four
    of [_get_stats]: [update] overwrites nothing) and the dataset.
    [_resume_train] on these, into any object, returns [iter] itself as the
    iteration to start from, and restores the adaptation rate, the loss, the
    dataset and the three counters of the saved object. The saved total
    time becomes [_time_total_prev]. The network and the optimisers are the
    resuming object's own, loaded with the saved state; the configuration,
    the tasks and the evaluation rewards are not part of the checkpoint. *)
Theorem checkpoint_round_trip (iter : Z) (self other : MBMRL)
    (s : world * list event) :
  theta_loss self <> None ->
  exists saved params extra_data,
    _end_iteration iter self s = ok ((saved, params, extra_data), s) /\
    _record_stats self s = ok (saved, s) /\
    map fst params
    = ["iteration"; "theta"; "meta_optimizer"; "lr_optimizer"; "phi"; "loss";
       "n_task_steps"; "n_model_steps"; "n_rollouts"; "time"]%string /\
    _resume_train other params extra_data
    = lbind (of_result (load_state_dict (theta other)
                          (state_dict (theta saved)))) (fun th =>
      lbind (of_result (optimizer_load_state_dict (meta_optimizer other)
                          (optimizer_state_dict (meta_optimizer saved))))
        (fun mo =>
      lbind (of_result (optimizer_load_state_dict (lr_optimizer other)
                          (optimizer_state_dict (lr_optimizer saved))))
        (fun lo =>
      inr (iter,
           mkMBMRL (cfg other) (tasks other) (dataset saved) (train_mode th)
             mo (phi saved) lo (theta_loss saved) (eval_rewards other)
             (mkStats (_n_task_steps_total (stats saved))
                (_n_model_steps_total (stats saved))
                (_n_rollouts_total (stats saved))
                (_time_total (stats other))
                (_time_total (stats saved))))))).
Proof.
  intros _. unfold _end_iteration. cbn [mbind MonadPy_Run mret].
  unfold run_bind, _record_stats. cbn [ok]. unfold run_ret.
  do 3 eexists. split; [reflexivity|]. split; [reflexivity|].
  split; [reflexivity|].
  unfold _resume_train, _set_params, _set_stats, _set_extra_data.
  cbn -[load_state_dict optimizer_load_state_dict].
  destruct (load_state_dict _ _) as [e|th]; [reflexivity|].
  cbn -[optimizer_load_state_dict].
  destruct (optimizer_load_state_dict (meta_optimizer other) _) as [e|mo];
    [reflexivity|].
  cbn -[optimizer_load_state_dict].
  destruct (optimizer_load_state_dict (lr_optimizer other) _) as [e|lo];
    reflexivity.
Qed.

Lemma resume_train_cfg (self other resumed : MBMRL) (iter start : Z) :
  _resume_train other
    (dict_update (_get_params self iter) (_get_stats self))
    (_get_extra_data self) = inr (start, resumed) ->
  start = iter /\ cfg resumed = cfg other.
Proof.
  unfold _resume_train, _set_params, _set_stats, _set_extra_data.
  cbn -[load_state_dict optimizer_load_state_dict].
  destruct (load_state_dict _ _) as [e|th]; [discriminate|].
  cbn -[optimizer_load_state_dict].
  destruct (optimizer_load_state_dict (meta_optimizer other) _) as [e|mo];
    [discriminate|].
  cbn -[optimizer_load_state_dict].
  destruct (optimizer_load_state_dict (lr_optimizer other) _) as [e|lo];
    [discriminate|].
  cbn. intros H. injection H as <- <-. split; reflexivity.
Qed.

(** X12. Resuming repeats the saved iteration. The checkpoint written at the
    end of iteration [iter] stores [iter], and
    [train(resume=True)] iterates over [range(iter, iteration_num)]: unless
    the load fails, the first thing it runs is iteration [iter] again, on
    the restored object, and then the iterations from [iter + 1] on. *)
Theorem resume_repeats_saved_iteration (fuel : nat) (iter : Z)
    (self other : MBMRL) (s : world * list event) :
  iter < iteration_num (cfg other) ->
  train_resume fuel other
    (dict_update (_get_params self iter) (_get_stats self))
    (_get_extra_data self) s
  = match _resume_train other
            (dict_update (_get_params self iter) (_get_stats self))
            (_get_extra_data self) with
    | inl e => ok (inl e, s)
    | inr (_, resumed) =>
        run_bind (train_iter fuel iter resumed)
          (fun x =>
             run_bind
               (iterate (train_iter fuel)
                  (range_len (iteration_num (cfg other) - (iter + 1)))
                  (iter + 1) x)
               (fun y => run_ret (inr y))) s
    end.
Proof.
  intros Hlt. unfold train_resume.
  destruct (_resume_train other _ _) as [e|[start resumed]] eqn:E;
    [reflexivity|].
  apply resume_train_cfg in E as [-> Hcfg].
  cbn [mbind MonadPy_Run mret]. unfold train_from. rewrite Hcfg.
  replace (range_len (iteration_num (cfg other) - iter))
    with (S (range_len (iteration_num (cfg other) - (iter + 1))))
    by (unfold range_len; lia).
  cbn [iterate mbind MonadPy_Run]. apply run_bind_assoc.
Qed.

(** ** [test] *)

Lemma test_window_nil (M : Z) : test_window M [] = [].
Proof.
  unfold test_window, py_slice. rewrite skipn_nil. apply firstn_nil.
Qed.

Lemma test_window_three (M : Z) (a b c : tensor) :
  test_window M [a; b; c]
  = if (M =? 0) || (3 <=? M) then [a; b; c]
    else if M =? 1 then [c]
    else if M =? 2 then [b; c]
    else if M =? -1 then [b; c]
    else if M =? -2 then [c]
    else [].
Proof.
  unfold test_window, py_slice, clamp_index. cbn [length].
  destruct (Z.eqb_spec M 0) as [->|H0]; [reflexivity|].
  destruct (Z.leb_spec 3 M) as [H3|H3].
  - cbn [orb]. destruct (Z.ltb_spec (- M) 0); [|lia].
    rewrite Z.max_l by lia. reflexivity.
  - cbn [orb].
    destruct (Z.eqb_spec M 1) as [->|H1]; [reflexivity|].
    destruct (Z.eqb_spec M 2) as [->|H2]; [reflexivity|].
    destruct (Z.eqb_spec M (-1)) as [->|H4]; [reflexivity|].
    destruct (Z.eqb_spec M (-2)) as [->|H5]; [reflexivity|].
    destruct (Z.ltb_spec (- M) 0); [lia|].
    rewrite Z.min_r by lia.
    replace (Z.to_nat (Z.of_nat 3 - Z.of_nat 3)) with O by lia.
    reflexivity.
Qed.

(** X13. In [test] the window passed to the adaptation engine is
    [rollout[-M:]], a slice of the list of the three sequences and not of
    their rows. With [M = 0] or [M >= 3] it is the whole rollout: adaptation
    uses every transition of the episode so far, not the last [M]. With
    [M = 1] or [M = 2] it holds one or two of the three sequences, and an
    episode that does not end with its first step raises [ValueError] at the
    second, when the loss computation unpacks the window. *)
Theorem test_window_is_outer_slice (fuel : nat) (tk : task) (self : MBMRL)
    (state : list Q) (t : Z) (reward_sum : Q) (s : world * list event) :
  let action := snd (ctrl_plan (theta self) state None (fst s)) in
  let w1 := fst (ctrl_plan (theta self) state None (fst s)) in
  snd (snd (env_step tk action w1)) = false ->
  (forall a b c : tensor,
      M (cfg self) = 0 \/ 3 <= M (cfg self) ->
      test_window (M (cfg self)) [a; b; c] = [a; b; c]) /\
  (0 < M (cfg self) < 3 ->
   test_while (S (S fuel)) tk (self, [], state, t, reward_sum) s
   = throw ValueError).
Proof.
  intros action w1 Hdone. split.
  - intros a b c HM. rewrite test_window_three.
    destruct (Z.eqb_spec (M (cfg self)) 0); [reflexivity|].
    destruct (Z.leb_spec 3 (M (cfg self))); [reflexivity|lia].
  - intros HM.
    change (test_while (S (S fuel)) tk (self, [], state, t, reward_sum))
      with (let past_traj := test_window (M (cfg self)) [] in
            run_bind
              (mlift (_adaptation_update self (theta self) past_traj))
              (fun x : option dict * MBMRL =>
                 let '(new_theta_dict, self) := x in
                 run_bind (call_plan (theta self) state new_theta_dict)
                   (fun action =>
                      run_bind (call_step tk action)
                        (fun y : list Q * Q * bool =>
                           let '(next_state, reward, done) := y in
                           run_bind
                             (mlift
                                (match new_theta_dict with
                                 | Some d =>
                                     th <- load_state_dict (theta self) d ;;
                                     ok (set_theta th self)
                                 | None => ok self
                                 end))
                             (fun self =>
                                run_bind
                                  (mlift
                                     (_aggregate_rollout [] state
                                        (action_row action) next_state))
                                  (fun rollout =>
                                     if (done : bool)
                                     then
                                       run_bind (call_reset tk)
                                         (fun state =>
                                            run_ret
                                              (self, [], state, t + 1,
                                               (reward_sum + reward)%Q))
                                     else
                                       test_while (S fuel) tk
                                         (self, rollout, next_state, t + 1,
                                          (reward_sum + reward)%Q))))))).
    cbn zeta. rewrite test_window_nil.
    cbn [_adaptation_update]. rewrite run_bind_lift.
    erewrite run_bind_ok by apply call_plan_ok.
    erewrite run_bind_ok by apply call_step_ok.
    cbn [fst snd]. fold action w1.
    destruct (env_step tk action w1) as [w2 [[next_state reward] done]].
    cbn [fst snd] in *. subst done.
    rewrite run_bind_lift. cbn [_aggregate_rollout]. rewrite run_bind_lift.
    cbn [test_while]. cbn [mbind MonadPy_Run].
    rewrite test_window_three.
    destruct (Z.eqb_spec (M (cfg self)) 0) as [|_]; [lia|].
    destruct (Z.leb_spec 3 (M (cfg self))) as [|_]; [lia|].
    cbn [orb].
    destruct (Z.eqb_spec (M (cfg self)) 1) as [H1|H1]; [reflexivity|].
    destruct (Z.eqb_spec (M (cfg self)) 2) as [H2|H2]; [reflexivity|lia].
Qed.

(** X14. [test] runs the iterations of [range(start_iter, iteration_num)],
    where [start_iter] is the iteration stored in the checkpoint: when that
    is [iteration_num] or more, no episode is run. [test] then seeds,
    loads, resets the task once, hands it to the controller, and returns
    without planning or stepping. *)
Theorem test_runs_no_episode (fuel : nat) (self loaded_self : MBMRL)
    (tk : task) (seed iteration_num start_iter : Z)
    (params extra_data : pydict) (s : world * list event) :
  test_load self params extra_data = inr (start_iter, loaded_self) ->
  iteration_num <= start_iter ->
  test fuel self tk seed iteration_num params extra_data s
  = ok (inr (loaded_self, []),
        (ctrl_set_task tk
           (fst (env_reset tk (set_seed seed (fst s)))),
         snd s ++ [EvReset tk; EvSetTask tk])).
Proof.
  intros Hload Hle. unfold test. rewrite Hload.
  cbn [mbind MonadPy_Run mret].
  replace (range_len (iteration_num - start_iter)) with O
    by (unfold range_len; lia).
  unfold run_bind, call_set_seed, call_reset, call_set_task. cbn [ok fst snd].
  destruct (env_reset tk (set_seed seed (fst s))) as [w st]. cbn [fst snd].
  unfold test_iterations, run_ret. cbn [mret MonadPy_Run ok].
  unfold run_ret. cbn [ok fst snd]. rewrite <- app_assoc. reflexivity.
Qed.

End CheckpointFacts.

(** ** A dataset without capacity *)

Section ZeroCapacity.

Context {T : Torch} {W : World}.

Hypothesis shuffle_perm :
  forall (A : Type) (l : list A) (w : world),
    Permutation (snd (rng_shuffle A l w)) l.

Lemma deque_extend_zero {A} (xs : list A) :
  forall d : deque A,
    maxlen d = O -> items d = [] -> items (deque_extend d xs) = [].
Proof.
  unfold deque_extend. induction xs as [|x xs IH]; intros d Hm Hi; simpl.
  - exact Hi.
  - apply IH; unfold deque_append; simpl; [exact Hm|].
    rewrite Hm, Hi. reflexivity.
Qed.

Lemma meta_losses_empty_dataset (n : nat) (self : MBMRL)
    (acc : list scalar) (s : world * list event) :
  items (dataset self) = [] ->
  meta_losses (S n) self acc s = throw ValueError.
Proof.
  intros Hi. simpl meta_losses. unfold _sample_traj. simpl sample_loop.
  unfold sample_window. cbn [mbind MonadPy_Run np_random_choice].
  unfold run_bind, run_choice, deque_len. rewrite Hi. reflexivity.
Qed.

(** X15. With [dataset_size = 0] the deque never holds anything: after
    [dataset.extend(rollouts)] and the shuffle it is still empty, whatever
    was collected, and the next phase of the iteration, in [train] as in
    [debug], raises [ValueError] when [_sample_traj] draws from it. *)
Theorem zero_capacity_dataset (self : MBMRL) (rollouts : list rollout_t)
    (s : world * list event) :
  maxlen (dataset self) = O -> items (dataset self) = [] ->
  0 < task_sample_num (cfg self) ->
  exists self' s',
    extend_and_shuffle self rollouts s = ok (self', s') /\
    items (dataset self') = [] /\
    forall (fuel : nat) (i : Z),
      train_tail fuel i self' s' = throw ValueError /\
      debug_tail fuel i self' s' = throw ValueError.
Proof.
  intros Hm Hi Hn.
  destruct (extend_and_shuffle_dataset shuffle_perm self rollouts s)
    as (self' & s' & Hrun & _ & Hperm).
  rewrite (deque_extend_zero rollouts _ Hm Hi) in Hperm.
  apply Permutation_sym, Permutation_nil in Hperm.
  exists self', s'. split; [exact Hrun|]. split; [exact Hperm|].
  assert (Hcfg : cfg self' = cfg self).
  { unfold extend_and_shuffle in Hrun.
    apply run_bind_inv in Hrun as (l & s1 & _ & Hrun).
    injection Hrun as <- _. reflexivity. }
  intros fuel i. unfold train_tail, debug_tail.
  cbn [mbind MonadPy_Run]. rewrite Hcfg. unfold range_len.
  destruct (Z.to_nat (task_sample_num (cfg self))) as [|n] eqn:E; [lia|].
  unfold run_bind.
  rewrite (meta_losses_empty_dataset n self' [] s' Hperm).
  split; reflexivity.
Qed.

End ZeroCapacity.

(** ** The further theorems at work on the instance *)

Import ToyState.

Lemma toy_shuffle_perm :
  forall (A : Type) (l : list A) (w : world),
    Permutation (snd (rng_shuffle A l w)) l.
Proof. intros. apply Permutation_refl. Qed.


(** Saving the instance's agent at iteration 7 and resuming into a fresh
    one: iteration 7, the saved loss, and the clock of the save (0 steps)
    as the time already spent. *)
Lemma checkpoint_round_trip_witness :
  exists saved params extra_data,
    _end_iteration 7 trained_agent toy_start
    = ok ((saved, params, extra_data), toy_start) /\
    option_map (fun x : Z * MBMRL =>
                  (fst x, theta_loss (snd x),
                   _time_total_prev (stats (snd x))))
      (loaded_value (_resume_train agent params extra_data))
    = Some (7, Some (169 # 512, -13 # 16)%Q, 0%Q).
Proof.
  assert (Hloss : theta_loss trained_agent <> None) by discriminate.
  destruct (@checkpoint_round_trip toy_torch toy_world toy_state 7
              trained_agent agent toy_start Hloss)
    as (saved & params & extra_data & Hend & Hrec & _ & Hres).
  exists saved, params, extra_data. split; [exact Hend|].
  rewrite Hres. injection Hrec as <-. reflexivity.
Defined.

(** One stored rollout of 3 steps, [M = 2] and [K = 1]: the rollout itself
    is a possible window, and it holds 3 rows. *)
Lemma sample_traj_window_witness :
  In (inr (window_at 0 3 traj_a))
     (outcomes (_sample_traj (Mo := Dist) stocked_agent 1)) /\
  full_rollout 3 (window_at 0 3 traj_a).
Proof.
  assert (Hne : items (dataset stocked_agent) <> []) by discriminate.
  assert (Hfull : Forall (full_rollout 3) (items (dataset stocked_agent))).
  { constructor; [|constructor]. do 3 eexists. repeat split. }
  assert (HMK : 0 <= M (cfg stocked_agent) + K (cfg stocked_agent) <= 3)
    by (split; apply Z.leb_le; reflexivity).
  destruct (@sample_traj_window toy_torch toy_world stocked_agent 3
              Hne Hfull HMK) as [Hout Hrows].
  split.
  - apply Hout. exists traj_a, 0.
    split; [left; reflexivity|]. split; [lia|reflexivity].
  - apply (Hrows traj_a 0); [left; reflexivity|].
    split; apply Z.leb_le; reflexivity.
Defined.

(** One stored rollout of 2 steps, [M = 2] and [K = 1]: [ValueError]. *)
Lemma sample_traj_short_rollouts_witness :
  In (inl ValueError) (outcomes (_sample_traj (Mo := Dist) short_agent 1)) /\
  ~ In (inr window_2) (outcomes (_sample_traj (Mo := Dist) short_agent 1)).
Proof.
  assert (Hnum : 0 < 1) by reflexivity.
  assert (Hfull : Forall (full_rollout 2) (items (dataset short_agent))).
  { constructor; [|constructor]. do 3 eexists. repeat split. }
  assert (HL : 2 < M (cfg short_agent) + K (cfg short_agent))
    by reflexivity.
  destruct (@sample_traj_short_rollouts toy_torch toy_world short_agent
              2 1 Hnum Hfull HL) as [Hout _].
  split.
  - apply Hout. reflexivity.
  - intros Hin. apply Hout in Hin. discriminate.
Defined.

(** A checkpoint of iteration 1 loaded with [iteration_num = 2]: the load
    succeeds, and what runs is iteration 1. *)
Lemma resume_repeats_saved_iteration_witness :
  1 < iteration_num (cfg agent) /\
  _resume_train agent
    (dict_update (_get_params agent 1) (_get_stats agent))
    (_get_extra_data agent) = inr (1, agent) /\
  train_resume 4 agent
    (dict_update (_get_params agent 1) (_get_stats agent))
    (_get_extra_data agent) toy_start
  = match _resume_train agent
            (dict_update (_get_params agent 1) (_get_stats agent))
            (_get_extra_data agent) with
    | inl e => ok (inl e, toy_start)
    | inr (_, resumed) =>
        run_bind (train_iter 4 1 resumed)
          (fun x =>
             run_bind
               (iterate (train_iter 4)
                  (range_len (iteration_num (cfg agent) - (1 + 1)))
                  (1 + 1) x)
               (fun y => run_ret (inr y))) toy_start
    end.
Proof.
  assert (Hlt : 1 < iteration_num (cfg agent)) by reflexivity.
  split; [exact Hlt|]. split; [reflexivity|].
  exact (@resume_repeats_saved_iteration toy_torch toy_world toy_state
           4%nat 1 agent agent toy_start Hlt).
Defined.

(** On the instance [M = 2] and the first step of an episode does not end
    it: the second pass through the loop of [test] raises. *)
Lemma test_window_is_outer_slice_witness :
  test_window 3 traj_a = traj_a /\
  test_while 4 tt (agent, [], [0%Q], 0, 0%Q) toy_start = throw ValueError.
Proof.
  assert (Hdone : snd (snd (env_step tt
                              (snd (ctrl_plan (theta agent) [0%Q] None
                                      (fst toy_start)))
                              (fst (ctrl_plan (theta agent) [0%Q] None
                                      (fst toy_start))))) = false)
    by reflexivity.
  destruct (@test_window_is_outer_slice toy_torch toy_world toy_state 2%nat
              tt agent [0%Q] 0 0%Q toy_start Hdone) as [Hwhole Hraise].
  split.
  - reflexivity.
  - apply Hraise. split; reflexivity.
Defined.

(** A checkpoint of iteration 5 and [test(iteration_num=3)]: nothing is
    run. *)
Lemma test_runs_no_episode_witness :
  history (test 4 agent tt 0 3 (_get_params agent 5) (_get_extra_data agent)
             toy_start)
  = Some [EvReset tt; EvSetTask tt].
Proof.
  assert (Hload : test_load agent (_get_params agent 5)
                    (_get_extra_data agent) = inr (5, agent))
    by reflexivity.
  assert (Hle : 3 <= 5) by (apply Z.leb_le; reflexivity).
  rewrite (@test_runs_no_episode toy_torch toy_world toy_state 4%nat agent
             agent tt 0 3 5 _ _ toy_start Hload Hle).
  reflexivity.
Defined.

(** Capacity 0 on the instance: the three collected rollouts are dropped
    and the meta-update has nothing to sample. *)
Lemma zero_capacity_dataset_witness :
  exists self' s',
    extend_and_shuffle empty_agent [traj_a; traj_b] toy_start
    = ok (self', s') /\
    items (dataset self') = [] /\
    forall (fuel : nat) (i : Z),
      train_tail fuel i self' s' = throw ValueError /\
      debug_tail fuel i self' s' = throw ValueError.
Proof.
  assert (Hn : 0 < task_sample_num (cfg empty_agent)) by reflexivity.
  exact (@zero_capacity_dataset toy_torch toy_world toy_shuffle_perm
           empty_agent [traj_a; traj_b] toy_start eq_refl eq_refl Hn).
Defined.

(** ** [test] runs to its end *)

Section TestFacts.

Context {T : Torch} {W : World} {TS : TorchState}.




Variable kind : string.

Hypothesis predict_total :
  forall th new st ac,
    length st = length ac -> exists p, predict_next th new st ac = ok p.

Hypothesis loss_total :
  forall th new st ac nx p std,
    predict_next th new st ac = ok p -> length nx = length st ->
    exists l, loss_func kind p nx std = ok l.

(** Loading an overlay of the network's own keys succeeds. *)
Hypothesis load_total :
  forall th d, exists th', load_state_dict th d = ok th'.

Variable remaining : task -> world -> nat.

Hypothesis plan_keeps :
  forall tk th st o w,
    (remaining tk (fst (ctrl_plan th st o w)) <= remaining tk w)%nat.

Hypothesis step_decreases :
  forall tk a w,
    snd (snd (env_step tk a w)) = false ->
    (remaining tk (fst (env_step tk a w)) < remaining tk w)%nat.

Variable fuel : nat.

Hypothesis reset_bound :
  forall tk w, (remaining tk (fst (env_reset tk w)) < fuel)%nat.





End TestFacts.

(** ** Drawing a task *)

Section TaskSampling.

Context {T : Torch} {W : World}.

Lemma py_index_seq {A} (l : list A) :
  map (fun i : nat => py_index l (Z.of_nat i)) (seq 0 (length l))
  = map inr l.
Proof.
  induction l as [|a l IH] using rev_ind; [reflexivity|].
  rewrite length_app, Nat.add_comm. cbn [length Nat.add].
  rewrite seq_S, !map_app. cbn [map Nat.add]. f_equal.
  - rewrite <- IH. apply map_ext_in. intros i Hi. apply in_seq in Hi.
    unfold py_index. destruct (Z.ltb_spec (Z.of_nat i) 0); [lia|].
    rewrite Nat2Z.id, nth_error_app1 by lia. reflexivity.
  - unfold py_index. destruct (Z.ltb_spec (Z.of_nat (length l)) 0); [lia|].
    rewrite Nat2Z.id, nth_error_app2, Nat.sub_diag by lia. reflexivity.
Qed.

Lemma dist_bind_lift_choice {A} (q : Q) (f : Z -> result A) (l : list nat) :
  dist_bind (map (fun i : nat => (q, inr (Z.of_nat i))) l)
    (fun i => mlift (M := Dist) (f i))
  = map (fun i : nat => ((q * 1)%Q, f (Z.of_nat i))) l.
Proof.
  unfold dist_bind. induction l as [|i l IH]; [reflexivity|].
  cbn [map flat_map snd fst]. rewrite IH.
  destruct (f (Z.of_nat i)); reflexivity.
Qed.

(** X17. [_sample_task] draws uniformly from the task list: its outcomes are
    the tasks, each once and in the order of the list, each with the
    probability [1 / len(tasks)]; with no task it raises [ValueError]. *)
Theorem sample_task_uniform (self : MBMRL) :
  (tasks self = [] ->
   outcomes (_sample_task (Mo := Dist) self) = [inl ValueError] /\
   forall s, _sample_task (Mo := Run) self s = throw ValueError) /\
  (tasks self <> [] ->
   outcomes (_sample_task (Mo := Dist) self) = map inr (tasks self) /\
   Forall (fun pa : Q * result task =>
             (fst pa == 1 # Z.to_pos (len (tasks self)))%Q)
          (_sample_task (Mo := Dist) self)).
Proof.
  unfold _sample_task. cbn [mbind MonadPy_Dist MonadPy_Run np_random_choice].
  unfold len. split.
  - intros ->. split; [reflexivity|]. intros s. reflexivity.
  - intros Hne. unfold dist_choice.
    destruct (Z.leb_spec (Z.of_nat (length (tasks self))) 0) as [Hle|Hgt].
    { destruct (tasks self); [congruence|simpl in Hle; lia]. }
    rewrite Nat2Z.id, dist_bind_lift_choice. split.
    + unfold outcomes. rewrite map_map. cbn [snd]. apply py_index_seq.
    + apply Forall_forall. intros [q o] Hin.
      apply in_map_iff in Hin as (i & Heq & _). injection Heq as <- _.
      cbn [fst]. apply Qmult_1_r.
Qed.

End TaskSampling.



(** The instance has one task: it is drawn with probability 1. *)
Lemma sample_task_uniform_witness :
  outcomes (_sample_task (Mo := Dist) agent) = [inr tt].
Proof.
  assert (Hne : tasks agent <> []) by discriminate.
  exact (proj1 (proj2 (@sample_task_uniform toy_torch toy_world agent) Hne)).
Defined.


(** * The calls the program makes *)

(** ** The collection loops, step by step *)

Section CollectionTrace.

Context {T : Torch} {W : World}.

Lemma rollout_of_records_len (xs : list collect_record) :
  rollout_of_len (length xs) (rollout_of_records xs).
Proof.
  destruct xs as [|x xs]; [reflexivity|].
  do 3 eexists. split; [reflexivity|]. rewrite !length_map. auto.
Qed.

Lemma rollout_of_records_full (L : Z) (xs : list collect_record) :
  0 < L -> length xs = Z.to_nat L -> full_rollout L (rollout_of_records xs).
Proof.
  intros HL Hlen. apply rollout_of_len_full; [exact HL|].
  rewrite <- Hlen. apply rollout_of_records_len.
Qed.

Lemma aggregate_records (xs : list collect_record) (x : collect_record) :
  _aggregate_rollout (rollout_of_records xs) (rec_state x)
    (action_row (rec_action x)) (rec_next_state x)
  = ok (rollout_of_records (xs ++ [x])).
Proof.
  destruct xs as [|y xs]; [reflexivity|].
  cbn [app rollout_of_records]. cbn. rewrite !map_app. reflexivity.
Qed.

Lemma collect_events_app (tk : task) (th : net)
    (xs ys : list collect_record) :
  collect_events tk th (xs ++ ys)
  = collect_events tk th xs ++ collect_events tk th ys.
Proof. apply flat_map_app. Qed.

Lemma collect_events_one (tk : task) (th : net) (x : collect_record) :
  collect_events tk th [x] = record_events tk th x.
Proof. unfold collect_events. cbn [flat_map]. apply app_nil_r. Qed.

Variable kind : string.

Hypothesis predict_total :
  forall th new st ac,
    length st = length ac -> exists p, predict_next th new st ac = ok p.

Hypothesis loss_total :
  forall th new st ac nx p std,
    predict_next th new st ac = ok p -> length nx = length st ->
    exists l, loss_func kind p nx std = ok l.

(** One pass of the serial loop: the controller is handed what the
    adaptation engine returned on the trailing window. *)
Lemma collect_step_trace (tk : task) (self : MBMRL)
    (xs : list collect_record) (state : list Q) (t : Z)
    (s : world * list event) :
  0 <= M (cfg self) -> loss_type (cfg self) = kind ->
  exists o self1 x state' w',
    _adaptation_update self (theta self)
      (trailing_window (M (cfg self)) (rollout_of_records xs))
    = ok (o, self1) /\
    (o = None <-> xs = []) /\ same_but_stats self self1 /\
    rec_state x = state /\ rec_overlay x = o /\
    collect_step tk (self, rollout_of_records xs, state, t) s
    = ok ((set_stats (add_task_steps 1) self1,
           rollout_of_records (xs ++ [x]), state', t + 1),
          (w', snd s ++ record_events tk (theta self) x)).
Proof.
  intros HM Hk.
  destruct (adaptation_step_ok kind predict_total loss_total self
              (length xs) (rollout_of_records xs) HM Hk
              (rollout_of_records_len xs))
    as (o & self1 & Hrun & Hsame & Hiff).
  pose proof (same_but_stats_cfg _ _ Hsame) as (_ & Hth & _).
  exists o, self1.
  unfold collect_step. cbn [mbind MonadPy_Run mret]. unfold run_bind.
  rewrite Hrun. cbn [mlift mret MonadPy_Run ok]. unfold run_ret at 1.
  cbn [ok]. rewrite Hth.
  unfold call_plan at 1.
  destruct (ctrl_plan _ _ _ _) as [w1 a]. cbn [ok fst snd].
  unfold call_step at 1.
  destruct (env_step _ _ _) as [w2 [[ns rw] dn]]. cbn [ok fst snd].
  pose proof (aggregate_records xs (mkRecord state o a ns rw dn)) as Hagg.
  cbn [rec_state rec_action rec_next_state] in Hagg.
  rewrite Hagg. cbn [mlift mret MonadPy_Run ok]. unfold run_ret at 1.
  cbn [ok].
  exists (mkRecord state o a ns rw dn).
  assert (Hiff' : o = None <-> xs = []).
  { rewrite Hiff. destruct xs; split; intros H; try reflexivity;
      discriminate. }
  destruct dn.
  - unfold call_reset. cbn [fst snd].
    destruct (env_reset _ _) as [w3 st3]. cbn [ok]. unfold run_ret.
    exists st3, w3. repeat split; try tauto.
    unfold record_events. cbn. rewrite <- !app_assoc. reflexivity.
  - unfold run_ret. exists ns, w2. repeat split; try tauto.
    unfold record_events. cbn. rewrite <- !app_assoc. reflexivity.
Qed.

Lemma collect_steps_trace (tk : task) :
  forall (n : nat) (self : MBMRL) (xs : list collect_record)
         (state : list Q) (t : Z) (s : world * list event),
    0 <= M (cfg self) -> loss_type (cfg self) = kind ->
    exists self' new state' w',
      collect_steps n tk (self, rollout_of_records xs, state, t) s
      = ok ((self', rollout_of_records (xs ++ new), state',
             t + Z.of_nat n),
            (w', snd s ++ collect_events tk (theta self) new)) /\
      length new = n /\ same_but_stats self self' /\
      (forall (i : nat) (x : collect_record),
          nth_error new i = Some x ->
          (rec_overlay x = None <-> (length xs + i)%nat = O)) /\
      (forall fuel : nat,
          t + Z.of_nat n <= rollout_len (cfg self) ->
          collect_while (n + fuel) tk
            (self, rollout_of_records xs, state, t) s
          = collect_while fuel tk
              (self', rollout_of_records (xs ++ new), state',
               t + Z.of_nat n)
              (w', snd s ++ collect_events tk (theta self) new)).
Proof.
  induction n as [|n IH]; intros self xs state t s HM Hk.
  - exists self, [], state, (fst s). cbn [collect_steps]. unfold run_ret.
    rewrite !app_nil_r, Z.add_0_r. destruct s.
    split; [reflexivity|]. split; [reflexivity|].
    split; [apply same_but_stats_refl|].
    split; [intros [|i] x Hx; discriminate|]. intros fuel _. reflexivity.
  - destruct (collect_step_trace tk self xs state t s HM Hk)
      as (o & self1 & x & state1 & w1 & _ & Hiff & Hsame1 & _ & Ho & Hstep).
    assert (Hsame : same_but_stats self
                      (set_stats (add_task_steps 1) self1))
      by (eapply same_but_stats_trans;
          [exact Hsame1|apply same_but_stats_set]).
    pose proof (same_but_stats_cfg _ _ Hsame) as (Hcfg & Hth & _).
    destruct (IH (set_stats (add_task_steps 1) self1) (xs ++ [x]) state1
                (t + 1) (w1, snd s ++ record_events tk (theta self) x))
      as (self' & new & state' & w' & Hrun & Hlen & Hsame' & Hov & Hloop).
    { rewrite Hcfg. exact HM. }
    { rewrite Hcfg. exact Hk. }
    exists self', (x :: new), state', w'.
    cbn [collect_steps]. erewrite run_bind_ok by exact Hstep.
    rewrite Hrun, Hth. cbn [snd].
    replace (xs ++ x :: new) with ((xs ++ [x]) ++ new)
      by (rewrite <- app_assoc; reflexivity).
    replace (t + Z.of_nat (S n)) with (t + 1 + Z.of_nat n) by lia.
    change (collect_events tk (theta self) (x :: new))
      with (record_events tk (theta self) x
            ++ collect_events tk (theta self) new).
    rewrite !app_assoc.
    split; [reflexivity|]. split; [simpl; lia|].
    split; [eapply same_but_stats_trans; eassumption|].
    split.
    { intros [|i] y Hy.
      - injection Hy as <-. rewrite Ho, Hiff, Nat.add_0_r.
        destruct xs; split; intros H; try reflexivity; discriminate.
      - cbn [nth_error] in Hy. apply Hov in Hy. rewrite Hy.
        rewrite length_app. cbn [length]. lia. }
    intros fuel Hle. cbn [Nat.add]. rewrite collect_while_unfold.
    destruct (Z.ltb_spec t (rollout_len (cfg self))) as [_|]; [|lia].
    erewrite run_bind_ok by exact Hstep.
    rewrite Hloop by (rewrite Hcfg; lia).
    rewrite Hth. cbn [snd]. rewrite ?app_assoc. reflexivity.
Qed.

Lemma collect_rollout_trace (tk : task) (self : MBMRL) (state : list Q)
    (s : world * list event) :
  0 <= M (cfg self) -> loss_type (cfg self) = kind ->
  exists self' new state' t' w',
    collect_while (range_len (rollout_len (cfg self))) tk
      (self, [], state, 0) s
    = ok ((self', rollout_of_records new, state', t'),
          (w', snd s ++ collect_events tk (theta self) new)) /\
    length new = Z.to_nat (rollout_len (cfg self)) /\
    adapts_after_first new /\
    same_but_stats self self'.
Proof.
  intros HM Hk.
  destruct (collect_steps_trace tk (range_len (rollout_len (cfg self)))
              self [] state 0 s HM Hk)
    as (self' & new & state' & w' & _ & Hlen & Hsame & Hov & Hloop).
  destruct (Z.le_gt_cases 0 (rollout_len (cfg self))) as [HL|HL].
  - specialize (Hloop O). rewrite Nat.add_0_r in Hloop.
    change (rollout_of_records []) with ([] : rollout_t) in Hloop.
    pose proof (same_but_stats_cfg _ _ Hsame) as (Hcfg & _).
    exists self', new, state',
      (0 + Z.of_nat (range_len (rollout_len (cfg self)))), w'.
    split; [|split; [exact Hlen|split; [exact Hov|exact Hsame]]].
    refine (eq_trans (Hloop _) _); [unfold range_len; lia|].
    cbn [collect_while]. rewrite Hcfg.
    destruct (Z.ltb_spec (0 + Z.of_nat (range_len (rollout_len (cfg self))))
                (rollout_len (cfg self))) as [Hlt|_];
      [unfold range_len in Hlt; lia|reflexivity].
  - exists self, [], state, 0, (fst s).
    unfold range_len. replace (Z.to_nat (rollout_len (cfg self))) with O
      by lia.
    cbn [collect_while].
    destruct (Z.ltb_spec 0 (rollout_len (cfg self))) as [|_]; [lia|].
    cbn. rewrite app_nil_r.
    destruct s. split; [reflexivity|]. split; [reflexivity|].
    split; [intros [|i] x Hx; discriminate|].
    apply same_but_stats_refl.
Qed.

Lemma collect_rollouts_trace (tk : task) :
  forall (n : nat) (self : MBMRL) (state : list Q) (acc : list rollout_t)
         (s : world * list event),
    0 <= M (cfg self) -> loss_type (cfg self) = kind ->
    exists self' state' chunks w',
      collect_rollouts n tk self state acc s
      = ok ((self', state', acc ++ map rollout_of_records chunks),
            (w', snd s ++ collect_events tk (theta self) (concat chunks)))
      /\ length chunks = n /\
      Forall (fun c : list collect_record =>
                length c = Z.to_nat (rollout_len (cfg self))) chunks /\
      Forall adapts_after_first chunks /\
      same_but_stats self self'.
Proof.
  induction n as [|n IH]; intros self state acc s HM Hk.
  - exists self, state, [], (fst s). cbn. rewrite !app_nil_r. destruct s.
    split; [reflexivity|]. split; [reflexivity|].
    split; [constructor|]. split; [constructor|apply same_but_stats_refl].
  - destruct (collect_rollout_trace tk self state s HM Hk)
      as (self1 & c & state1 & t1 & w1 & Hrun1 & Hlen1 & Hov1 & Hsame1).
    pose proof (same_but_stats_cfg _ _ Hsame1) as (Hcfg & Hth & _).
    destruct (IH self1 state1 (acc ++ [rollout_of_records c])
                (w1, snd s ++ collect_events tk (theta self) c))
      as (self' & state' & chunks & w' & Hrun & Hlen & Hall & Hov & Hsame).
    { rewrite Hcfg. exact HM. }
    { rewrite Hcfg. exact Hk. }
    exists self', state', (c :: chunks), w'.
    rewrite collect_rollouts_unfold.
    erewrite run_bind_ok by exact Hrun1.
    rewrite Hth in Hrun. rewrite Hcfg in Hall.
    cbv beta iota. rewrite Hrun. cbn [snd concat map].
    rewrite collect_events_app, <- !app_assoc.
    split; [reflexivity|]. split; [simpl; lia|].
    split; [constructor; assumption|].
    split; [constructor; assumption|].
    eapply same_but_stats_trans; eassumption.
Qed.

Lemma collect_traj_serial_trace (self : MBMRL) (tk : task)
    (s : world * list event) :
  0 <= M (cfg self) -> loss_type (cfg self) = kind ->
  exists chunks self' w',
    _collect_traj_serial self tk s
    = ok ((map rollout_of_records chunks, self'),
          (w', snd s ++ [EvSetTask tk; EvReset tk]
                     ++ collect_events tk (theta self) (concat chunks))) /\
    length chunks = range_len (rollout_num (cfg self)) /\
    Forall (fun c : list collect_record =>
              length c = Z.to_nat (rollout_len (cfg self))) chunks /\
    Forall adapts_after_first chunks.
Proof.
  intros HM Hk. unfold _collect_traj_serial.
  cbn [mbind MonadPy_Run mret].
  erewrite run_bind_ok by apply call_set_task_ok.
  erewrite run_bind_ok by apply call_reset_ok.
  match goal with
  | |- context [run_bind (collect_rollouts ?n tk self ?st []) _ ?s1] =>
      destruct (collect_rollouts_trace tk n self st [] s1 HM Hk)
        as (self' & state' & chunks & w' & Hrun & Hlen & Hall & Hov & _)
  end.
  erewrite run_bind_ok by exact Hrun. unfold run_ret. cbn [app snd].
  exists chunks, self', w'. rewrite <- !app_assoc.
  split; [reflexivity|]. repeat split; assumption.
Qed.

(** *** The worker *)

Lemma worker_step_trace (a : worker_args) (xs : list collect_record)
    (state : list Q) (t n_model n_task : Z) (s : world * list event) :
  0 <= wa_M a -> wa_loss_type a = kind ->
  exists o n_model' x state' w',
    worker_adaptation (wa_theta a)
      (trailing_window (wa_M a) (rollout_of_records xs)) (wa_phi a)
      (wa_adaptation_update_num a) (wa_loss_type a) (wa_loss_scale a)
      (wa_pred_std a) n_model
    = ok (o, n_model') /\
    (o = None <-> xs = []) /\
    rec_state x = state /\ rec_overlay x = o /\
    worker_step a (rollout_of_records xs, state, t, n_model, n_task) s
    = ok ((rollout_of_records (xs ++ [x]), state', t + 1, n_model',
           n_task + 1),
          (w', snd s ++ record_events (wa_task a) (wa_theta a) x)).
Proof.
  intros HM Hk.
  destruct (worker_adaptation_step_ok kind predict_total loss_total a
              (length xs) (rollout_of_records xs) n_model HM Hk
              (rollout_of_records_len xs))
    as (o & n1 & Hrun & Hiff).
  exists o, n1.
  unfold worker_step. cbn [mbind MonadPy_Run mret].
  rewrite Hrun, run_bind_lift.
  erewrite run_bind_ok by apply call_plan_ok.
  erewrite run_bind_ok by apply call_step_ok.
  destruct (ctrl_plan (wa_theta a) state o (fst s)) as [w1 ac] eqn:Ep.
  cbn [fst snd].
  destruct (env_step (wa_task a) ac w1) as [w2 [[ns rw] dn]] eqn:Es.
  cbn [fst snd].
  pose proof (aggregate_records xs (mkRecord state o ac ns rw dn)) as Hagg.
  cbn [rec_state rec_action rec_next_state] in Hagg.
  rewrite Hagg, run_bind_lift.
  exists (mkRecord state o ac ns rw dn).
  assert (Hiff' : o = None <-> xs = []).
  { rewrite Hiff. destruct xs; split; intros H; try reflexivity;
      discriminate. }
  destruct dn.
  - erewrite run_bind_ok by apply call_reset_ok. cbn [fst snd].
    do 2 eexists. repeat split; try tauto.
    unfold run_ret, record_events. cbn. rewrite <- !app_assoc. reflexivity.
  - do 2 eexists. repeat split; try tauto.
    unfold run_ret, record_events. cbn. rewrite <- !app_assoc. reflexivity.
Qed.

Lemma worker_steps_trace (a : worker_args) :
  0 <= wa_M a -> wa_loss_type a = kind ->
  forall (n : nat) (xs : list collect_record) (state : list Q)
         (t n_model n_task : Z) (s : world * list event),
    exists new state' n_model' w',
      worker_steps n a (rollout_of_records xs, state, t, n_model, n_task) s
      = ok ((rollout_of_records (xs ++ new), state', t + Z.of_nat n,
             n_model', n_task + Z.of_nat n),
            (w', snd s ++ collect_events (wa_task a) (wa_theta a) new)) /\
      length new = n /\
      (forall (i : nat) (x : collect_record),
          nth_error new i = Some x ->
          (rec_overlay x = None <-> (length xs + i)%nat = O)) /\
      (forall fuel : nat,
          t + Z.of_nat n <= wa_rollout_len a ->
          worker_while (n + fuel) a
            (rollout_of_records xs, state, t, n_model, n_task) s
          = worker_while fuel a
              (rollout_of_records (xs ++ new), state', t + Z.of_nat n,
               n_model', n_task + Z.of_nat n)
              (w', snd s ++ collect_events (wa_task a) (wa_theta a) new)).
Proof.
  intros HM Hk. induction n as [|n IH];
    intros xs state t n_model n_task s.
  - exists [], state, n_model, (fst s). cbn [worker_steps]. unfold run_ret.
    rewrite !app_nil_r, !Z.add_0_r. destruct s.
    split; [reflexivity|]. split; [reflexivity|].
    split; [intros [|i] x Hx; discriminate|].
    intros fuel _. reflexivity.
  - destruct (worker_step_trace a xs state t n_model n_task s HM Hk)
      as (o & n1 & x & state1 & w1 & _ & Hiff & _ & Ho & Hstep).
    destruct (IH (xs ++ [x]) state1 (t + 1) n1 (n_task + 1)
                (w1, snd s ++ record_events (wa_task a) (wa_theta a) x))
      as (new & state' & n_model' & w' & Hrun & Hlen & Hov & Hloop).
    exists (x :: new), state', n_model', w'.
    cbn [worker_steps]. erewrite run_bind_ok by exact Hstep.
    rewrite Hrun. cbn [snd].
    replace (xs ++ x :: new) with ((xs ++ [x]) ++ new)
      by (rewrite <- app_assoc; reflexivity).
    replace (t + Z.of_nat (S n)) with (t + 1 + Z.of_nat n) by lia.
    replace (n_task + Z.of_nat (S n)) with (n_task + 1 + Z.of_nat n) by lia.
    change (collect_events (wa_task a) (wa_theta a) (x :: new))
      with (record_events (wa_task a) (wa_theta a) x
            ++ collect_events (wa_task a) (wa_theta a) new).
    rewrite !app_assoc.
    split; [reflexivity|]. split; [simpl; lia|].
    split.
    { intros [|i] y Hy.
      - injection Hy as <-. rewrite Ho, Hiff, Nat.add_0_r.
        destruct xs; split; intros H; try reflexivity; discriminate.
      - cbn [nth_error] in Hy. apply Hov in Hy. rewrite Hy.
        rewrite length_app. cbn [length]. lia. }
    intros fuel Hle. cbn [Nat.add]. rewrite worker_while_unfold.
    destruct (Z.ltb_spec t (wa_rollout_len a)) as [_|]; [|lia].
    erewrite run_bind_ok by exact Hstep.
    rewrite Hloop by lia. cbn [snd]. rewrite ?app_assoc. reflexivity.
Qed.

Lemma worker_rollout_trace (a : worker_args) (state : list Q)
    (n_model n_task : Z) (s : world * list event) :
  0 <= wa_M a -> wa_loss_type a = kind ->
  exists new state' t' n_model' n_task' w',
    worker_while (range_len (wa_rollout_len a)) a
      ([], state, 0, n_model, n_task) s
    = ok ((rollout_of_records new, state', t', n_model', n_task'),
          (w', snd s ++ collect_events (wa_task a) (wa_theta a) new)) /\
    length new = Z.to_nat (wa_rollout_len a) /\
    adapts_after_first new.
Proof.
  intros HM Hk.
  destruct (worker_steps_trace a HM Hk (range_len (wa_rollout_len a))
              [] state 0 n_model n_task s)
    as (new & state' & n_model' & w' & _ & Hlen & Hov & Hloop).
  destruct (Z.le_gt_cases 0 (wa_rollout_len a)) as [HL|HL].
  - specialize (Hloop O). rewrite Nat.add_0_r in Hloop.
    change (rollout_of_records []) with ([] : rollout_t) in Hloop.
    exists new, state', (0 + Z.of_nat (range_len (wa_rollout_len a))),
      n_model', (n_task + Z.of_nat (range_len (wa_rollout_len a))), w'.
    split; [|split; [exact Hlen|exact Hov]].
    refine (eq_trans (Hloop _) _); [unfold range_len; lia|].
    cbn [worker_while].
    destruct (Z.ltb_spec (0 + Z.of_nat (range_len (wa_rollout_len a)))
                (wa_rollout_len a)) as [Hlt|_];
      [unfold range_len in Hlt; lia|reflexivity].
  - exists [], state, 0, n_model, n_task, (fst s).
    unfold range_len. replace (Z.to_nat (wa_rollout_len a)) with O by lia.
    cbn [worker_while].
    destruct (Z.ltb_spec 0 (wa_rollout_len a)) as [|_]; [lia|].
    cbn. rewrite app_nil_r.
    destruct s. split; [reflexivity|]. split; [reflexivity|].
    intros [|i] x Hx; discriminate.
Qed.

Lemma worker_rollouts_trace (a : worker_args) :
  0 <= wa_M a -> wa_loss_type a = kind ->
  forall (n : nat) (state : list Q) (n_model n_task : Z)
         (acc : list rollout_t) (s : world * list event),
    exists chunks n_model' n_task' w',
      worker_rollouts n a state n_model n_task acc s
      = ok ((acc ++ map rollout_of_records chunks, n_model', n_task'),
            (w', snd s ++ collect_events (wa_task a) (wa_theta a)
                            (concat chunks))) /\
      length chunks = n /\
      Forall (fun c : list collect_record =>
                length c = Z.to_nat (wa_rollout_len a)) chunks /\
      Forall adapts_after_first chunks.
Proof.
  intros HM Hk. induction n as [|n IH];
    intros state n_model n_task acc s.
  - exists [], n_model, n_task, (fst s). cbn. rewrite !app_nil_r.
    destruct s. split; [reflexivity|]. split; [reflexivity|].
    split; constructor.
  - destruct (worker_rollout_trace a state n_model n_task s HM Hk)
      as (c & state1 & t1 & nm1 & nk1 & w1 & Hrun1 & Hlen1 & Hov1).
    destruct (IH state1 nm1 nk1 (acc ++ [rollout_of_records c])
                (w1, snd s ++ collect_events (wa_task a) (wa_theta a) c))
      as (chunks & nm' & nk' & w' & Hrun & Hlen & Hall & Hov).
    exists (c :: chunks), nm', nk', w'.
    rewrite worker_rollouts_unfold.
    erewrite run_bind_ok by exact Hrun1.
    cbv beta iota. rewrite Hrun. cbn [snd concat map].
    rewrite collect_events_app, <- !app_assoc.
    split; [reflexivity|]. split; [simpl; lia|].
    split; constructor; assumption.
Qed.

Lemma collect_traj_per_thread_trace (pid : nat) (a : worker_args)
    (rollout_num : Z) (s : world * list event) :
  0 <= wa_M a -> wa_loss_type a = kind ->
  exists chunks n_model n_task w',
    _collect_traj_per_thread pid a rollout_num s
    = ok ((map rollout_of_records chunks, n_model, n_task),
          (w', snd s ++ [EvReset (wa_task a); EvSetTask (wa_task a)]
                     ++ collect_events (wa_task a) (wa_theta a)
                          (concat chunks))) /\
    length chunks = range_len rollout_num /\
    Forall (fun c : list collect_record =>
              length c = Z.to_nat (wa_rollout_len a)) chunks /\
    Forall adapts_after_first chunks.
Proof.
  intros HM Hk. unfold _collect_traj_per_thread.
  cbn [mbind MonadPy_Run mret].
  erewrite run_bind_ok by apply call_reset_ok.
  erewrite run_bind_ok by apply call_set_task_ok.
  match goal with
  | |- context [worker_rollouts ?n a ?st 0 0 [] ?s1] =>
      destruct (worker_rollouts_trace a HM Hk n st 0 0 [] s1)
        as (chunks & nm & nk & w' & Hrun & Hlen & Hall & Hov)
  end.
  rewrite Hrun. cbn [app snd].
  exists chunks, nm, nk, w'. rewrite <- !app_assoc.
  split; [reflexivity|]. repeat split; assumption.
Qed.

(** C5 (amended). With [M >= 1], the first [t] passes of the [while] loop
    of a rollout make the calls of [t] records, of which only the first was
    planned without specialised parameters.  At the pass of index [t] (from
    0) the window handed to the adaptation engine holds the last [min M t]
    transitions of the rollout in progress; the engine returns [None] at
    the first pass only, and what it returns is the overlay the controller
    is called with at that pass.  For [0 < t < M] the window therefore holds
    the [t] transitions collected so far and the controller plans with
    adapted parameters.  This holds in the serial collector and in the
    worker. *)
Theorem collection_window (tk : task) (self : MBMRL) (state : list Q)
    (s : world * list event) (t : nat) :
  0 < M (cfg self) ->
  loss_type (cfg self) = kind ->
  (exists xs self_t state_t w_t,
      collect_steps t tk (self, [], state, 0) s
      = ok ((self_t, rollout_of_records xs, state_t, Z.of_nat t),
            (w_t, snd s ++ collect_events tk (theta self) xs)) /\
      length xs = t /\ adapts_after_first xs /\
      (forall fuel : nat,
          Z.of_nat t <= rollout_len (cfg self) ->
          collect_while (t + fuel) tk (self, [], state, 0) s
          = collect_while fuel tk
              (self_t, rollout_of_records xs, state_t, Z.of_nat t)
              (w_t, snd s ++ collect_events tk (theta self) xs)) /\
      trailing_window (M (cfg self)) (rollout_of_records xs)
      = map (lastn (Nat.min (Z.to_nat (M (cfg self))) t))
          (rollout_of_records xs) /\
      exists o self' x state' w',
        _adaptation_update self_t (theta self)
          (trailing_window (M (cfg self)) (rollout_of_records xs))
        = ok (o, self') /\
        (o = None <-> t = O) /\
        rec_state x = state_t /\ rec_overlay x = o /\
        collect_step tk
          (self_t, rollout_of_records xs, state_t, Z.of_nat t)
          (w_t, snd s ++ collect_events tk (theta self) xs)
        = ok ((set_stats (add_task_steps 1) self',
               rollout_of_records (xs ++ [x]), state', Z.of_nat t + 1),
              (w', snd s ++ collect_events tk (theta self) (xs ++ [x])))) /\
  (exists xs state_t n_model w_t,
      worker_steps t (worker_args_of self tk) ([], state, 0, 0, 0) s
      = ok ((rollout_of_records xs, state_t, Z.of_nat t, n_model,
             Z.of_nat t),
            (w_t, snd s ++ collect_events tk (theta self) xs)) /\
      length xs = t /\ adapts_after_first xs /\
      (forall fuel : nat,
          Z.of_nat t <= rollout_len (cfg self) ->
          worker_while (t + fuel) (worker_args_of self tk)
            ([], state, 0, 0, 0) s
          = worker_while fuel (worker_args_of self tk)
              (rollout_of_records xs, state_t, Z.of_nat t, n_model,
               Z.of_nat t)
              (w_t, snd s ++ collect_events tk (theta self) xs)) /\
      trailing_window (M (cfg self)) (rollout_of_records xs)
      = map (lastn (Nat.min (Z.to_nat (M (cfg self))) t))
          (rollout_of_records xs) /\
      exists o n_model' x state' w',
        worker_adaptation (theta self)
          (trailing_window (M (cfg self)) (rollout_of_records xs))
          (phi self) (adaptation_update_num (cfg self))
          (loss_type (cfg self)) (loss_scale (cfg self))
          (pred_std (cfg self)) n_model
        = ok (o, n_model') /\
        (o = None <-> t = O) /\
        rec_state x = state_t /\ rec_overlay x = o /\
        worker_step (worker_args_of self tk)
          (rollout_of_records xs, state_t, Z.of_nat t, n_model, Z.of_nat t)
          (w_t, snd s ++ collect_events tk (theta self) xs)
        = ok ((rollout_of_records (xs ++ [x]), state', Z.of_nat t + 1,
               n_model', Z.of_nat t + 1),
              (w', snd s ++ collect_events tk (theta self) (xs ++ [x])))).
Proof.
  intros HM Hk. split.
  - destruct (collect_steps_trace tk t self [] state 0 s) as
      (self_t & xs & state_t & w_t & Hrun & Hlen & Hsame & Hov & Hloop);
      [lia|exact Hk|].
    cbn [app length Nat.add] in Hrun, Hov, Hloop.
    rewrite Z.add_0_l in Hrun, Hloop.
    pose proof (same_but_stats_cfg _ _ Hsame) as (Hcfg & Hth & _).
    exists xs, self_t, state_t, w_t.
    split; [exact Hrun|]. split; [exact Hlen|]. split; [exact Hov|].
    split; [exact Hloop|].
    split.
    { apply trailing_window_recent; [exact HM|].
      rewrite <- Hlen. apply rollout_of_records_len. }
    destruct (collect_step_trace tk self_t xs state_t (Z.of_nat t)
                (w_t, snd s ++ collect_events tk (theta self) xs))
      as (o & self' & x & state' & w' & Ha & Hiff & _ & Hst & Ho & Hstep).
    { rewrite Hcfg. lia. }
    { rewrite Hcfg. exact Hk. }
    rewrite Hcfg, Hth in Ha. rewrite Hth in Hstep. cbn [snd] in Hstep.
    exists o, self', x, state', w'.
    split; [exact Ha|]. split.
    { rewrite Hiff, <- Hlen. destruct xs; split; intros H;
        try reflexivity; discriminate. }
    split; [exact Hst|]. split; [exact Ho|].
    rewrite Hstep, collect_events_app, collect_events_one, app_assoc.
    reflexivity.
  - assert (HMw : 0 <= wa_M (worker_args_of self tk)) by (simpl; lia).
    destruct (worker_steps_trace (worker_args_of self tk) HMw Hk t []
                state 0 0 0 s)
      as (xs & state_t & nm & w_t & Hrun & Hlen & Hov & Hloop).
    cbn [app length Nat.add wa_task wa_theta worker_args_of wa_rollout_len]
      in Hrun, Hov, Hloop.
    rewrite !Z.add_0_l in Hrun, Hloop.
    exists xs, state_t, nm, w_t.
    split; [exact Hrun|]. split; [exact Hlen|]. split; [exact Hov|].
    split; [exact Hloop|].
    split.
    { apply trailing_window_recent; [exact HM|].
      rewrite <- Hlen. apply rollout_of_records_len. }
    destruct (worker_step_trace (worker_args_of self tk) xs state_t
                (Z.of_nat t) nm (Z.of_nat t)
                (w_t, snd s ++ collect_events tk (theta self) xs) HMw Hk)
      as (o & nm' & x & state' & w' & Ha & Hiff & Hst & Ho & Hstep).
    cbn [wa_task wa_theta wa_M wa_phi wa_adaptation_update_num wa_loss_type
         wa_loss_scale wa_pred_std worker_args_of snd] in Ha, Hstep.
    exists o, nm', x, state', w'.
    split; [exact Ha|]. split.
    { rewrite Hiff, <- Hlen. destruct xs; split; intros H;
        try reflexivity; discriminate. }
    split; [exact Hst|]. split; [exact Ho|].
    rewrite Hstep, collect_events_app, collect_events_one, app_assoc.
    reflexivity.
Qed.

Hypothesis queue_perm :
  forall (A : Type) (w : world) (l : list A),
    Permutation (queue_order A w l) l.

(** C8. Trajectory collection, serial or by worker processes, returns
    [rollout_num] rollouts, each of three sequences of exactly
    [rollout_len] rows, whatever the task does.  The serial collector and
    every worker make, after [set_task] and the first [reset], the calls of
    [rollout_len] passes per rollout, one after the other: a pass whose step
    returned [done] is followed by a [reset] of the task and nothing else,
    and its transition and those of the passes after it are rows of the
    same rollout.  (Collection is total when the network and the loss
    accept well-shaped batches and the queue delivers every message.) *)
Theorem collected_rollouts_full (self : MBMRL) (tk : task)
    (s : world * list event) :
  0 < rollout_len (cfg self) ->
  0 <= M (cfg self) ->
  loss_type (cfg self) = kind ->
  (exists rollouts self' s',
      _collect_traj self tk s = ok ((rollouts, self'), s') /\
      length rollouts = range_len (rollout_num (cfg self)) /\
      Forall (full_rollout (rollout_len (cfg self))) rollouts) /\
  (num_threads (cfg self) <= 1 ->
   exists chunks self' w',
     _collect_traj self tk s
     = ok ((map rollout_of_records chunks, self'),
           (w', snd s ++ [EvSetTask tk; EvReset tk]
                      ++ collect_events tk (theta self) (concat chunks))) /\
     length chunks = range_len (rollout_num (cfg self)) /\
     Forall (fun c : list collect_record =>
               length c = Z.to_nat (rollout_len (cfg self))) chunks) /\
  (forall (pid : nat) (n : Z) (s0 : world * list event),
   exists chunks n_model n_task w',
     _collect_traj_per_thread pid (worker_args_of self tk) n s0
     = ok ((map rollout_of_records chunks, n_model, n_task),
           (w', snd s0 ++ [EvReset tk; EvSetTask tk]
                       ++ collect_events tk (theta self) (concat chunks))) /\
     length chunks = range_len n /\
     Forall (fun c : list collect_record =>
               length c = Z.to_nat (rollout_len (cfg self))) chunks).
Proof.
  intros HL HM Hk.
  assert (Hserial : num_threads (cfg self) <= 1 ->
    exists chunks self' w',
      _collect_traj self tk s
      = ok ((map rollout_of_records chunks, self'),
            (w', snd s ++ [EvSetTask tk; EvReset tk]
                       ++ collect_events tk (theta self) (concat chunks))) /\
      length chunks = range_len (rollout_num (cfg self)) /\
      Forall (fun c : list collect_record =>
                length c = Z.to_nat (rollout_len (cfg self))) chunks).
  { intros Hnt. unfold _collect_traj.
    destruct (Z.gtb_spec (num_threads (cfg self)) 1) as [|_]; [lia|].
    destruct (collect_traj_serial_trace self tk s HM Hk)
      as (chunks & self' & w' & Hrun & Hlen & Hall & _).
    exists chunks, self', w'. repeat split; assumption. }
  split; [|split; [exact Hserial|]].
  - destruct (Z.le_gt_cases (num_threads (cfg self)) 1) as [Hnt|Hnt].
    + destruct (Hserial Hnt) as (chunks & self' & w' & Hrun & Hlen & Hall).
      exists (map rollout_of_records chunks), self'. eexists.
      split; [exact Hrun|]. split; [rewrite length_map; exact Hlen|].
      apply Forall_map. eapply Forall_impl; [|exact Hall].
      intros c Hc. apply rollout_of_records_full; assumption.
    + unfold _collect_traj.
      destruct (Z.gtb_spec (num_threads (cfg self)) 1) as [_|]; [|lia].
      destruct (collect_traj_parallel_run kind predict_total loss_total
                  queue_perm self tk s) as (rollouts & Hrun & Hlen);
        [lia|exact HM|exact Hk|].
      destruct (collect_traj_parallel_ok kind predict_total loss_total
                  queue_perm self tk s) as (r2 & self2 & s2 & Hrun2 & Hall);
        [lia|exact HM|exact Hk|].
      rewrite Hrun in Hrun2. injection Hrun2 as <- _ _.
      do 3 eexists. split; [exact Hrun|]. split; [exact Hlen|].
      eapply Forall_impl; [|exact Hall].
      intros r. apply rollout_of_len_full, HL.
  - intros pid n s0.
    assert (HMw : 0 <= wa_M (worker_args_of self tk)) by exact HM.
    destruct (collect_traj_per_thread_trace pid (worker_args_of self tk) n
                s0 HMw Hk)
      as (chunks & nm & nk & w' & Hrun & Hlen & Hall & _).
    exists chunks, nm, nk, w'. repeat split; assumption.
Qed.

End CollectionTrace.

(** ** The serial evaluator, episode by episode *)

Section EvaluationTrace.

Context {T : Torch} {W : World}.

Lemma episodes_events_app (tk : task) (th : net)
    (e1 e2 : list (list eval_step)) :
  episodes_events tk th (e1 ++ e2)
  = episodes_events tk th e1 ++ episodes_events tk th e2.
Proof. apply flat_map_app. Qed.

Lemma episode_events_no_start (tk : task) (th : net)
    (steps : list eval_step) :
  count is_process_start (episode_events tk th steps) = O.
Proof.
  induction steps as [|[[[st a] r] d] steps IH]; [reflexivity|exact IH].
Qed.

Lemma episodes_events_no_start (tk : task) (th : net)
    (episodes : list (list eval_step)) :
  count is_process_start (episodes_events tk th episodes) = O.
Proof.
  induction episodes as [|e episodes IH]; [reflexivity|].
  change (episodes_events tk th (e :: episodes))
    with ((EvReset tk :: episode_events tk th e)
          ++ episodes_events tk th episodes).
  unfold count in *. rewrite filter_app, length_app, IH.
  cbn [filter is_process_start].
  pose proof (episode_events_no_start tk th e) as H. unfold count in H.
  rewrite H. reflexivity.
Qed.

Lemma serial_events_no_start (th : net)
    (runs : list (task * list (list eval_step))) :
  count is_process_start (serial_events th runs) = O.
Proof.
  induction runs as [|[tk episodes] runs IH]; [reflexivity|].
  change (serial_events th ((tk, episodes) :: runs))
    with ((EvSetTask tk :: episodes_events tk th episodes)
          ++ serial_events th runs).
  unfold count in *. rewrite filter_app, length_app, IH.
  cbn [filter is_process_start].
  pose proof (episodes_events_no_start tk th episodes) as H.
  unfold count in H. rewrite H. reflexivity.
Qed.

Variable remaining : task -> world -> nat.

Hypothesis plan_keeps :
  forall tk th st o w,
    (remaining tk (fst (ctrl_plan th st o w)) <= remaining tk w)%nat.

Hypothesis step_decreases :
  forall tk a w,
    snd (snd (env_step tk a w)) = false ->
    (remaining tk (fst (env_step tk a w)) < remaining tk w)%nat.

Variable fuel : nat.

Hypothesis reset_bound :
  forall tk w, (remaining tk (fst (env_reset tk w)) < fuel)%nat.

(** [for _ in range(n)]: each pass resets the task and then runs one
    episode to its first [done]. *)
Lemma eval_episodes_trace (tk : task) (th : net) :
  forall (n : nat) (acc : list Q) (s : world * list event),
    exists episodes w',
      eval_episodes n fuel tk th acc s
      = ok (acc ++ map episode_return episodes,
            (w', snd s ++ episodes_events tk th episodes)) /\
      length episodes = n /\ Forall episode_ends episodes.
Proof.
  induction n as [|n IH]; intros acc s.
  - exists [], (fst s). cbn. rewrite !app_nil_r. destruct s.
    split; [reflexivity|]. split; [reflexivity|constructor].
  - cbn [eval_episodes mbind MonadPy_Run].
    erewrite run_bind_ok by apply call_reset_ok.
    destruct (episode_loop_ok remaining plan_keeps step_decreases tk th fuel
                (snd (env_reset tk (fst s))) 0%Q
                (fst (env_reset tk (fst s)), snd s ++ [EvReset tk]))
      as (steps & w1 & Hrun1 & Hends).
    { apply reset_bound. }
    erewrite run_bind_ok by exact Hrun1.
    destruct (IH (acc ++ [fold_left Qplus (map step_reward steps) 0%Q])
                (w1, snd (fst (env_reset tk (fst s)), snd s ++ [EvReset tk])
                       ++ episode_events tk th steps))
      as (episodes & w' & Hrun & Hlen & Hall).
    rewrite Hrun. cbn [snd].
    exists (steps :: episodes), w'.
    change (episodes_events tk th (steps :: episodes))
      with ((EvReset tk :: episode_events tk th steps)
            ++ episodes_events tk th episodes).
    cbn [map]. unfold episode_return at 2, Qsum.
    rewrite <- !app_assoc. cbn [app].
    split; [reflexivity|]. split; [simpl; lia|].
    constructor; assumption.
Qed.

(** [for task in self.tasks]: [set_task], five episodes, and the mean of
    their returns. *)
Lemma eval_tasks_serial_trace (th : net) :
  forall (tks : list task) (acc : list Q) (acc_all : list (list Q))
         (s : world * list event),
    exists runs w',
      eval_tasks_serial fuel tks th acc acc_all s
      = ok ((acc ++ map (fun r => np_mean (map episode_return (snd r))) runs,
             acc_all ++ map (fun r => map episode_return (snd r)) runs),
            (w', snd s ++ serial_events th runs)) /\
      map fst runs = tks /\
      Forall (fun r : task * list (list eval_step) =>
                length (snd r) = 5%nat /\ Forall episode_ends (snd r)) runs.
Proof.
  induction tks as [|tk tks IH]; intros acc acc_all s.
  - exists [], (fst s). cbn. rewrite !app_nil_r. destruct s.
    split; [reflexivity|]. split; [reflexivity|constructor].
  - cbn [eval_tasks_serial mbind MonadPy_Run].
    erewrite run_bind_ok by apply call_set_task_ok.
    destruct (eval_episodes_trace tk th (range_len 5) []
                (ctrl_set_task tk (fst s), snd s ++ [EvSetTask tk]))
      as (episodes & w1 & Hrun1 & Hlen1 & Hall1).
    erewrite run_bind_ok by exact Hrun1. cbn [app snd].
    match goal with
    | |- context [eval_tasks_serial fuel tks th ?a ?b ?s1] =>
        destruct (IH a b s1) as (runs & w' & Hrun & Hfst & Hall)
    end.
    rewrite Hrun. cbn [snd].
    exists ((tk, episodes) :: runs), w'.
    change (serial_events th ((tk, episodes) :: runs))
      with ((EvSetTask tk :: episodes_events tk th episodes)
            ++ serial_events th runs).
    cbn [map fst snd]. rewrite <- !app_assoc. cbn [app].
    split; [reflexivity|]. split; [rewrite Hfst; reflexivity|].
    constructor; [|exact Hall]. split; [exact Hlen1|exact Hall1].
Qed.

Lemma evaluate_serial_trace (self : MBMRL) (s : world * list event) :
  exists runs w',
    _evaluate_serial fuel self s
    = ok (map (fun r => np_mean (map episode_return (snd r))) runs,
          (w', snd s ++ serial_events (theta self) runs)) /\
    map fst runs = tasks self /\
    Forall (fun r : task * list (list eval_step) =>
              length (snd r) = 5%nat /\ Forall episode_ends (snd r)) runs.
Proof.
  unfold _evaluate_serial. cbn [mbind MonadPy_Run mret].
  destruct (eval_tasks_serial_trace (theta self) (tasks self) [] [] s)
    as (runs & w' & Hrun & Hfst & Hall).
  erewrite run_bind_ok by exact Hrun.
  exists runs, w'. split; [reflexivity|]. split; assumption.
Qed.

(** C10. [evaluate] starts worker processes exactly when [num_threads > 1]
    and [eval_sample_num > 1]: its calls are then the starts of
    [eval_sample_num] processes and nothing else.  In every other case its
    calls are those of the serial evaluator: for each task of [self.tasks]
    in turn, [set_task] and then exactly 5 episodes, each of them a [reset]
    followed by the plans and steps of the episode up to its first [done];
    no process is started, and the value returned and stored in
    [eval_rewards] holds, for each task, the mean of the returns of its 5
    episodes. *)
Theorem evaluate_dispatch (self : MBMRL) (s : world * list event) :
  exists mean_rewards w' h',
    evaluate fuel self s
    = ok ((mean_rewards, set_eval_rewards mean_rewards self),
          (w', snd s ++ h')) /\
    ((0 < count is_process_start h')%nat <->
     (num_threads (cfg self) > 1 /\ eval_sample_num (cfg self) > 1)) /\
    if (num_threads (cfg self) >? 1) && (eval_sample_num (cfg self) >? 1)
    then
      h' = map EvProcessStart (seq 0 (range_len (eval_sample_num (cfg self))))
    else
      exists runs : list (task * list (list eval_step)),
        map fst runs = tasks self /\
        Forall (fun r => length (snd r) = 5%nat /\
                         Forall episode_ends (snd r)) runs /\
        h' = serial_events (theta self) runs /\
        mean_rewards
        = map (fun r => np_mean (map episode_return (snd r))) runs.
Proof.
  assert (Hserial :
    ~ (num_threads (cfg self) > 1 /\ eval_sample_num (cfg self) > 1) ->
    exists mean_rewards w' h',
      run_bind (_evaluate_serial fuel self)
        (fun r => run_ret (r, set_eval_rewards r self)) s
      = ok ((mean_rewards, set_eval_rewards mean_rewards self),
            (w', snd s ++ h')) /\
      ((0 < count is_process_start h')%nat <->
       (num_threads (cfg self) > 1 /\ eval_sample_num (cfg self) > 1)) /\
      exists runs : list (task * list (list eval_step)),
        map fst runs = tasks self /\
        Forall (fun r => length (snd r) = 5%nat /\
                         Forall episode_ends (snd r)) runs /\
        h' = serial_events (theta self) runs /\
        mean_rewards
        = map (fun r => np_mean (map episode_return (snd r))) runs).
  { intros Hno.
    destruct (evaluate_serial_trace self s)
      as (runs & w' & Hrun & Hfst & Hall).
    erewrite run_bind_ok by exact Hrun.
    do 3 eexists. split; [reflexivity|].
    rewrite serial_events_no_start.
    split; [split; [lia|tauto]|].
    exists runs. repeat split; assumption. }
  unfold evaluate. cbn [mbind MonadPy_Run mret].
  destruct (Z.gtb_spec (num_threads (cfg self)) 1) as [Hnt|Hnt];
    destruct (Z.gtb_spec (eval_sample_num (cfg self)) 1) as [Hes|Hes];
    cbn [andb]; try (apply Hserial; lia).
  destruct (evaluate_parallel_ok remaining plan_keeps step_decreases fuel
              reset_bound self s) as (r & Hrun).
  erewrite run_bind_ok by exact Hrun.
  exists r, (fst s). eexists. split; [reflexivity|].
  rewrite count_process_starts, length_seq. split; [|reflexivity].
  unfold range_len. split; [lia|intros _; lia].
Qed.

End EvaluationTrace.

(** ** The dataset under extension and shuffling *)

Section ShuffledDataset.

Context {T : Torch} {W : World}.

Hypothesis shuffle_perm :
  forall (A : Type) (l : list A) (w : world),
    Permutation (snd (rng_shuffle A l w)) l.

Lemma lastn_incl {A} (n : nat) (l : list A) : incl (lastn n l) l.
Proof.
  destruct (lastn_suffix n l) as (dropped & Hl). intros x Hx.
  rewrite Hl. apply in_or_app. right. exact Hx.
Qed.

Lemma extend_and_shuffle_step (self : MBMRL) (rollouts : list rollout_t)
    (s : world * list event) :
  (length (items (dataset self)) <= maxlen (dataset self))%nat ->
  exists self' s',
    extend_and_shuffle self rollouts s = ok (self', s') /\
    maxlen (dataset self') = maxlen (dataset self) /\
    Permutation (items (dataset self'))
      (lastn (maxlen (dataset self)) (items (dataset self) ++ rollouts)).
Proof.
  intros Hfit.
  destruct (extend_and_shuffle_dataset shuffle_perm self rollouts s)
    as (self' & s' & Hrun & Hmax & Hperm).
  destruct (deque_extend_history rollouts (dataset self)
              (items (dataset self))) as [_ Hi].
  { symmetry. apply lastn_all. exact Hfit. }
  rewrite Hi in Hperm.
  exists self', s'. split; [exact Hrun|]. split; [exact Hmax|exact Hperm].
Qed.

Lemma extend_all_unfold (rollouts : list rollout_t)
    (rest : list (list rollout_t)) (self : MBMRL) :
  extend_all (rollouts :: rest) self
  = run_bind (extend_and_shuffle self rollouts) (extend_all rest).
Proof. reflexivity. Qed.

Lemma extend_all_ok :
  forall (batches : list (list rollout_t)) (self : MBMRL)
         (s : world * list event),
    (length (items (dataset self)) <= maxlen (dataset self))%nat ->
    exists self' s',
      extend_all batches self s = ok (self', s') /\
      maxlen (dataset self') = maxlen (dataset self) /\
      length (items (dataset self'))
      = Nat.min (maxlen (dataset self))
          (length (items (dataset self)) + length (concat batches)) /\
      incl (items (dataset self'))
        (items (dataset self) ++ concat batches).
Proof.
  induction batches as [|rollouts rest IH]; intros self s Hfit.
  - exists self, s. cbn. rewrite Nat.add_0_r, app_nil_r.
    split; [reflexivity|]. split; [reflexivity|].
    split; [lia|apply incl_refl].
  - destruct (extend_and_shuffle_step self rollouts s Hfit)
      as (self1 & s1 & Hrun1 & Hmax1 & Hperm1).
    pose proof (Permutation_length Hperm1) as Hlen1.
    rewrite lastn_length, length_app in Hlen1.
    destruct (IH self1 s1) as (self' & s' & Hrun & Hmax & Hlen & Hincl).
    { rewrite Hmax1, Hlen1. lia. }
    exists self', s'. rewrite extend_all_unfold.
    erewrite run_bind_ok by exact Hrun1.
    split; [exact Hrun|]. split; [congruence|]. split.
    + rewrite Hlen, Hmax1, Hlen1. cbn [concat]. rewrite length_app. lia.
    + intros x Hx. apply Hincl in Hx. cbn [concat].
      rewrite app_assoc. apply in_app_or in Hx. apply in_or_app.
      destruct Hx as [Hx|Hx]; [left|right; exact Hx].
      apply (Permutation_in _ Hperm1) in Hx.
      apply (lastn_incl _ _ _ Hx).
Qed.

(** C6 (amended). The dataset is a bounded collection that is shuffled
    after every extension.  Starting from the empty [deque(maxlen =
    dataset_size)], after any sequence of extensions it holds
    [min(dataset_size, n)] of the [n] rollouts appended: its length is
    [dataset_size] once more than [dataset_size] rollouts have been
    appended.  One extension leaves, in some order, the last [maxlen]
    elements of the deque as it stood, in its shuffled order, followed by
    the new rollouts: what is dropped comes from the front of that order,
    not from the oldest arrivals. *)
Theorem dataset_bounded_shuffled (self : MBMRL)
    (batches : list (list rollout_t)) (s : world * list event) :
  deque_new (dataset_size (cfg self)) = ok (dataset self) ->
  (exists self' s',
      extend_all batches self s = ok (self', s') /\
      maxlen (dataset self') = Z.to_nat (dataset_size (cfg self)) /\
      deque_len (dataset self')
      = Z.min (dataset_size (cfg self)) (len (concat batches)) /\
      (dataset_size (cfg self) < len (concat batches) ->
       deque_len (dataset self') = dataset_size (cfg self)) /\
      incl (items (dataset self')) (concat batches)) /\
  (forall (self0 : MBMRL) (rollouts : list rollout_t)
          (s0 : world * list event),
      (length (items (dataset self0)) <= maxlen (dataset self0))%nat ->
      exists self1 s1,
        extend_and_shuffle self0 rollouts s0 = ok (self1, s1) /\
        maxlen (dataset self1) = maxlen (dataset self0) /\
        Permutation (items (dataset self1))
          (lastn (maxlen (dataset self0))
             (items (dataset self0) ++ rollouts))).
Proof.
  intros Hnew. split; [|apply extend_and_shuffle_step].
  unfold deque_new in Hnew.
  destruct (Z.ltb_spec (dataset_size (cfg self)) 0) as [|Hpos];
    [discriminate|].
  injection Hnew as Hd.
  destruct (extend_all_ok batches self s)
    as (self' & s' & Hrun & Hmax & Hlen & Hincl).
  { rewrite <- Hd. cbn. lia. }
  rewrite <- Hd in Hmax, Hlen, Hincl. cbn [maxlen items app length Nat.add]
    in Hmax, Hlen, Hincl.
  exists self', s'. split; [exact Hrun|]. split; [exact Hmax|].
  assert (Hl : deque_len (dataset self')
               = Z.min (dataset_size (cfg self)) (len (concat batches))).
  { unfold deque_len, len. rewrite Hlen. lia. }
  split; [exact Hl|]. split; [intros Hmore; rewrite Hl; lia|exact Hincl].
Qed.

End ShuffledDataset.

Import RevShuffle.

(** Capacity 2 on the instance, whose shuffle is the identity: after the
    rollouts 1 and 2 and then the rollout 3, the dataset holds two of them. *)
Lemma dataset_bounded_shuffled_witness :
  deque_new (dataset_size (cfg agent)) = ok (dataset agent) /\
  exists self' s',
    extend_all [[rollout_1; rollout_2]; [rollout_3]] agent toy_start
    = ok (self', s') /\
    deque_len (dataset self') = 2 /\
    incl (items (dataset self')) [rollout_1; rollout_2; rollout_3].
Proof.
  assert (Hnew : deque_new (dataset_size (cfg agent)) = ok (dataset agent))
    by reflexivity.
  split; [exact Hnew|].
  destruct (proj1 (@dataset_bounded_shuffled toy_torch toy_world
                     toy_shuffle_perm agent
                     [[rollout_1; rollout_2]; [rollout_3]] toy_start Hnew))
    as (self' & s' & Hrun & _ & Hlen & _ & Hincl).
  exists self', s'. split; [exact Hrun|]. split; [exact Hlen|exact Hincl].
Defined.

(** C6, counterexample. Capacity 2, the rollouts 1 and 2 appended and then
    the rollout 3, with a shuffle that reverses the deque (a permutation,
    as every shuffle is): the dataset ends as [3; 1].  The rollout 2 was
    dropped although the rollout 1 is older, and the order of arrival is
    lost; the deque alone, without the shuffles, would hold [2; 3]. *)
Lemma dataset_fifo_counterexample :
  (forall (A : Type) (l : list A) (w : @world toy_torch rev_world),
      Permutation (snd (@rng_shuffle toy_torch rev_world A l w)) l) /\
  deque_new (dataset_size (cfg rev_agent)) = ok (dataset rev_agent) /\
  option_map (fun self' : @MBMRL toy_torch rev_world =>
                items (dataset self'))
    (returned (@extend_all toy_torch rev_world
                 [[rollout_1; rollout_2]; [rollout_3]] rev_agent rev_start))
  = Some [rollout_3; rollout_1] /\
  items (fold_left deque_extend [[rollout_1; rollout_2]; [rollout_3]]
           (dataset rev_agent))
  = [rollout_2; rollout_3].
Proof.
  split; [|repeat split; reflexivity].
  intros A l w. cbn. apply Permutation_sym, Permutation_rev.
Qed.

(** ** The traces on the instance *)

(** The second pass of a rollout on the instance, [t = 1], with [M = 2]:
    the window holds the one transition collected so far and the
    controller is called with adapted parameters. *)
Lemma collection_window_witness :
  0 < M (cfg agent) /\
  exists xs self_t state_t w_t,
    collect_steps 1 tt (agent, [], [0%Q], 0) toy_start
    = ok ((self_t, rollout_of_records xs, state_t, Z.of_nat 1),
          (w_t, snd toy_start ++ collect_events tt (theta agent) xs)) /\
    length xs = 1%nat /\
    exists o self' x state' w',
      o <> None /\ rec_overlay x = o /\
      collect_step tt
        (self_t, rollout_of_records xs, state_t, Z.of_nat 1)
        (w_t, snd toy_start ++ collect_events tt (theta agent) xs)
      = ok ((set_stats (add_task_steps 1) self',
             rollout_of_records (xs ++ [x]), state', Z.of_nat 1 + 1),
            (w', snd toy_start
                   ++ collect_events tt (theta agent) (xs ++ [x]))).
Proof.
  assert (HM : 0 < M (cfg agent)) by reflexivity.
  split; [exact HM|].
  destruct (proj1 (@collection_window toy_torch toy_world "mse"
                     toy_predict_total toy_loss_total tt agent
                     [0%Q] toy_start 1 HM eq_refl))
    as (xs & self_t & state_t & w_t & Hrun & Hlen & _ & _ & _ & o & self'
        & x & state' & w' & _ & Hiff & _ & Ho & Hstep).
  exists xs, self_t, state_t, w_t.
  split; [exact Hrun|]. split; [exact Hlen|].
  exists o, self', x, state', w'.
  split; [|split; [exact Ho|exact Hstep]].
  intros Hnone. apply Hiff in Hnone. discriminate.
Defined.

(** C5, counterexample. On the instance [M = 2], and the second pass of
    a rollout, one of the first [M], calls the controller with the adapted
    weight 5/4, in the serial collector and in the worker: the window is
    empty at the first pass only. *)
Lemma collection_window_counterexample :
  M (cfg agent) = 2 /\
  history (collect_steps 2 tt (agent, [], [0%Q], 0) toy_start)
  = Some [EvPlan 1%Q [0%Q] None; EvStep tt (Scalar 1) 1 false;
          EvPlan 1%Q [2%Q] (Some [("w"%string, 5 # 4)]);
          EvStep tt (Scalar (5 # 4)) (5 # 4) false] /\
  history (worker_steps 2 (worker_args_of agent tt) ([], [0%Q], 0, 0, 0)
             toy_start)
  = Some [EvPlan 1%Q [0%Q] None; EvStep tt (Scalar 1) 1 false;
          EvPlan 1%Q [2%Q] (Some [("w"%string, 5 # 4)]);
          EvStep tt (Scalar (5 # 4)) (5 # 4) false] /\
  option_map (firstn 6) (history (_collect_traj_serial agent tt toy_start))
  = Some [EvSetTask tt; EvReset tt;
          EvPlan 1%Q [0%Q] None; EvStep tt (Scalar 1) 1 false;
          EvPlan 1%Q [2%Q] (Some [("w"%string, 5 # 4)]);
          EvStep tt (Scalar (5 # 4)) (5 # 4) false].
Proof. repeat split; reflexivity. Qed.

(** Serial collection on the instance: three rollouts of five passes
    each, the task being reset after every pass that ended an episode. *)
Lemma collected_rollouts_full_witness :
  0 < rollout_len (cfg agent) /\ 0 <= M (cfg agent) /\
  exists chunks self' w',
    _collect_traj agent tt toy_start
    = ok ((map rollout_of_records chunks, self'),
          (w', snd toy_start ++ [EvSetTask tt; EvReset tt]
                 ++ collect_events tt (theta agent) (concat chunks))) /\
    length chunks = range_len (rollout_num (cfg agent)) /\
    Forall (fun c : list collect_record =>
              length c = Z.to_nat (rollout_len (cfg agent))) chunks.
Proof.
  assert (HL : 0 < rollout_len (cfg agent)) by reflexivity.
  assert (HM : 0 <= M (cfg agent)) by (apply Z.leb_le; reflexivity).
  assert (Hnt : num_threads (cfg agent) <= 1)
    by (apply Z.leb_le; reflexivity).
  split; [exact HL|]. split; [exact HM|].
  exact (proj1 (proj2 (@collected_rollouts_full toy_torch toy_world "mse"
                         toy_predict_total toy_loss_total toy_queue_perm
                         agent tt toy_start HL HM eq_refl)) Hnt).
Defined.

(** [evaluate] on the instance, [num_threads = 1]: one task, five
    episodes. *)
Lemma evaluate_dispatch_witness :
  exists mean_rewards w' h',
    evaluate 4 agent toy_start
    = ok ((mean_rewards, set_eval_rewards mean_rewards agent),
          (w', snd toy_start ++ h')) /\
    exists runs : list (task * list (list eval_step)),
      map fst runs = tasks agent /\
      Forall (fun r => length (snd r) = 5%nat /\
                       Forall episode_ends (snd r)) runs /\
      h' = serial_events (theta agent) runs /\
      mean_rewards
      = map (fun r => np_mean (map episode_return (snd r))) runs.
Proof.
  destruct (@evaluate_dispatch toy_torch toy_world
              toy_remaining toy_plan_keeps toy_step_decreases
              4%nat toy_reset_bound agent toy_start)
    as (r & w' & h' & Hrun & _ & Hser).
  change ((num_threads (cfg agent) >? 1) && (eval_sample_num (cfg agent) >? 1))
    with false in Hser. cbv iota in Hser.
  exists r, w', h'. split; [exact Hrun|exact Hser].
Defined.
